(** * es-labs: the cooperative task scheduler and the Lab 2.1 tasks

    A shallow embedding of [TaskScheduler.cpp] (the scheduler core) and of
    [lab2_1_main.cpp] (button FSM, statistics and blink sequencer,
    reporter), followed by the properties of the specification stated and
    proved over that embedding.  The embedding goes on with the command
    parser and the loop of Lab 1.1, and with the lock FSM, the LED and LCD
    drivers and the loop of Lab 1.2, and the properties with what these
    show.

    Conventions.
    - [uint32_t] values are integers in [0, 2^32); every C addition and
      subtraction on them is followed by [u32], the reduction modulo 2^32.
    - [uint8_t] loop indices and the blink step counter are integers in
      [0, 256); the conversion to [int8_t] done by [chosen = i] is [to_int8].
    - [size_t] values are integers in [0, 2^16), reduced by [u16].
    - A [char] array is the list of its chars, a C string in it the chars
      before the first NUL; [isspace] and [tolower] are those of the C
      locale.
    - [millis()], [digitalRead], [digitalWrite], [fgets], the keypad, the
      LCD and [printf] belong to the environment: clock, pin, key and line
      reads are inputs, pin writes, LCD calls and [printf] calls are
      recorded in the state in the order they are issued. *)

From Stdlib Require Import ZArith Lia Bool Ascii String List Sorted.
From stdpp Require Import base list.
Import ListNotations.

Local Open Scope Z_scope.

(** ** Machine integers *)

Definition UINT32_MAX : Z := 4294967295.

(** Wrap-around of [uint32_t] arithmetic. *)
Definition u32 (x : Z) : Z := x mod 4294967296.

(** Wrap-around of [uint8_t] arithmetic. *)
Definition u8 (x : Z) : Z := x mod 256.

(** A value stored in a [size_t], which has 16 bits on the AVR. *)
Definition u16 (x : Z) : Z := x mod 65536.

(** The conversion [uint8_t -> int8_t] of the assignment [chosen = i]
    (two's complement, as avr-gcc does it). *)
Definition to_int8 (i : Z) : Z := if i <? 128 then i else i - 256.

(** ** TaskScheduler *)

Module TaskScheduler.

(** [TaskContext_t] of TaskScheduler.h; [Fn] stands for the type of pointers to task functions. *)
Record TaskContext_t (Fn : Type) : Type := mkTask {
  funcPtr : Fn;
  period  : Z;
  offset  : Z;
  nextRun : Z
}.
Arguments mkTask {Fn} _ _ _ _.
Arguments funcPtr {Fn} _.
Arguments period {Fn} _.
Arguments offset {Fn} _.
Arguments nextRun {Fn} _.

(** The assignment [t.nextRun = v]. *)
Definition set_nextRun {Fn : Type} (v : Z) (t : TaskContext_t Fn) : TaskContext_t Fn :=
  mkTask (funcPtr t) (period t) (offset t) v.

Section Scheduler.
(** [World] is everything outside the task table: the clock, the pins and
    the globals of the application.  [millis] reads the clock (the world
    it returns lets a reading depend on the readings before it); [call f]
    runs the task function [f] to completion.  Task functions do not touch
    the task table, as none in this repository does. *)
Context {Fn World : Type}.
Variable millis : World -> Z * World.
Variable call : Fn -> World -> World.

(** [schedulerInit]: [tasks[i].nextRun = now + tasks[i].offset]. *)
Definition schedulerInit (tasks : list (TaskContext_t Fn)) (w : World)
  : list (TaskContext_t Fn) * World :=
  let '(now, w1) := millis w in
  (map (fun t => set_nextRun (u32 (now + offset t)) t) tasks, w1).

(** The selection loop of [schedulerRun] (lines 200-207) over
    [tasks[i..count-1]], from the current values of [chosen] and
    [earliest]; it returns their final values. *)
Fixpoint scan (now : Z) (ts : list (TaskContext_t Fn)) (i chosen earliest : Z)
  : Z * Z :=
  match ts with
  | [] => (chosen, earliest)
  | t :: rest =>
      if now >=? nextRun t then
        if nextRun t <? earliest then scan now rest (i + 1) (to_int8 i) (nextRun t)
        else scan now rest (i + 1) chosen earliest
      else scan now rest (i + 1) chosen earliest
  end.

(** The value of [chosen] after the loop. *)
Definition chosenAfterScan (now : Z) (tasks : list (TaskContext_t Fn)) : Z :=
  fst (scan now tasks 0 (-1) UINT32_MAX).

(** [schedulerRun]; [count] is the length of [tasks]. *)
Definition schedulerRun (tasks : list (TaskContext_t Fn)) (w : World)
  : list (TaskContext_t Fn) * World :=
  let '(now, w1) := millis w in
  let chosen := chosenAfterScan now tasks in
  if chosen >=? 0 then
    match tasks !! Z.to_nat chosen with
    | Some t =>
        let w2 := call (funcPtr t) w1 in
        let advanced := u32 (nextRun t + period t) in
        let '(t1, w3) := millis w2 in
        if advanced <? t1 then
          let '(t2, w4) := millis w3 in
          (<[Z.to_nat chosen := set_nextRun (u32 (t2 + period t)) t]> tasks, w4)
        else
          (<[Z.to_nat chosen := set_nextRun advanced t]> tasks, w3)
    | None => (tasks, w1)
    end
  else (tasks, w1).

End Scheduler.

End TaskScheduler.

(** ** Lab 2.1: button press monitor *)

Module Lab2_1.

(** *** Pins and constants *)

Definition PIN_BUTTON : Z := 7.
Definition PIN_LED_GREEN : Z := 8.
Definition PIN_LED_RED : Z := 9.
Definition PIN_LED_YELLOW : Z := 10.

Definition HIGH : bool := true.
Definition LOW : bool := false.

Definition SHORT_PRESS_THRESHOLD_MS : Z := 500.
Definition LED_INDICATOR_DURATION_MS : Z := 1500.
Definition BLINK_HALF_PERIOD_MS : Z := 100.
Definition BLINK_STEPS_SHORT : Z := 10.
Definition BLINK_STEPS_LONG : Z := 20.
Definition DEBOUNCE_MS : Z := 50.

(** *** Program state

    The globals of lab2_1_main.cpp, grouped as the file groups them. *)

(** "Shared global state (inter-task communication)". *)
Record Shared : Type := mkShared {
  g_newPress          : bool;
  g_lastPressDuration : Z;
  g_isShortPress      : bool;
  g_totalPresses      : Z;
  g_shortPresses      : Z;
  g_longPresses       : Z;
  g_totalDurationMs   : Z
}.

Inductive ButtonState_e : Type :=
  | BTN_IDLE
  | BTN_DEBOUNCE_DOWN
  | BTN_PRESSED
  | BTN_DEBOUNCE_UP.

(** "Task 1 - private state". *)
Record Task1Private : Type := mkTask1Private {
  s_btnState      : ButtonState_e;
  s_debounceStart : Z;
  s_pressStart    : Z;
  s_pressEnd      : Z;
  s_greenLedOffAt : Z;
  s_redLedOffAt   : Z
}.

(** "Task 2 - private state (yellow LED blink sequencer)". *)
Record Task2Private : Type := mkTask2Private {
  s_blinkStepsRemaining : Z;
  s_blinkLastToggle     : Z;
  s_yellowLedOn         : bool
}.

(** The whole program state, with the two output channels: the
    [digitalWrite] calls and the [printf] calls issued so far, newest
    first.  A [printf] call is its format string, as written in the
    source, and its integer arguments. *)
Record Lab : Type := mkLab {
  shared    : Shared;
  task1     : Task1Private;
  task2     : Task2Private;
  pinWrites : list (Z * bool);
  stdoutLog : list (string * list Z)
}.

(** *** Assignments to the globals *)

Definition with_shared (f : Shared -> Shared) (s : Lab) : Lab :=
  mkLab (f (shared s)) (task1 s) (task2 s) (pinWrites s) (stdoutLog s).
Definition with_task1 (f : Task1Private -> Task1Private) (s : Lab) : Lab :=
  mkLab (shared s) (f (task1 s)) (task2 s) (pinWrites s) (stdoutLog s).
Definition with_task2 (f : Task2Private -> Task2Private) (s : Lab) : Lab :=
  mkLab (shared s) (task1 s) (f (task2 s)) (pinWrites s) (stdoutLog s).

Definition set_g_newPress (v : bool) : Lab -> Lab :=
  with_shared (fun g => mkShared v (g_lastPressDuration g) (g_isShortPress g)
    (g_totalPresses g) (g_shortPresses g) (g_longPresses g) (g_totalDurationMs g)).
Definition set_g_lastPressDuration (v : Z) : Lab -> Lab :=
  with_shared (fun g => mkShared (g_newPress g) v (g_isShortPress g)
    (g_totalPresses g) (g_shortPresses g) (g_longPresses g) (g_totalDurationMs g)).
Definition set_g_isShortPress (v : bool) : Lab -> Lab :=
  with_shared (fun g => mkShared (g_newPress g) (g_lastPressDuration g) v
    (g_totalPresses g) (g_shortPresses g) (g_longPresses g) (g_totalDurationMs g)).
Definition set_g_totalPresses (v : Z) : Lab -> Lab :=
  with_shared (fun g => mkShared (g_newPress g) (g_lastPressDuration g) (g_isShortPress g)
    v (g_shortPresses g) (g_longPresses g) (g_totalDurationMs g)).
Definition set_g_shortPresses (v : Z) : Lab -> Lab :=
  with_shared (fun g => mkShared (g_newPress g) (g_lastPressDuration g) (g_isShortPress g)
    (g_totalPresses g) v (g_longPresses g) (g_totalDurationMs g)).
Definition set_g_longPresses (v : Z) : Lab -> Lab :=
  with_shared (fun g => mkShared (g_newPress g) (g_lastPressDuration g) (g_isShortPress g)
    (g_totalPresses g) (g_shortPresses g) v (g_totalDurationMs g)).
Definition set_g_totalDurationMs (v : Z) : Lab -> Lab :=
  with_shared (fun g => mkShared (g_newPress g) (g_lastPressDuration g) (g_isShortPress g)
    (g_totalPresses g) (g_shortPresses g) (g_longPresses g) v).

Definition set_s_btnState (v : ButtonState_e) : Lab -> Lab :=
  with_task1 (fun p => mkTask1Private v (s_debounceStart p) (s_pressStart p)
    (s_pressEnd p) (s_greenLedOffAt p) (s_redLedOffAt p)).
Definition set_s_debounceStart (v : Z) : Lab -> Lab :=
  with_task1 (fun p => mkTask1Private (s_btnState p) v (s_pressStart p)
    (s_pressEnd p) (s_greenLedOffAt p) (s_redLedOffAt p)).
Definition set_s_pressStart (v : Z) : Lab -> Lab :=
  with_task1 (fun p => mkTask1Private (s_btnState p) (s_debounceStart p) v
    (s_pressEnd p) (s_greenLedOffAt p) (s_redLedOffAt p)).
Definition set_s_pressEnd (v : Z) : Lab -> Lab :=
  with_task1 (fun p => mkTask1Private (s_btnState p) (s_debounceStart p) (s_pressStart p)
    v (s_greenLedOffAt p) (s_redLedOffAt p)).
Definition set_s_greenLedOffAt (v : Z) : Lab -> Lab :=
  with_task1 (fun p => mkTask1Private (s_btnState p) (s_debounceStart p) (s_pressStart p)
    (s_pressEnd p) v (s_redLedOffAt p)).
Definition set_s_redLedOffAt (v : Z) : Lab -> Lab :=
  with_task1 (fun p => mkTask1Private (s_btnState p) (s_debounceStart p) (s_pressStart p)
    (s_pressEnd p) (s_greenLedOffAt p) v).

Definition set_s_blinkStepsRemaining (v : Z) : Lab -> Lab :=
  with_task2 (fun b => mkTask2Private v (s_blinkLastToggle b) (s_yellowLedOn b)).
Definition set_s_blinkLastToggle (v : Z) : Lab -> Lab :=
  with_task2 (fun b => mkTask2Private (s_blinkStepsRemaining b) v (s_yellowLedOn b)).
Definition set_s_yellowLedOn (v : bool) : Lab -> Lab :=
  with_task2 (fun b => mkTask2Private (s_blinkStepsRemaining b) (s_blinkLastToggle b) v).

(** *** Output primitives *)

Definition digitalWrite (pin : Z) (level : bool) (s : Lab) : Lab :=
  mkLab (shared s) (task1 s) (task2 s) ((pin, level) :: pinWrites s) (stdoutLog s).

Definition printf (fmt : string) (args : list Z) (s : Lab) : Lab :=
  mkLab (shared s) (task1 s) (task2 s) (pinWrites s) ((fmt, args) :: stdoutLog s).

(** The level an output pin drives: the level of the latest write to it,
    [LOW] before the first one. *)
Definition levelIn (pin : Z) (writes : list (Z * bool)) : bool :=
  match List.find (fun w => fst w =? pin) writes with
  | Some w => snd w
  | None => LOW
  end.

Definition pinLevel (pin : Z) (s : Lab) : bool := levelIn pin (pinWrites s).

(** *** Task 1: button detection, duration measurement, indicator LEDs

    [now] and [btnLow] are the two locals read at the top of
    [task1ButtonAndLed]: [millis()] and [digitalRead(PIN_BUTTON) == LOW]. *)

(** "FSM update": the [switch] on [s_btnState]. *)
Definition task1Fsm (now : Z) (btnLow : bool) (s : Lab) : Lab :=
  match s_btnState (task1 s) with
  | BTN_IDLE =>
      if btnLow then
        let s := set_s_debounceStart now s in
        set_s_btnState BTN_DEBOUNCE_DOWN s
      else s
  | BTN_DEBOUNCE_DOWN =>
      if negb btnLow then set_s_btnState BTN_IDLE s
      else if u32 (now - s_debounceStart (task1 s)) >=? DEBOUNCE_MS then
        let s := set_s_pressStart now s in
        set_s_btnState BTN_PRESSED s
      else s
  | BTN_PRESSED =>
      if negb btnLow then
        let s := set_s_pressEnd now s in
        let s := set_s_debounceStart now s in
        set_s_btnState BTN_DEBOUNCE_UP s
      else s
  | BTN_DEBOUNCE_UP =>
      if btnLow then set_s_btnState BTN_PRESSED s
      else if u32 (now - s_debounceStart (task1 s)) >=? DEBOUNCE_MS then
        let duration := u32 (s_pressEnd (task1 s) - s_pressStart (task1 s)) in
        let s := set_g_lastPressDuration duration s in
        let s := set_g_isShortPress (duration <? SHORT_PRESS_THRESHOLD_MS) s in
        let s := set_g_newPress true s in
        let s :=
          if g_isShortPress (shared s) then
            let s := digitalWrite PIN_LED_GREEN HIGH s in
            set_s_greenLedOffAt (u32 (now + LED_INDICATOR_DURATION_MS)) s
          else
            let s := digitalWrite PIN_LED_RED HIGH s in
            set_s_redLedOffAt (u32 (now + LED_INDICATOR_DURATION_MS)) s in
        set_s_btnState BTN_IDLE s
      else s
  end.

(** "Auto-off for indicator LEDs". *)
Definition task1AutoOff (now : Z) (s : Lab) : Lab :=
  let s :=
    if negb (s_greenLedOffAt (task1 s) =? 0) && (now >=? s_greenLedOffAt (task1 s)) then
      let s := digitalWrite PIN_LED_GREEN LOW s in
      set_s_greenLedOffAt 0 s
    else s in
  if negb (s_redLedOffAt (task1 s) =? 0) && (now >=? s_redLedOffAt (task1 s)) then
    let s := digitalWrite PIN_LED_RED LOW s in
    set_s_redLedOffAt 0 s
  else s.

Definition task1ButtonAndLed (now : Z) (btnLow : bool) (s : Lab) : Lab :=
  task1AutoOff now (task1Fsm now btnLow s).

(** *** Task 2: statistics update and yellow LED blink sequencer

    [now] is the local read from [millis()] at the top of the function. *)

(** "Consume new press event". *)
Definition task2Consume (now : Z) (s : Lab) : Lab :=
  if g_newPress (shared s) then
    let s := set_g_newPress false s in
    let s := set_g_totalPresses (u32 (g_totalPresses (shared s) + 1)) s in
    let s := set_g_totalDurationMs
               (u32 (g_totalDurationMs (shared s) + g_lastPressDuration (shared s))) s in
    let s :=
      if g_isShortPress (shared s) then
        let s := set_g_shortPresses (u32 (g_shortPresses (shared s) + 1)) s in
        set_s_blinkStepsRemaining BLINK_STEPS_SHORT s
      else
        let s := set_g_longPresses (u32 (g_longPresses (shared s) + 1)) s in
        set_s_blinkStepsRemaining BLINK_STEPS_LONG s in
    let s := digitalWrite PIN_LED_YELLOW HIGH s in
    let s := set_s_yellowLedOn true s in
    set_s_blinkLastToggle now s
  else s.

(** "Advance blink sequencer". *)
Definition task2Advance (now : Z) (s : Lab) : Lab :=
  if s_blinkStepsRemaining (task2 s) >? 0 then
    if u32 (now - s_blinkLastToggle (task2 s)) >=? BLINK_HALF_PERIOD_MS then
      let s := set_s_yellowLedOn (negb (s_yellowLedOn (task2 s))) s in
      let s := digitalWrite PIN_LED_YELLOW (if s_yellowLedOn (task2 s) then HIGH else LOW) s in
      let s := set_s_blinkLastToggle now s in
      let s := set_s_blinkStepsRemaining (u8 (s_blinkStepsRemaining (task2 s) - 1)) s in
      if s_blinkStepsRemaining (task2 s) =? 0 then
        let s := digitalWrite PIN_LED_YELLOW LOW s in
        set_s_yellowLedOn false s
      else s
    else s
  else s.

Definition task2StatisticsAndBlink (now : Z) (s : Lab) : Lab :=
  task2Advance now (task2Consume now s).

(** *** Task 3: periodic report *)

(** The local [avgMs]. *)
Definition avgMs (total totalMs : Z) : Z :=
  if total >? 0 then totalMs / total else 0.

Definition task3PeriodicReport (s : Lab) : Lab :=
  let total   := g_totalPresses (shared s) in
  let shorts  := g_shortPresses (shared s) in
  let longs   := g_longPresses (shared s) in
  let totalMs := g_totalDurationMs (shared s) in
  let avg     := avgMs total totalMs in
  let s := printf "\r\n===== [10s Report] =====\r\n" [] s in
  let s := printf "Total presses    : %lu\r\n" [total] s in
  let s := printf "Short presses    : %lu  (< %u ms)\r\n" [shorts; SHORT_PRESS_THRESHOLD_MS] s in
  let s := printf "Long presses     : %lu  (>= %u ms)\r\n" [longs; SHORT_PRESS_THRESHOLD_MS] s in
  let s := printf "Average duration : %lu ms\r\n" [avg] s in
  let s := printf "========================\r\n" [] s in
  let s := set_g_totalPresses 0 s in
  let s := set_g_shortPresses 0 s in
  let s := set_g_longPresses 0 s in
  set_g_totalDurationMs 0 s.

(** *** Start-up state and entry points *)

(** The static initialisers of the globals; no pin written, nothing printed. *)
Definition initialLab : Lab :=
  mkLab (mkShared false 0 false 0 0 0 0)
        (mkTask1Private BTN_IDLE 0 0 0 0 0)
        (mkTask2Private 0 0 false)
        [] [].

(** The pin writes and the banner of [lab2_1Setup] ([pinMode] and
    [stdioSerialInit] only configure the hardware). *)
Definition setupOutputs (s : Lab) : Lab :=
  let s := digitalWrite PIN_LED_GREEN LOW s in
  let s := digitalWrite PIN_LED_RED LOW s in
  let s := digitalWrite PIN_LED_YELLOW LOW s in
  let s := printf "\r\n" [] s in
  let s := printf "========================================\r\n" [] s in
  let s := printf "  Lab 2.1 — Button Press Monitor        \r\n" [] s in
  let s := printf "  Non-Preemptive Task Scheduler Demo    \r\n" [] s in
  let s := printf "  Tasks: 3 | Tick base: 10 ms           \r\n" [] s in
  let s := printf "========================================\r\n" [] s in
  let s := printf "GREEN  LED  = short press (< %u ms)\r\n" [SHORT_PRESS_THRESHOLD_MS] s in
  let s := printf "RED    LED  = long press  (>= %u ms)\r\n" [SHORT_PRESS_THRESHOLD_MS] s in
  let s := printf "YELLOW LED  = activity blink\r\n" [] s in
  let s := printf "Report interval: 10 seconds\r\n" [] s in
  printf "========================================\r\n\r\n" [] s.

(** The board: the millisecond clock, the level of the button pin, and the
    program state. *)
Record Board : Type := mkBoard {
  clock       : Z;
  buttonLevel : bool;
  lab         : Lab
}.

Definition millis (w : Board) : Z * Board := (clock w, w).

Definition digitalRead (w : Board) : bool := buttonLevel w.

(** The three task functions a [funcPtr] of [s_tasks] can point to. *)
Inductive TaskFn : Type :=
  | ptr_task1ButtonAndLed
  | ptr_task2StatisticsAndBlink
  | ptr_task3PeriodicReport.

(** Calling through a [funcPtr]: each task reads its own locals first. *)
Definition call (f : TaskFn) (w : Board) : Board :=
  match f with
  | ptr_task1ButtonAndLed =>
      let '(now, w) := millis w in
      let btnLow := Bool.eqb (digitalRead w) LOW in
      mkBoard (clock w) (buttonLevel w) (task1ButtonAndLed now btnLow (lab w))
  | ptr_task2StatisticsAndBlink =>
      let '(now, w) := millis w in
      mkBoard (clock w) (buttonLevel w) (task2StatisticsAndBlink now (lab w))
  | ptr_task3PeriodicReport =>
      mkBoard (clock w) (buttonLevel w) (task3PeriodicReport (lab w))
  end.

(** The task table [s_tasks]; [nextRun] is zero until [schedulerInit]. *)
Definition s_tasks : list (TaskScheduler.TaskContext_t TaskFn) :=
  [ TaskScheduler.mkTask ptr_task1ButtonAndLed 10 0 0;
    TaskScheduler.mkTask ptr_task2StatisticsAndBlink 50 5 0;
    TaskScheduler.mkTask ptr_task3PeriodicReport 10000 2000 0 ].

Definition lab2_1Setup (tasks : list (TaskScheduler.TaskContext_t TaskFn)) (w : Board)
  : list (TaskScheduler.TaskContext_t TaskFn) * Board :=
  let w := mkBoard (clock w) (buttonLevel w) (setupOutputs (lab w)) in
  TaskScheduler.schedulerInit millis tasks w.

Definition lab2_1Loop (tasks : list (TaskScheduler.TaskContext_t TaskFn)) (w : Board)
  : list (TaskScheduler.TaskContext_t TaskFn) * Board :=
  TaskScheduler.schedulerRun millis call tasks w.

(** *** The board over time

    What happens to the board: the clock moves on, the button changes its
    level, or [loop()] is called. *)
Inductive Event : Type :=
  | ClockAt (t : Z)
  | ButtonAt (level : bool)
  | Loop.

Definition occur (ev : Event)
           (st : list (TaskScheduler.TaskContext_t TaskFn) * Board)
  : list (TaskScheduler.TaskContext_t TaskFn) * Board :=
  match ev with
  | ClockAt t => (fst st, mkBoard (u32 t) (buttonLevel (snd st)) (lab (snd st)))
  | ButtonAt level => (fst st, mkBoard (clock (snd st)) level (lab (snd st)))
  | Loop => lab2_1Loop (fst st) (snd st)
  end.

Definition simulate (evs : list Event)
           (st : list (TaskScheduler.TaskContext_t TaskFn) * Board)
  : list (TaskScheduler.TaskContext_t TaskFn) * Board :=
  fold_left (fun st ev => occur ev st) evs st.

(** The board after [setup()], run at boot with the button released. *)
Definition booted : list (TaskScheduler.TaskContext_t TaskFn) * Board :=
  lab2_1Setup s_tasks (mkBoard 0 HIGH initialLab).

(** A scenario: every 10 ms from 0 to 600 ms the clock is read off, the
    button is LOW from 100 ms until 450 ms, and [loop()] is called twice. *)
Definition pressScenario : list Event :=
  flat_map (fun k : nat =>
              let t := 10 * Z.of_nat k in
              [ClockAt t; ButtonAt (negb ((100 <=? t) && (t <? 450))); Loop; Loop])
           (seq 0 61).

(** *** Executions

    A run of the program, seen from the tasks: which task function ran,
    with which readings of the clock and of the button. *)
Inductive Exec : Type :=
  | RunTask1 (now : Z) (btnLow : bool)
  | RunTask2 (now : Z)
  | RunTask3.

Definition exec (e : Exec) (s : Lab) : Lab :=
  match e with
  | RunTask1 now btnLow => task1ButtonAndLed now btnLow s
  | RunTask2 now => task2StatisticsAndBlink now s
  | RunTask3 => task3PeriodicReport s
  end.

Definition run (es : list Exec) (s : Lab) : Lab :=
  fold_left (fun s e => exec e s) es s.

(** Task 1 run once per sample [(t, btnLow)]: [t] is the time of the
    sample in milliseconds since boot, of which [millis()] returns the low
    32 bits. *)
Definition sampleExec (x : Z * bool) : Exec := RunTask1 (u32 (fst x)) (snd x).

Definition runTask1 (samples : list (Z * bool)) (s : Lab) : Lab :=
  run (map sampleExec samples) s.

(** The program state after each sample. *)
Fixpoint labPath (samples : list (Z * bool)) (s : Lab) : list Lab :=
  match samples with
  | [] => []
  | x :: rest =>
      let s' := exec (sampleExec x) s in
      s' :: labPath rest s'
  end.

(** Number of times an indicator LED (green or red) was switched on. *)
Definition indicatorOns (writes : list (Z * bool)) : nat :=
  length (List.filter
            (fun w => snd w && ((fst w =? PIN_LED_GREEN) || (fst w =? PIN_LED_RED)))
            writes).

(** The samples Task 1 takes at the times [ts] while the button is held at
    one level ([btnLow = true] is a pressed button). *)
Definition held (btnLow : bool) (ts : list Z) : list (Z * bool) :=
  map (fun t => (t, btnLow)) ts.

(** The shared globals after lines 234-236 published a press of
    [duration] ms. *)
Definition published (duration : Z) (g : Shared) : Shared :=
  mkShared true duration (duration <? SHORT_PRESS_THRESHOLD_MS)
           (g_totalPresses g) (g_shortPresses g) (g_longPresses g) (g_totalDurationMs g).

(** What the button FSM works on and what it publishes: its state and
    three timestamps, the shared globals, and the number of times an
    indicator LED was switched on. *)
Definition buttonView (s : Lab) : ButtonState_e * Z * Z * Z * Shared * nat :=
  (s_btnState (task1 s), s_debounceStart (task1 s), s_pressStart (task1 s),
   s_pressEnd (task1 s), shared s, indicatorOns (pinWrites s)).

(** Two program states that differ at most in [s_btnState] and
    [s_debounceStart]. *)
Definition sameButDebounce (s1 s2 : Lab) : Prop :=
  shared s1 = shared s2 /\
  s_pressStart (task1 s1) = s_pressStart (task1 s2) /\
  s_pressEnd (task1 s1) = s_pressEnd (task1 s2) /\
  s_greenLedOffAt (task1 s1) = s_greenLedOffAt (task1 s2) /\
  s_redLedOffAt (task1 s1) = s_redLedOffAt (task1 s2) /\
  task2 s1 = task2 s2 /\
  pinWrites s1 = pinWrites s2 /\
  stdoutLog s1 = stdoutLog s2.

(** Times that follow [t0] and one another at a distance of at least [d]
    ms (and of less than 2^32 ms, so that the clock tells them apart). *)
Fixpoint spaced (d t0 : Z) (ts : list Z) : Prop :=
  match ts with
  | [] => True
  | t :: rest => d <= t - t0 < 4294967296 /\ spaced d t rest
  end.

End Lab2_1.

(** ** C strings in char arrays *)

Module CString.

Definition NUL : ascii := Ascii.zero.

(** The string a char array holds: its bytes before the first NUL. *)
Fixpoint cstr (buf : list ascii) : list ascii :=
  match buf with
  | [] => []
  | c :: rest => if Ascii.eqb c NUL then [] else c :: cstr rest
  end.

Definition strlen (buf : list ascii) : Z := Z.of_nat (length (cstr buf)).

(** A string literal as the array it is stored in: its characters and the
    terminating NUL. *)
Definition literal (s : string) : list ascii := list_ascii_of_string s ++ [NUL].

(** [strncpy(dest, src, n)]: exactly [n] bytes of [dest] are written, the
    characters of [src] up to its NUL and then NULs. *)
Definition strncpy (dest src : list ascii) (n : nat) : list ascii :=
  take n (cstr src ++ replicate n NUL) ++ drop n dest.

Fixpoint bytes_eqb (a b : list ascii) : bool :=
  match a, b with
  | [], [] => true
  | x :: a', y :: b' => Ascii.eqb x y && bytes_eqb a' b'
  | _, _ => false
  end.

(** [strcmp(a, b) == 0]. *)
Definition strcmp_is_0 (a b : list ascii) : bool := bytes_eqb (cstr a) (cstr b).

End CString.

(** ** CommandParser: the serial commands of Lab 1.1 *)

Module CommandParser.
Import CString.

Inductive CommandType : Type :=
  | CMD_UNKNOWN
  | CMD_LED_ON
  | CMD_LED_OFF.

Definition PARSE_BUFFER_SIZE : Z := 64.

(** [isspace] of the C library, in the C locale: space, and the five
    control chars from tab to carriage return. *)
Definition isspace (c : ascii) : bool :=
  let n := N_of_ascii c in
  ((n =? 32) || ((9 <=? n) && (n <=? 13)))%N.

(** [tolower] of the C library, in the C locale. *)
Definition tolower (c : ascii) : ascii :=
  let n := N_of_ascii c in
  if ((65 <=? n) && (n <=? 90))%N then ascii_of_N (n + 32) else c.

(** The loop of [toLowerStr]:
    [while (src[i] != 0 && i < maxLen - 1) { dest[i] = tolower(src[i]); i++; }]
    from the current [i], for at most [fuel] iterations.  A read past the
    end of [src] gives NUL. *)
Fixpoint toLowerLoop (fuel : nat) (i : Z) (dest src : list ascii) (maxLen : Z)
  : Z * list ascii :=
  match fuel with
  | O => (i, dest)
  | S fuel' =>
      if negb (Ascii.eqb (nth (Z.to_nat i) src NUL) NUL) && (i <? u16 (maxLen - 1))
      then toLowerLoop fuel' (u16 (i + 1))
                       (<[Z.to_nat i := tolower (nth (Z.to_nat i) src NUL)]> dest)
                       src maxLen
      else (i, dest)
  end.

(** [toLowerStr]; the loop ends at the latest when [i] has passed the
    chars of [src]. *)
Definition toLowerStr (dest src : list ascii) (maxLen : Z) : list ascii :=
  let '(i, dest) := toLowerLoop (length src) 0 dest src maxLen in
  <[Z.to_nat i := NUL]> dest.

(** The first loop of [trimStr]:
    [while ( *src && isspace( *src)) src++;]
    gives the array from the char the pointer ends on. *)
Fixpoint skipSpaces (src : list ascii) : list ascii :=
  match src with
  | [] => []
  | c :: rest =>
      if negb (Ascii.eqb c NUL) && isspace c then skipSpaces rest else src
  end.

(** The second loop: [while (len > 0 && isspace(src[len - 1])) len--;]. *)
Fixpoint trimEnd (fuel : nat) (len : Z) (src : list ascii) : Z :=
  match fuel with
  | O => len
  | S fuel' =>
      if (len >? 0) && isspace (nth (Z.to_nat (len - 1)) src NUL)
      then trimEnd fuel' (len - 1) src
      else len
  end.

(** [trimStr]; the second loop runs at most [len] times. *)
Definition trimStr (dest src : list ascii) (maxLen : Z) : list ascii :=
  let src := skipSpaces src in
  let len := u16 (strlen src) in
  let len := trimEnd (Z.to_nat len) len src in
  let len := if len >=? maxLen then u16 (maxLen - 1) else len in
  let dest := strncpy dest src (Z.to_nat len) in
  <[Z.to_nat len := NUL]> dest.

(** [parseCommand]; [trimmed] and [lower] are what the two local arrays
    of [PARSE_BUFFER_SIZE] chars hold on entry. *)
Definition parseCommand (trimmed lower input : list ascii) : CommandType :=
  let trimmed := trimStr trimmed input PARSE_BUFFER_SIZE in
  let lower := toLowerStr lower trimmed PARSE_BUFFER_SIZE in
  if strcmp_is_0 lower (literal "led on") then CMD_LED_ON
  else if strcmp_is_0 lower (literal "led off") then CMD_LED_OFF
  else CMD_UNKNOWN.

(** The string of [input] is [word] in upper or lower case, with white
    space before and after it or not. *)
Definition spells (input : list ascii) (word : string) : Prop :=
  exists pre core post : list ascii,
    cstr input = pre ++ core ++ post /\
    Forall (fun c => isspace c = true) pre /\
    Forall (fun c => isspace c = true) post /\
    map tolower core = list_ascii_of_string word.

End CommandParser.

(** ** LockFSM: the keypad lock of Lab 1.2 *)

Module LockFsm.
Import CString.

Definition MAX_PWD_LEN : Z := 8.
Definition RESULT_DISPLAY_MS : Z := 2500.
Definition DEFAULT_PASSWORD : list ascii := literal "1234".

Inductive LockFSMState : Type :=
  | STATE_IDLE
  | STATE_MENU
  | STATE_LOCK_CONFIRM
  | STATE_UNLOCK_WAIT_STAR
  | STATE_UNLOCK_PWD
  | STATE_CHANGE_WAIT_STAR
  | STATE_CHANGE_OLD_PWD
  | STATE_CHANGE_NEW_PWD
  | STATE_STATUS_CONFIRM
  | STATE_SHOW_RESULT.

(** [(int)_state]. *)
Definition stateNumber (st : LockFSMState) : Z :=
  match st with
  | STATE_IDLE => 0
  | STATE_MENU => 1
  | STATE_LOCK_CONFIRM => 2
  | STATE_UNLOCK_WAIT_STAR => 3
  | STATE_UNLOCK_PWD => 4
  | STATE_CHANGE_WAIT_STAR => 5
  | STATE_CHANGE_OLD_PWD => 6
  | STATE_CHANGE_NEW_PWD => 7
  | STATE_STATUS_CONFIRM => 8
  | STATE_SHOW_RESULT => 9
  end.

(** [struct LockDisplay]: two arrays of 17 chars. *)
Record LockDisplay : Type := mkLockDisplay {
  line1 : list ascii;
  line2 : list ascii
}.

(** An argument of a [printf] call. *)
Inductive PrintfArg : Type :=
  | ArgInt (n : Z)
  | ArgChar (c : ascii)
  | ArgStr (s : list ascii).

(** The members of [class LockFSM], and [stdout]: the [printf] calls
    issued so far, newest first, each with its format string as written in
    the source. *)
Record LockFSM : Type := mkLockFSM {
  _state           : LockFSMState;
  _locked          : bool;
  _password        : list ascii;
  _inputBuffer     : list ascii;
  _oldPwdBuffer    : list ascii;
  _inputLen        : Z;
  _display         : LockDisplay;
  _displayChanged  : bool;
  _resultStartTime : Z;
  stdout           : list (string * list PrintfArg)
}.

Definition set_state (v : LockFSMState) (f : LockFSM) : LockFSM :=
  mkLockFSM v (_locked f) (_password f) (_inputBuffer f) (_oldPwdBuffer f) (_inputLen f)
            (_display f) (_displayChanged f) (_resultStartTime f) (stdout f).
Definition set_locked (v : bool) (f : LockFSM) : LockFSM :=
  mkLockFSM (_state f) v (_password f) (_inputBuffer f) (_oldPwdBuffer f) (_inputLen f)
            (_display f) (_displayChanged f) (_resultStartTime f) (stdout f).
Definition set_password (v : list ascii) (f : LockFSM) : LockFSM :=
  mkLockFSM (_state f) (_locked f) v (_inputBuffer f) (_oldPwdBuffer f) (_inputLen f)
            (_display f) (_displayChanged f) (_resultStartTime f) (stdout f).
Definition set_inputBuffer (v : list ascii) (f : LockFSM) : LockFSM :=
  mkLockFSM (_state f) (_locked f) (_password f) v (_oldPwdBuffer f) (_inputLen f)
            (_display f) (_displayChanged f) (_resultStartTime f) (stdout f).
Definition set_oldPwdBuffer (v : list ascii) (f : LockFSM) : LockFSM :=
  mkLockFSM (_state f) (_locked f) (_password f) (_inputBuffer f) v (_inputLen f)
            (_display f) (_displayChanged f) (_resultStartTime f) (stdout f).
Definition set_inputLen (v : Z) (f : LockFSM) : LockFSM :=
  mkLockFSM (_state f) (_locked f) (_password f) (_inputBuffer f) (_oldPwdBuffer f) v
            (_display f) (_displayChanged f) (_resultStartTime f) (stdout f).
Definition set_display (v : LockDisplay) (f : LockFSM) : LockFSM :=
  mkLockFSM (_state f) (_locked f) (_password f) (_inputBuffer f) (_oldPwdBuffer f)
            (_inputLen f) v (_displayChanged f) (_resultStartTime f) (stdout f).
Definition set_displayChanged (v : bool) (f : LockFSM) : LockFSM :=
  mkLockFSM (_state f) (_locked f) (_password f) (_inputBuffer f) (_oldPwdBuffer f)
            (_inputLen f) (_display f) v (_resultStartTime f) (stdout f).
Definition set_resultStartTime (v : Z) (f : LockFSM) : LockFSM :=
  mkLockFSM (_state f) (_locked f) (_password f) (_inputBuffer f) (_oldPwdBuffer f)
            (_inputLen f) (_display f) (_displayChanged f) v (stdout f).

Definition printf (fmt : string) (args : list PrintfArg) (f : LockFSM) : LockFSM :=
  mkLockFSM (_state f) (_locked f) (_password f) (_inputBuffer f) (_oldPwdBuffer f)
            (_inputLen f) (_display f) (_displayChanged f) (_resultStartTime f)
            ((fmt, args) :: stdout f).

(** [clearInput]. *)
Definition clearInput (f : LockFSM) : LockFSM :=
  let f := set_inputBuffer (<[0%nat := NUL]> (_inputBuffer f)) f in
  set_inputLen 0 f.

(** [appendDigit]. *)
Definition appendDigit (digit : ascii) (f : LockFSM) : LockFSM :=
  if _inputLen f <? MAX_PWD_LEN then
    let f := set_inputBuffer (<[Z.to_nat (_inputLen f) := digit]> (_inputBuffer f)) f in
    let f := set_inputLen (u8 (_inputLen f + 1)) f in
    set_inputBuffer (<[Z.to_nat (_inputLen f) := NUL]> (_inputBuffer f)) f
  else f.

(** The first loop of the mask blocks of [updateDisplay]:
    [for (i = 0; i < _inputLen && i < 16; i++) mask[i] = '*';]
    from the current [i], for at most [fuel] iterations. *)
Fixpoint maskStars (fuel : nat) (i inputLen : Z) (mask : list ascii) : Z * list ascii :=
  match fuel with
  | O => (i, mask)
  | S fuel' =>
      if (i <? inputLen) && (i <? 16)
      then maskStars fuel' (i + 1) inputLen (<[Z.to_nat i := "*"%char]> mask)
      else (i, mask)
  end.

(** The second loop: [for (; i < 16; i++) mask[i] = ' ';]. *)
Fixpoint maskSpaces (fuel : nat) (i : Z) (mask : list ascii) : Z * list ascii :=
  match fuel with
  | O => (i, mask)
  | S fuel' =>
      if i <? 16
      then maskSpaces fuel' (i + 1) (<[Z.to_nat i := " "%char]> mask)
      else (i, mask)
  end.

(** The local array [mask] as the three password states build it; [junk]
    is what the 17 bytes of the array hold on entry.  Sixteen iterations
    exhaust either loop. *)
Definition buildMask (junk : list ascii) (inputLen : Z) : list ascii :=
  let '(i, mask) := maskStars 16 0 inputLen junk in
  let '(_, mask) := maskSpaces 16 i mask in
  <[16%nat := NUL]> mask.

Definition showLines (l1 l2 : list ascii) (f : LockFSM) : LockFSM :=
  let d := _display f in
  let d := mkLockDisplay (strncpy (line1 d) l1 17) (line2 d) in
  let d := mkLockDisplay (line1 d) (strncpy (line2 d) l2 17) in
  set_display d f.

(** [updateDisplay]. *)
Definition updateDisplay (f : LockFSM) : LockFSM :=
  let f := set_displayChanged true f in
  match _state f with
  | STATE_IDLE => showLines (literal "  Smart Lock    ") (literal "Press * to start") f
  | STATE_MENU => showLines (literal "0:Lock 1:Unlock ") (literal "2:ChPwd 3:Status") f
  | STATE_LOCK_CONFIRM => showLines (literal "CMD: Lock       ") (literal "Press # to exec ") f
  | STATE_UNLOCK_WAIT_STAR =>
      showLines (literal "CMD: Unlock     ") (literal "Press * for pwd ") f
  | STATE_UNLOCK_PWD =>
      showLines (literal "Enter password: ") (buildMask (replicate 17 NUL) (_inputLen f)) f
  | STATE_CHANGE_WAIT_STAR =>
      showLines (literal "CMD: Change Pwd ") (literal "Press * for pwd ") f
  | STATE_CHANGE_OLD_PWD =>
      showLines (literal "Old password:   ") (buildMask (replicate 17 NUL) (_inputLen f)) f
  | STATE_CHANGE_NEW_PWD =>
      showLines (literal "New password:   ") (buildMask (replicate 17 NUL) (_inputLen f)) f
  | STATE_STATUS_CONFIRM =>
      showLines (literal "CMD: Status     ") (literal "Press # to exec ") f
  | STATE_SHOW_RESULT => f
  end.

(** [setState]. *)
Definition setState (newState : LockFSMState) (f : LockFSM) : LockFSM :=
  let f := set_state newState f in
  let f := printf "[FSM] -> state %d\r\n" [ArgInt (stateNumber (_state f))] f in
  updateDisplay f.

(** [setResult]; [now] is what [millis()] returns. *)
Definition setResult (now : Z) (l1 l2 : list ascii) (f : LockFSM) : LockFSM :=
  let f := set_state STATE_SHOW_RESULT f in
  let f := set_resultStartTime now f in
  let d := _display f in
  let d := mkLockDisplay (<[16%nat := NUL]> (strncpy (line1 d) l1 16)) (line2 d) in
  let d := mkLockDisplay (line1 d) (<[16%nat := NUL]> (strncpy (line2 d) l2 16)) in
  let f := set_display d f in
  let f := set_displayChanged true f in
  printf "[FSM] Result: %s | %s\r\n"
         [ArgStr (cstr (line1 (_display f))); ArgStr (cstr (line2 (_display f)))] f.

(** The object after static zero-initialisation and the constructor. *)
Definition constructed : LockFSM :=
  mkLockFSM STATE_IDLE true
            (<[8%nat := NUL]> (strncpy (replicate 9 NUL) DEFAULT_PASSWORD 8))
            (<[0%nat := NUL]> (replicate 9 NUL))
            (<[0%nat := NUL]> (replicate 9 NUL))
            0
            (mkLockDisplay (replicate 17 NUL) (replicate 17 NUL))
            true 0 [].

(** [init]. *)
Definition init (f : LockFSM) : LockFSM :=
  let f := set_state STATE_IDLE f in
  let f := set_locked true f in
  let f := set_password (strncpy (_password f) DEFAULT_PASSWORD 8) f in
  let f := set_password (<[8%nat := NUL]> (_password f)) f in
  let f := clearInput f in
  let f := set_oldPwdBuffer (<[0%nat := NUL]> (_oldPwdBuffer f)) f in
  let f := updateDisplay f in
  printf "[FSM] Initialized. Default password: %s\r\n" [ArgStr (cstr DEFAULT_PASSWORD)] f.

(** [key >= '0' && key <= '9']. *)
Definition isDigitKey (key : ascii) : bool :=
  Ascii.leb "0" key && Ascii.leb key "9".

(** [processKey]; [now] is what [millis()] returns if [setResult] is
    reached. *)
Definition processKey (now : Z) (key : ascii) (f : LockFSM) : LockFSM :=
  if Ascii.eqb key NUL then f else
  let f := printf "[KEY] '%c' in state %d\r\n"
                  [ArgChar key; ArgInt (stateNumber (_state f))] f in
  match _state f with
  | STATE_IDLE =>
      if Ascii.eqb key "*" then setState STATE_MENU f else f
  | STATE_MENU =>
      if Ascii.eqb key "0" then setState STATE_LOCK_CONFIRM f
      else if Ascii.eqb key "1" then setState STATE_UNLOCK_WAIT_STAR f
      else if Ascii.eqb key "2" then setState STATE_CHANGE_WAIT_STAR f
      else if Ascii.eqb key "3" then setState STATE_STATUS_CONFIRM f
      else if Ascii.eqb key "*" then updateDisplay f
      else setResult now (literal "Invalid option!") (literal "Press * to start") f
  | STATE_LOCK_CONFIRM =>
      if Ascii.eqb key "#" then
        let f := set_locked true f in
        let f := printf "[LOCK] Locked unconditionally\r\n" [] f in
        setResult now (literal "Lock Activated") (literal "Door is LOCKED") f
      else if Ascii.eqb key "*" then setState STATE_MENU f
      else f
  | STATE_UNLOCK_WAIT_STAR =>
      if Ascii.eqb key "*" then
        let f := clearInput f in
        setState STATE_UNLOCK_PWD f
      else if Ascii.eqb key "#" then
        setResult now (literal "Error: need pwd") (literal "Use *1*pwd#") f
      else f
  | STATE_UNLOCK_PWD =>
      if isDigitKey key then
        let f := appendDigit key f in
        updateDisplay f
      else if Ascii.eqb key "#" then
        let f :=
          if strcmp_is_0 (_inputBuffer f) (_password f) then
            let f := set_locked false f in
            let f := printf "[LOCK] Unlocked successfully\r\n" [] f in
            setResult now (literal "Access Granted!") (literal "Door is OPEN") f
          else
            let f := printf "[LOCK] Wrong password entered\r\n" [] f in
            setResult now (literal "Wrong Password!") (literal "Access Denied") f in
        clearInput f
      else if Ascii.eqb key "*" then
        let f := clearInput f in
        updateDisplay f
      else f
  | STATE_CHANGE_WAIT_STAR =>
      if Ascii.eqb key "*" then
        let f := clearInput f in
        setState STATE_CHANGE_OLD_PWD f
      else if Ascii.eqb key "#" then
        setResult now (literal "Error: need pwd") (literal "Use *2*old*new#") f
      else f
  | STATE_CHANGE_OLD_PWD =>
      if isDigitKey key then
        let f := appendDigit key f in
        updateDisplay f
      else if Ascii.eqb key "*" then
        let f := set_oldPwdBuffer (strncpy (_oldPwdBuffer f) (_inputBuffer f) 8) f in
        let f := set_oldPwdBuffer (<[8%nat := NUL]> (_oldPwdBuffer f)) f in
        let f := clearInput f in
        setState STATE_CHANGE_NEW_PWD f
      else if Ascii.eqb key "#" then
        setResult now (literal "Error: need new") (literal "Use *2*old*new#") f
      else f
  | STATE_CHANGE_NEW_PWD =>
      if isDigitKey key then
        let f := appendDigit key f in
        updateDisplay f
      else if Ascii.eqb key "#" then
        let f :=
          if strcmp_is_0 (_oldPwdBuffer f) (_password f) then
            if _inputLen f >? 0 then
              let f := set_password (strncpy (_password f) (_inputBuffer f) 8) f in
              let f := set_password (<[8%nat := NUL]> (_password f)) f in
              let f := printf "[LOCK] Password changed to: %s\r\n"
                              [ArgStr (cstr (_password f))] f in
              setResult now (literal "Pwd Changed!") (literal "Successfully") f
            else
              setResult now (literal "Error: empty pw") (literal "Try again") f
          else
            let f := printf "[LOCK] Wrong old password\r\n" [] f in
            setResult now (literal "Wrong Old Pwd!") (literal "Change Denied") f in
        let f := clearInput f in
        set_oldPwdBuffer (<[0%nat := NUL]> (_oldPwdBuffer f)) f
      else if Ascii.eqb key "*" then
        let f := clearInput f in
        updateDisplay f
      else f
  | STATE_STATUS_CONFIRM =>
      if Ascii.eqb key "#" then
        if _locked f then
          let f := printf "[LOCK] Status: LOCKED\r\n" [] f in
          setResult now (literal "Lock Status:") (literal "** LOCKED **") f
        else
          let f := printf "[LOCK] Status: UNLOCKED\r\n" [] f in
          setResult now (literal "Lock Status:") (literal "** UNLOCKED **") f
      else if Ascii.eqb key "*" then setState STATE_MENU f
      else f
  | STATE_SHOW_RESULT =>
      if Ascii.eqb key "*" then setState STATE_MENU f
      else setState STATE_IDLE f
  end.

(** [update]; [now] is what [millis()] returns. *)
Definition update (now : Z) (f : LockFSM) : LockFSM :=
  match _state f with
  | STATE_SHOW_RESULT =>
      if u32 (now - _resultStartTime f) >=? RESULT_DISPLAY_MS
      then setState STATE_IDLE f
      else f
  | _ => f
  end.

Definition getState (f : LockFSM) : LockFSMState := _state f.
Definition isLocked (f : LockFSM) : bool := _locked f.
Definition getDisplay (f : LockFSM) : LockDisplay := _display f.
Definition displayChanged (f : LockFSM) : bool := _displayChanged f.
Definition clearDisplayChanged (f : LockFSM) : LockFSM := set_displayChanged false f.

(** Keys pressed one after the other, all within the same millisecond
    [now]. *)
Definition processKeys (now : Z) (keys : list ascii) (f : LockFSM) : LockFSM :=
  fold_left (fun f key => processKey now key f) keys f.

(** What happens to the FSM over time: a key is processed or [update] is
    called, with the clock at [now]. *)
Inductive Call : Type :=
  | ProcessKey (now : Z) (key : ascii)
  | Update (now : Z).

Definition perform (c : Call) (f : LockFSM) : LockFSM :=
  match c with
  | ProcessKey now key => processKey now key f
  | Update now => update now f
  end.

Definition performAll (cs : list Call) (f : LockFSM) : LockFSM :=
  fold_left (fun f c => perform c f) cs f.

(** A buffer of [MAX_PWD_LEN + 1] chars holding the digits [ds] and their
    terminating NUL. *)
Definition holds (buf : list ascii) (ds : list ascii) : Prop :=
  length buf = 9%nat /\
  (length ds <= 8)%nat /\
  Forall (fun c => isDigitKey c = true) ds /\
  take (length ds) buf = ds /\
  buf !! length ds = Some NUL.

(** The representation invariant of the object. *)
Definition wellFormed (f : LockFSM) : Prop :=
  (exists pwd, holds (_password f) pwd /\ pwd <> []) /\
  (exists ds, holds (_inputBuffer f) ds /\ _inputLen f = Z.of_nat (length ds)) /\
  (exists old, holds (_oldPwdBuffer f) old) /\
  length (line1 (_display f)) = 17%nat /\
  length (line2 (_display f)) = 17%nat.

(** The password-entry states. *)
Definition entersPassword (st : LockFSMState) : bool :=
  match st with
  | STATE_UNLOCK_PWD | STATE_CHANGE_OLD_PWD | STATE_CHANGE_NEW_PWD => true
  | _ => false
  end.

(** What a well-formed object remembers of the dialogue: its state, the
    lock, and the strings held by its three buffers. *)
Definition remembers (f : LockFSM) (st : LockFSMState) (locked : bool)
           (pwd input old : list ascii) : Prop :=
  wellFormed f /\
  _state f = st /\
  _locked f = locked /\
  cstr (_password f) = pwd /\
  cstr (_inputBuffer f) = input /\
  cstr (_oldPwdBuffer f) = old.

(** The two strings of the display. *)
Definition shows (f : LockFSM) (l1 l2 : string) : Prop :=
  cstr (line1 (_display f)) = list_ascii_of_string l1 /\
  cstr (line2 (_display f)) = list_ascii_of_string l2.

(** In a password-entry state the second line of the display is one star
    per digit entered, padded with spaces to 16 chars. *)
Definition maskShown (f : LockFSM) : Prop :=
  entersPassword (_state f) = true ->
  cstr (line2 (_display f))
  = replicate (Z.to_nat (_inputLen f)) "*"%char
    ++ replicate (16 - Z.to_nat (_inputLen f)) " "%char.

End LockFsm.

(** ** Led: one LED on a GPIO pin *)

Module LedDriver.

(** The members of [class Led]. *)
Record Led : Type := mkLed {
  ledPin : Z;
  state  : bool
}.

(** The methods act on the object and on the [digitalWrite] calls issued
    so far, newest first ([pinMode] only configures the pin). *)
Definition Led_new (pin : Z) : Led := mkLed pin false.

Definition init (l : Led) (writes : list (Z * bool)) : Led * list (Z * bool) :=
  (mkLed (ledPin l) false, (ledPin l, false) :: writes).

Definition turnOn (l : Led) (writes : list (Z * bool)) : Led * list (Z * bool) :=
  (mkLed (ledPin l) true, (ledPin l, true) :: writes).

Definition turnOff (l : Led) (writes : list (Z * bool)) : Led * list (Z * bool) :=
  (mkLed (ledPin l) false, (ledPin l, false) :: writes).

Definition toggle (l : Led) (writes : list (Z * bool)) : Led * list (Z * bool) :=
  if state l then turnOff l writes else turnOn l writes.

Definition isOn (l : Led) : bool := state l.

(** The methods that can be called on an initialised LED. *)
Inductive LedCall : Type :=
  | CallInit
  | CallTurnOn
  | CallTurnOff
  | CallToggle.

Definition perform (c : LedCall) (lw : Led * list (Z * bool)) : Led * list (Z * bool) :=
  match c with
  | CallInit => init (fst lw) (snd lw)
  | CallTurnOn => turnOn (fst lw) (snd lw)
  | CallTurnOff => turnOff (fst lw) (snd lw)
  | CallToggle => toggle (fst lw) (snd lw)
  end.

Definition performAll (cs : list LedCall) (lw : Led * list (Z * bool))
  : Led * list (Z * bool) :=
  fold_left (fun lw c => perform c lw) cs lw.

End LedDriver.

(** ** Lab 1.1: LED control over the serial line *)

Module Lab1_1.
Import CString.

Definition LED_PIN : Z := 7.

(** The module-level objects of lab1_1_main.cpp, the [digitalWrite] calls
    and the [printf] calls issued so far, newest first. *)
Record App : Type := mkApp {
  led         : LedDriver.Led;
  inputBuffer : list ascii;
  pinWrites   : list (Z * bool);
  stdout      : list string
}.

Definition constructed : App :=
  mkApp (LedDriver.Led_new LED_PIN) (replicate 64 NUL) [] [].

Definition printf (fmt : string) (a : App) : App :=
  mkApp (led a) (inputBuffer a) (pinWrites a) (fmt :: stdout a).

Definition with_led (f : LedDriver.Led -> list (Z * bool) -> LedDriver.Led * list (Z * bool))
           (a : App) : App :=
  let '(l, w) := f (led a) (pinWrites a) in
  mkApp l (inputBuffer a) w (stdout a).

Definition set_inputBuffer (v : list ascii) (a : App) : App :=
  mkApp (led a) v (pinWrites a) (stdout a).

(** [lab1_1Setup] ([stdioSerialInit] only configures the UART). *)
Definition lab1_1Setup (a : App) : App :=
  let a := with_led LedDriver.init a in
  let a := printf "\r\n" a in
  let a := printf "========================================\r\n" a in
  let a := printf "  Lab 1.1: Serial LED Control (STDIO)\r\n" a in
  let a := printf "  MCU: Arduino Mega 2560\r\n" a in
  let a := printf "========================================\r\n" a in
  let a := printf "\r\n" a in
  let a := printf "Available commands:\r\n" a in
  let a := printf "  led on   - Turn the LED ON\r\n" a in
  let a := printf "  led off  - Turn the LED OFF\r\n" a in
  printf "\r\n" a.

(** [lab1_1Loop]; [line] is what [fgets] does: [None] if it returns NULL,
    and otherwise the line it stored in [inputBuffer]; [trimmed] and
    [lower] are what the local arrays of [parseCommand] hold on entry. *)
Definition lab1_1Loop (line : option (list ascii)) (trimmed lower : list ascii) (a : App)
  : App :=
  let a := printf "> " a in
  match line with
  | Some buf =>
      let a := set_inputBuffer buf a in
      match CommandParser.parseCommand trimmed lower (inputBuffer a) with
      | CommandParser.CMD_LED_ON =>
          let a := with_led LedDriver.turnOn a in
          printf "[OK] LED is now ON.\r\n" a
      | CommandParser.CMD_LED_OFF =>
          let a := with_led LedDriver.turnOff a in
          printf "[OK] LED is now OFF.\r\n" a
      | CommandParser.CMD_UNKNOWN =>
          let a := printf "[ERROR] Unknown command.\r\n" a in
          printf "Use 'led on' or 'led off'.\r\n" a
      end
  | None => a
  end.

End Lab1_1.

(** ** LcdDisplay: line output on the 16x2 LCD *)

Module Lcd.
Import CString.

(** The calls made on the LiquidCrystal_I2C object [_lcd]. *)
Inductive LcdOp : Type :=
  | OpInit
  | OpBacklight
  | OpNoBacklight
  | OpClear
  | OpSetCursor (col row : Z)
  | OpWrite (c : ascii)
  | OpPrint (text : list ascii).

(** The members [_cols] and [_rows] of [class LcdDisplay]; the calls on
    [_lcd] are kept in a list, newest first. *)
Record LcdDisplay : Type := mkLcdDisplay {
  _cols : Z;
  _rows : Z
}.

Definition init (ops : list LcdOp) : list LcdOp :=
  OpClear :: OpBacklight :: OpInit :: ops.

Definition clear (ops : list LcdOp) : list LcdOp := OpClear :: ops.

Definition setCursor (col row : Z) (ops : list LcdOp) : list LcdOp :=
  OpSetCursor col row :: ops.

Definition print (text : list ascii) (ops : list LcdOp) : list LcdOp :=
  OpPrint (cstr text) :: ops.

(** [printLine]: [len] is a [uint8_t], both loops run over a range of
    column indices. *)
Definition printLine (d : LcdDisplay) (row : Z) (text : list ascii) (ops : list LcdOp)
  : list LcdOp :=
  let ops := OpSetCursor 0 row :: ops in
  let len := u8 (strlen text) in
  let len := if len >? _cols d then _cols d else len in
  let ops :=
    fold_left (fun ops (i : nat) => OpWrite (nth i text NUL) :: ops)
              (seq 0 (Z.to_nat len)) ops in
  fold_left (fun ops (_ : nat) => OpWrite " "%char :: ops)
            (seq (Z.to_nat len) (Z.to_nat (_cols d) - Z.to_nat len)) ops.

Definition showTwoLines (d : LcdDisplay) (l1 l2 : list ascii) (ops : list LcdOp)
  : list LcdOp :=
  printLine d 1 l2 (printLine d 0 l1 ops).

Definition backlight (on : bool) (ops : list LcdOp) : list LcdOp :=
  if on then OpBacklight :: ops else OpNoBacklight :: ops.

(** The characters written by the [OpWrite] calls of a list of calls,
    oldest first. *)
Definition written (ops : list LcdOp) : list ascii :=
  flat_map (fun op => match op with OpWrite c => [c] | _ => [] end) (rev ops).

End Lcd.

(** ** Lab 1.2: the lock application *)

Module Lab1_2.
Import CString.

Definition RED_LED_PIN : Z := 7.
Definition GREEN_LED_PIN : Z := 6.
Definition LCD_COLS : Z := 16.
Definition LCD_ROWS : Z := 2.

(** The module-level objects of lab1_2_main.cpp and the two output
    channels they drive. *)
Record App : Type := mkApp {
  redLed     : LedDriver.Led;
  greenLed   : LedDriver.Led;
  lcd        : Lcd.LcdDisplay;
  lockFSM    : LockFsm.LockFSM;
  prevLocked : bool;
  pinWrites  : list (Z * bool);
  lcdOps     : list Lcd.LcdOp
}.

(** The objects as their constructors and initialisers leave them. *)
Definition constructed : App :=
  mkApp (LedDriver.Led_new RED_LED_PIN) (LedDriver.Led_new GREEN_LED_PIN)
        (Lcd.mkLcdDisplay LCD_COLS LCD_ROWS) LockFsm.constructed true [] [].

Definition with_redLed (f : LedDriver.Led -> list (Z * bool) -> LedDriver.Led * list (Z * bool))
           (a : App) : App :=
  let '(l, w) := f (redLed a) (pinWrites a) in
  mkApp l (greenLed a) (lcd a) (lockFSM a) (prevLocked a) w (lcdOps a).

Definition with_greenLed
           (f : LedDriver.Led -> list (Z * bool) -> LedDriver.Led * list (Z * bool))
           (a : App) : App :=
  let '(l, w) := f (greenLed a) (pinWrites a) in
  mkApp (redLed a) l (lcd a) (lockFSM a) (prevLocked a) w (lcdOps a).

Definition with_lockFSM (f : LockFsm.LockFSM -> LockFsm.LockFSM) (a : App) : App :=
  mkApp (redLed a) (greenLed a) (lcd a) (f (lockFSM a)) (prevLocked a)
        (pinWrites a) (lcdOps a).

Definition with_lcdOps (f : list Lcd.LcdOp -> list Lcd.LcdOp) (a : App) : App :=
  mkApp (redLed a) (greenLed a) (lcd a) (lockFSM a) (prevLocked a)
        (pinWrites a) (f (lcdOps a)).

Definition set_prevLocked (v : bool) (a : App) : App :=
  mkApp (redLed a) (greenLed a) (lcd a) (lockFSM a) v (pinWrites a) (lcdOps a).

Definition printf (fmt : string) (a : App) : App :=
  with_lockFSM (LockFsm.printf fmt []) a.

(** Steps 3 of [lab1_2Loop], also done once by [lab1_2Setup]:
    [lcd.showTwoLines(disp.line1, disp.line2); lockFSM.clearDisplayChanged();]. *)
Definition refreshLcd (a : App) : App :=
  let disp := LockFsm.getDisplay (lockFSM a) in
  let a := with_lcdOps (Lcd.showTwoLines (lcd a) (LockFsm.line1 disp) (LockFsm.line2 disp)) a in
  with_lockFSM LockFsm.clearDisplayChanged a.

(** [lab1_2Setup] ([stdioSerialInit] and [keypad.init] only configure
    their devices). *)
Definition lab1_2Setup (a : App) : App :=
  let a := with_lcdOps Lcd.init a in
  let a := with_redLed LedDriver.init a in
  let a := with_greenLed LedDriver.init a in
  let a := with_lockFSM LockFsm.init a in
  let a := with_redLed LedDriver.turnOn a in
  let a := with_greenLed LedDriver.turnOff a in
  let a := set_prevLocked true a in
  let a := refreshLcd a in
  let a := printf "\r\n" a in
  let a := printf "========================================\r\n" a in
  let a := printf "  Lab 1.2: LCD + Keypad Lock System\r\n" a in
  let a := printf "  MCU: Arduino Mega 2560\r\n" a in
  let a := printf "========================================\r\n" a in
  let a := printf "\r\n" a in
  let a := printf "Commands (via keypad):\r\n" a in
  let a := printf "  *0#          - Lock\r\n" a in
  let a := printf "  *1*pwd#      - Unlock with password\r\n" a in
  let a := printf "  *2*old*new#  - Change password\r\n" a in
  let a := printf "  *3#          - Show lock status\r\n" a in
  let a := printf "\r\n" a in
  let a := printf "Default password: 1234\r\n" a in
  printf "\r\n" a.

(** [lab1_2Loop]; [key] is what [keypad.getKey()] returns (NUL for no
    key), [now1] what [millis()] returns inside [processKey] and [now2]
    inside [update]. *)
Definition lab1_2Loop (key : ascii) (now1 now2 : Z) (a : App) : App :=
  let a := if Ascii.eqb key NUL then a
           else with_lockFSM (LockFsm.processKey now1 key) a in
  let a := with_lockFSM (LockFsm.update now2) a in
  let a := if LockFsm.displayChanged (lockFSM a) then refreshLcd a else a in
  let currentLocked := LockFsm.isLocked (lockFSM a) in
  if Bool.eqb currentLocked (prevLocked a) then a
  else
    let a :=
      if currentLocked then
        let a := with_redLed LedDriver.turnOn a in
        let a := with_greenLed LedDriver.turnOff a in
        printf "[LED] Red ON, Green OFF (LOCKED)\r\n" a
      else
        let a := with_redLed LedDriver.turnOff a in
        let a := with_greenLed LedDriver.turnOn a in
        printf "[LED] Red OFF, Green ON (UNLOCKED)\r\n" a in
    set_prevLocked currentLocked a.

(** One iteration of [loop()] per element: the key and the two clock
    readings. *)
Definition loops (inputs : list (ascii * Z * Z)) (a : App) : App :=
  fold_left (fun a x => lab1_2Loop (fst (fst x)) (snd (fst x)) (snd x) a) inputs a.

(** The outputs agree with the lock: the LED objects and their pins show
    whether it is engaged, [prevLocked] is up to date, no display change is
    pending, and the last thing sent to the LCD is the display of the
    FSM. *)
Definition inSync (a : App) : Prop :=
  LedDriver.ledPin (redLed a) = RED_LED_PIN /\
  LedDriver.ledPin (greenLed a) = GREEN_LED_PIN /\
  LedDriver.isOn (redLed a) = LockFsm.isLocked (lockFSM a) /\
  LedDriver.isOn (greenLed a) = negb (LockFsm.isLocked (lockFSM a)) /\
  Lab2_1.levelIn RED_LED_PIN (pinWrites a) = LockFsm.isLocked (lockFSM a) /\
  Lab2_1.levelIn GREEN_LED_PIN (pinWrites a) = negb (LockFsm.isLocked (lockFSM a)) /\
  prevLocked a = LockFsm.isLocked (lockFSM a) /\
  LockFsm.displayChanged (lockFSM a) = false /\
  exists ops,
    lcdOps a = Lcd.showTwoLines (lcd a)
                 (LockFsm.line1 (LockFsm.getDisplay (lockFSM a)))
                 (LockFsm.line2 (LockFsm.getDisplay (lockFSM a))) ops.

End Lab1_2.

(** * Properties *)

(** ** Machine integers *)

Lemma u32_range (x : Z) : 0 <= u32 x < 4294967296.
Proof. unfold u32. apply Z.mod_pos_bound. lia. Qed.

Lemma u32_small (x : Z) : 0 <= x < 4294967296 -> u32 x = x.
Proof. intros H. unfold u32. apply Z.mod_small. exact H. Qed.

(** Unsigned subtraction of two clock readings gives the true elapsed time,
    also across a wrap of the clock, as long as less than 2^32 ms passed. *)
Lemma u32_elapsed (a b : Z) :
  0 <= a - b < 4294967296 -> u32 (u32 a - u32 b) = a - b.
Proof.
  intros H. unfold u32.
  rewrite <- Zminus_mod. apply Z.mod_small. exact H.
Qed.

Lemma to_int8_small (i : Z) : 0 <= i < 128 -> to_int8 i = i.
Proof. intros H. unfold to_int8. destruct (Z.ltb_spec i 128); lia. Qed.

Lemma to_int8_nonneg (i : Z) : 0 <= i < 256 -> 0 <= to_int8 i -> i < 128 /\ to_int8 i = i.
Proof. unfold to_int8. intros H. destruct (Z.ltb_spec i 128); lia. Qed.

(** ** The scheduler *)

Section SchedulerProps.
Import TaskScheduler.
Context {Fn World : Type}.
Variable millis : World -> Z * World.
Variable call : Fn -> World -> World.

Local Abbreviation Task := (TaskContext_t Fn).

(** A head that is not selected, because it is not due or not before
    [earliest], shifts the outcome of the rest of the loop by one index. *)
Lemma scan_skip (now : Z) (t : Task) (rest : list Task) (i c e : Z) :
  (nextRun t <= now -> e <= nextRun t) ->
  ((forall t', In t' rest -> nextRun t' <= now -> e <= nextRun t') /\
   scan now rest (i + 1) c e = (c, e)
   \/
   exists (k : nat) (t2 : Task),
     rest !! k = Some t2 /\ nextRun t2 <= now /\ nextRun t2 < e /\
     scan now rest (i + 1) c e = (to_int8 (i + 1 + Z.of_nat k), nextRun t2) /\
     forall (j : nat) (t' : Task),
       rest !! j = Some t' -> nextRun t' <= now ->
       nextRun t2 <= nextRun t' /\ ((j < k)%nat -> nextRun t2 < nextRun t')) ->
  ((forall t', In t' (t :: rest) -> nextRun t' <= now -> e <= nextRun t') /\
   scan now rest (i + 1) c e = (c, e)
   \/
   exists (k : nat) (t2 : Task),
     (t :: rest) !! k = Some t2 /\ nextRun t2 <= now /\ nextRun t2 < e /\
     scan now rest (i + 1) c e = (to_int8 (i + Z.of_nat k), nextRun t2) /\
     forall (j : nat) (t' : Task),
       (t :: rest) !! j = Some t' -> nextRun t' <= now ->
       nextRun t2 <= nextRun t' /\ ((j < k)%nat -> nextRun t2 < nextRun t')).
Proof.
  intros Hhead [[Hnone Heq] | (k & t2 & Hk & Hd & Hlt2 & Heq & Hmin)].
  - left. split; [| exact Heq].
    intros t' [<- | Hin] Hd; [apply Hhead; exact Hd | apply Hnone; assumption].
  - right. exists (S k), t2.
    split; [exact Hk |]. split; [assumption |]. split; [assumption |].
    split; [rewrite Heq; do 2 f_equal; lia |].
    intros [| j] t' Hj Hd'; cbn in Hj.
    + injection Hj as <-. specialize (Hhead Hd'). lia.
    + destruct (Hmin j t' Hj Hd') as [Hle Hstrict].
      split; [assumption | intros; apply Hstrict; lia].
Qed.

(** What the selection loop computes: either no task of the scanned part
    is due with a deadline below [earliest], and [chosen] and [earliest]
    are returned as they were; or it ends on the first task, at index
    [i + k], that has the smallest deadline among the due ones. *)
Lemma scan_spec (now : Z) (ts : list Task) :
  forall i c e,
    ((forall t, In t ts -> nextRun t <= now -> e <= nextRun t) /\
     scan now ts i c e = (c, e))
    \/
    (exists (k : nat) (t : Task),
        ts !! k = Some t /\ nextRun t <= now /\ nextRun t < e /\
        scan now ts i c e = (to_int8 (i + Z.of_nat k), nextRun t) /\
        forall (j : nat) (t' : Task),
          ts !! j = Some t' -> nextRun t' <= now ->
          nextRun t <= nextRun t' /\ ((j < k)%nat -> nextRun t < nextRun t')).
Proof.
  induction ts as [| t rest IH]; intros i c e.
  - left. split; [intros t [] | reflexivity].
  - cbn [scan].
    destruct (Z.geb_spec now (nextRun t)) as [Hdue | Hnot];
      [destruct (Z.ltb_spec (nextRun t) e) as [Hlt | Hge] |].
    + (* the head becomes the candidate *)
      right.
      destruct (IH (i + 1) (to_int8 i) (nextRun t))
        as [[Hnone Heq] | (k & t2 & Hk & Hd & Hlt2 & Heq & Hmin)].
      * exists 0%nat, t.
        split; [reflexivity |]. split; [lia |]. split; [assumption |].
        split; [rewrite Heq; do 2 f_equal; lia |].
        intros [| j] t' Hj Hd'; cbn in Hj.
        -- injection Hj as <-. lia.
        -- split; [| lia]. apply Hnone; [| assumption].
           apply list_elem_of_In. eapply list_elem_of_lookup_2. exact Hj.
      * exists (S k), t2.
        split; [exact Hk |]. split; [assumption |]. split; [lia |].
        split; [rewrite Heq; do 2 f_equal; lia |].
        intros [| j] t' Hj Hd'; cbn in Hj.
        -- injection Hj as <-. lia.
        -- destruct (Hmin j t' Hj Hd') as [Hle Hstrict].
           split; [assumption | intros; apply Hstrict; lia].
    + (* due, but not before the current candidate *)
      apply (scan_skip now t rest i c e); [lia | apply IH].
    + (* not due *)
      apply (scan_skip now t rest i c e); [lia | apply IH].
Qed.

(** The loop as [schedulerRun] starts it, over a table that a [uint8_t]
    count can index. *)
Lemma chosenAfterScan_cases (now : Z) (tasks : list Task) :
  (forall t, In t tasks -> nextRun t <= now -> UINT32_MAX <= nextRun t) /\
  chosenAfterScan now tasks = -1
  \/
  exists (k : nat) (t : Task),
    tasks !! k = Some t /\ nextRun t <= now /\ nextRun t < UINT32_MAX /\
    chosenAfterScan now tasks = to_int8 (Z.of_nat k) /\
    forall (j : nat) (t' : Task),
      tasks !! j = Some t' -> nextRun t' <= now ->
      nextRun t <= nextRun t' /\ ((j < k)%nat -> nextRun t < nextRun t').
Proof.
  unfold chosenAfterScan.
  destruct (scan_spec now tasks 0 (-1) UINT32_MAX)
    as [[Hnone Heq] | (k & t & Hk & Hd & Hlt & Heq & Hmin)].
  - left. rewrite Heq. split; [exact Hnone | reflexivity].
  - right. exists k, t. rewrite Heq. cbn [fst].
    repeat (split; [assumption |]). split; [reflexivity | exact Hmin].
Qed.

(** [schedulerRun] when the loop leaves [chosen] negative. *)
Lemma schedulerRun_none (tasks : list Task) (w w1 : World) (now : Z) :
  millis w = (now, w1) ->
  chosenAfterScan now tasks < 0 ->
  schedulerRun millis call tasks w = (tasks, w1).
Proof.
  intros Hm Hc. unfold schedulerRun. rewrite Hm.
  destruct (Z.geb_spec (chosenAfterScan now tasks) 0); [lia | reflexivity].
Qed.

(** [schedulerRun] when the loop leaves [chosen] on task [k]. *)
Lemma schedulerRun_some (tasks : list Task) (w w1 w3 w4 : World)
      (now t1 t2 : Z) (k : nat) (t : Task) :
  millis w = (now, w1) ->
  chosenAfterScan now tasks = Z.of_nat k ->
  tasks !! k = Some t ->
  millis (call (funcPtr t) w1) = (t1, w3) ->
  millis w3 = (t2, w4) ->
  schedulerRun millis call tasks w =
    if u32 (nextRun t + period t) <? t1
    then (<[k := set_nextRun (u32 (t2 + period t)) t]> tasks, w4)
    else (<[k := set_nextRun (u32 (nextRun t + period t)) t]> tasks, w3).
Proof.
  intros Hm Hc Hk H1 H2. unfold schedulerRun. rewrite Hm, Hc.
  destruct (Z.geb_spec (Z.of_nat k) 0); [| lia].
  rewrite Nat2Z.id, Hk, H1.
  destruct (u32 (nextRun t + period t) <? t1); [rewrite H2 |]; reflexivity.
Qed.

(** X1. Earliest deadline first, where the loop gets it right: the table has
    at most 128 entries and no due task has the deadline [UINT32_MAX].
    Then a call with no due task changes nothing beyond reading the clock
    once, and a call with a due task runs exactly one task function, the
    one of the first task with the smallest deadline among the due ones,
    followed by one or two more clock reads. *)
Lemma schedulerRun_earliest_deadline_first
      (tasks : list Task) (w w1 : World) (now : Z) :
  (length tasks <= 128)%nat ->
  (forall t, In t tasks -> nextRun t <= now -> nextRun t < UINT32_MAX) ->
  millis w = (now, w1) ->
  ((forall t, In t tasks -> now < nextRun t) /\
   schedulerRun millis call tasks w = (tasks, w1))
  \/
  (exists (k : nat) (t : Task),
      tasks !! k = Some t /\ nextRun t <= now /\
      chosenAfterScan now tasks = Z.of_nat k /\
      (forall (j : nat) (t' : Task),
          tasks !! j = Some t' -> nextRun t' <= now ->
          nextRun t <= nextRun t' /\ ((j < k)%nat -> nextRun t < nextRun t')) /\
      exists n : nat,
        (n = 1 \/ n = 2)%nat /\
        snd (schedulerRun millis call tasks w) =
          Nat.iter n (fun x => snd (millis x)) (call (funcPtr t) w1)).
Proof.
  intros Hlen Hmax Hm.
  destruct (chosenAfterScan_cases now tasks)
    as [[Hnone Hc] | (k & t & Hk & Hd & Hlt & Hc & Hmin)].
  - left. split.
    + intros t Hin. destruct (Z.lt_ge_cases now (nextRun t)) as [|Hd]; [assumption |].
      apply Z.ge_le_iff in Hd. specialize (Hnone t Hin ltac:(lia)).
      specialize (Hmax t Hin ltac:(lia)). lia.
    + apply (schedulerRun_none tasks w w1 now Hm). lia.
  - right. exists k, t.
    pose proof (lookup_lt_Some _ _ _ Hk) as Hklt.
    rewrite to_int8_small in Hc by lia.
    repeat (split; [assumption |]).
    destruct (millis (call (funcPtr t) w1)) as [t1 w3] eqn:H1.
    destruct (millis w3) as [t2 w4] eqn:H2.
    rewrite (schedulerRun_some tasks w w1 w3 w4 now t1 t2 k t Hm Hc Hk H1 H2).
    destruct (u32 (nextRun t + period t) <? t1).
    + exists 2%nat. split; [right; reflexivity |]. cbn. rewrite H1. cbn. rewrite H2. reflexivity.
    + exists 1%nat. split; [left; reflexivity |]. cbn. rewrite H1. reflexivity.
Qed.

(** C10. [schedulerRun] writes no field of the task table but the
    [nextRun] of the task it selected: across any call the [funcPtr],
    [period] and [offset] columns of the table are unchanged, every entry
    other than the selected one is unchanged, and a call that selects no
    task, as when none is due, leaves the whole table as it was. *)
Theorem schedulerRun_writes_only_selected_nextRun
        (tasks : list Task) (w : World) :
  let res := fst (schedulerRun millis call tasks w) in
  let chosen := chosenAfterScan (fst (millis w)) tasks in
  funcPtr <$> res = funcPtr <$> tasks /\
  period <$> res = period <$> tasks /\
  offset <$> res = offset <$> tasks /\
  (forall i : nat, Z.of_nat i <> chosen -> res !! i = tasks !! i) /\
  (chosen < 0 -> res = tasks) /\
  ((forall t, In t tasks -> fst (millis w) < nextRun t) -> res = tasks).
Proof.
  cbn zeta.
  assert (Hnone : (forall t, In t tasks -> fst (millis w) < nextRun t) ->
                  chosenAfterScan (fst (millis w)) tasks < 0).
  { intros Hnot.
    destruct (chosenAfterScan_cases (fst (millis w)) tasks)
      as [[_ ->] | (k & t & Hk & Hd & _)]; [lia |].
    apply list_elem_of_lookup_2, list_elem_of_In in Hk.
    specialize (Hnot t Hk). lia. }
  revert Hnone. unfold schedulerRun.
  destruct (millis w) as [now w1]. cbn [fst]. intros Hnone.
  destruct (Z.geb_spec (chosenAfterScan now tasks) 0) as [Hge | Hlt];
    [| cbn [fst]; repeat split; reflexivity].
  destruct (tasks !! Z.to_nat (chosenAfterScan now tasks)) as [t |] eqn:Hk;
    [| cbn [fst]; repeat split; reflexivity].
  assert (Hcol : forall (A : Type) (f : Task -> A) (v : Z),
             f (set_nextRun v t) = f t ->
             f <$> <[Z.to_nat (chosenAfterScan now tasks) := set_nextRun v t]> tasks
             = f <$> tasks).
  { intros A f v Hf. rewrite list_fmap_insert, Hf.
    apply list_insert_id. rewrite list_lookup_fmap, Hk. reflexivity. }
  assert (Hother : forall (v : Z) (i : nat),
             Z.of_nat i <> chosenAfterScan now tasks ->
             <[Z.to_nat (chosenAfterScan now tasks) := set_nextRun v t]> tasks !! i
             = tasks !! i).
  { intros v i Hi. apply list_lookup_insert_ne. lia. }
  destruct (millis (call (funcPtr t) w1)) as [t1 w3].
  destruct (u32 (nextRun t + period t) <? t1);
    [destruct (millis w3) as [t2 w4] |]; cbn [fst];
    (split; [apply Hcol; reflexivity |]);
    (split; [apply Hcol; reflexivity |]);
    (split; [apply Hcol; reflexivity |]);
    (split; [intros i Hi; apply Hother; exact Hi |]);
    (split; [lia | intros Hnot; specialize (Hnone Hnot); lia]).
Qed.

(** Over a table that a [uint8_t] count can index, a non-negative
    [chosen] is the index of a task: the subscript [tasks[chosen]] is in
    range. *)
Lemma chosen_in_range (tasks : list Task) (now : Z) :
  (length tasks <= 255)%nat ->
  0 <= chosenAfterScan now tasks ->
  exists t : Task, tasks !! Z.to_nat (chosenAfterScan now tasks) = Some t.
Proof.
  intros Hlen Hc.
  destruct (chosenAfterScan_cases now tasks)
    as [[_ Hc'] | (k & t & Hk & _ & _ & Hc' & _)]; [lia |].
  pose proof (lookup_lt_Some _ _ _ Hk) as Hlt.
  rewrite Hc' in Hc |- *.
  destruct (to_int8_nonneg (Z.of_nat k)) as [_ ->]; [lia | exact Hc |].
  rewrite Nat2Z.id. exists t. exact Hk.
Qed.

(** The task [schedulerRun] executes is due. *)
Lemma chosen_task_is_due (tasks : list Task) (now : Z) (k : nat) (t : Task) :
  (length tasks <= 255)%nat ->
  chosenAfterScan now tasks = Z.of_nat k ->
  tasks !! k = Some t ->
  nextRun t <= now.
Proof.
  intros Hlen Hc Hk.
  destruct (chosenAfterScan_cases now tasks)
    as [[_ Hc'] | (k' & t' & Hk' & Hd & _ & Hc' & _)]; [lia |].
  pose proof (lookup_lt_Some _ _ _ Hk') as Hlt.
  destruct (to_int8_nonneg (Z.of_nat k')) as [_ Heq]; [lia | lia |].
  assert (k' = k) as -> by lia.
  rewrite Hk in Hk'. injection Hk' as <-. exact Hd.
Qed.

(** C2, amended.  Let [t] be the task a call of [schedulerRun] executes,
    [t1] the clock reading compared with the advanced deadline after the
    action ran, and [t2] the reading taken next for the re-anchoring.  The
    deadline of [t] after the call is [nextRun + period], or [t2 + period]
    when [nextRun + period] is behind [t1], both sums taken modulo 2^32.
    If [nextRun + period] does not exceed [UINT32_MAX] and, in case of
    re-anchoring, [t2 + period] does not either and the clock has not
    wrapped since the call started, then the sums are exact and the
    deadline is not smaller than before the call. *)
Theorem schedulerRun_deadline_advances
        (tasks : list Task) (w w1 w3 w4 : World) (now t1 t2 : Z)
        (k : nat) (t : Task) :
  (length tasks <= 255)%nat ->
  millis w = (now, w1) ->
  chosenAfterScan now tasks = Z.of_nat k ->
  tasks !! k = Some t ->
  millis (call (funcPtr t) w1) = (t1, w3) ->
  millis w3 = (t2, w4) ->
  exists t' : Task,
    fst (schedulerRun millis call tasks w) !! k = Some t' /\
    nextRun t' = (if u32 (nextRun t + period t) <? t1
                  then u32 (t2 + period t) else u32 (nextRun t + period t)) /\
    (0 <= nextRun t -> 0 <= period t ->
     nextRun t + period t <= UINT32_MAX ->
     (nextRun t + period t < t1 -> now <= t2 /\ t2 + period t <= UINT32_MAX) ->
     nextRun t' = (if nextRun t + period t <? t1
                   then t2 + period t else nextRun t + period t) /\
     nextRun t <= nextRun t').
Proof.
  intros Hlen Hm Hc Hk H1 H2.
  pose proof (chosen_task_is_due tasks now k t Hlen Hc Hk) as Hdue.
  pose proof (lookup_lt_Some _ _ _ Hk) as Hlt.
  rewrite (schedulerRun_some tasks w w1 w3 w4 now t1 t2 k t Hm Hc Hk H1 H2).
  exists (set_nextRun (if u32 (nextRun t + period t) <? t1
                       then u32 (t2 + period t) else u32 (nextRun t + period t)) t).
  split.
  { destruct (u32 (nextRun t + period t) <? t1); cbn [fst];
      apply list_lookup_insert_eq; exact Hlt. }
  split; [reflexivity |].
  intros Hn Hp Hsum Hanchor. cbn [nextRun set_nextRun].
  unfold UINT32_MAX in *.
  rewrite (u32_small (nextRun t + period t)) by lia.
  destruct (Z.ltb_spec (nextRun t + period t) t1) as [Hbehind | _].
  - destruct (Hanchor Hbehind) as [Hmono Hsum2].
    rewrite u32_small by lia. split; [reflexivity | lia].
  - split; [reflexivity | lia].
Qed.

End SchedulerProps.

(** The Lab 2.1 table initialised at 1000 ms and run at 1050 ms: Task 1 is
    the most overdue task, it runs, and its deadline, which 1000 + 10 would
    leave behind the clock, is re-anchored to 1050 + 10. *)
Lemma schedulerRun_deadline_advances_witness :
  let tasks := fst (TaskScheduler.schedulerInit Lab2_1.millis Lab2_1.s_tasks
                      (Lab2_1.mkBoard 1000 true Lab2_1.initialLab)) in
  exists t' : TaskScheduler.TaskContext_t Lab2_1.TaskFn,
    fst (TaskScheduler.schedulerRun Lab2_1.millis Lab2_1.call tasks
           (Lab2_1.mkBoard 1050 true Lab2_1.initialLab)) !! 0%nat = Some t' /\
    TaskScheduler.nextRun t' = 1060 /\
    1000 <= TaskScheduler.nextRun t'.
Proof.
  intros tasks.
  destruct (schedulerRun_deadline_advances Lab2_1.millis Lab2_1.call tasks
              (Lab2_1.mkBoard 1050 true Lab2_1.initialLab)
              (Lab2_1.mkBoard 1050 true Lab2_1.initialLab)
              (Lab2_1.mkBoard 1050 true Lab2_1.initialLab)
              (Lab2_1.mkBoard 1050 true Lab2_1.initialLab)
              1050 1050 1050 0
              (TaskScheduler.mkTask Lab2_1.ptr_task1ButtonAndLed 10 0 1000))
    as (t' & Hk & _ & Hexact); try reflexivity.
  - vm_compute. lia.
  - exists t'. split; [exact Hk |].
    destruct Hexact as [Heq Hle].
    + vm_compute. congruence.
    + vm_compute. congruence.
    + vm_compute. congruence.
    + intros _. split; vm_compute; congruence.
    + split; [exact Heq | exact Hle].
Defined.

(** C2 as stated fails when the deadline arithmetic wraps.  Task 1 of
    Lab 2.1 is due at 4294967290 and runs at that very millisecond: the
    advanced deadline wraps to 4, is found behind the clock, and is
    re-anchored to 4294967290 + 10, which wraps to 4 again.  The deadline
    after the call is smaller than before it, and it is neither the sum
    4294967300 of deadline and period nor the sum of clock and period. *)
Lemma schedulerRun_deadline_wraps :
  let tasks := [TaskScheduler.mkTask Lab2_1.ptr_task1ButtonAndLed 10 0 4294967290] in
  let w := Lab2_1.mkBoard 4294967290 true Lab2_1.initialLab in
  TaskScheduler.chosenAfterScan 4294967290 tasks = 0 /\
  TaskScheduler.nextRun <$>
    fst (TaskScheduler.schedulerRun Lab2_1.millis Lab2_1.call tasks w) !! 0%nat = Some 4 /\
  4 < 4294967290 /\ 4 <> 4294967290 + 10.
Proof. vm_compute. repeat split; congruence. Qed.

(** C1 fails on two inputs.  (a) A table of one task, due exactly at
    [UINT32_MAX]: the test [nextRun < earliest] against the initial
    [earliest = UINT32_MAX] rejects it, [chosen] stays -1 and no task
    function is called.  (b) A table of 129 tasks of which only the last,
    at index 128, is due: [chosen = i] stores 128 into an [int8_t], the
    test [chosen >= 0] fails and no task function is called.  The world
    here is the list of task functions called so far. *)
Theorem schedulerRun_skips_due_task :
  let clockAt (now : Z) := fun w : list nat => (now, w) in
  let record := fun (f : nat) (w : list nat) => f :: w in
  (let tasks := [TaskScheduler.mkTask 1%nat 10 0 4294967295] in
   TaskScheduler.nextRun (TaskScheduler.mkTask 1%nat 10 0 4294967295) <= 4294967295 /\
   TaskScheduler.schedulerRun (clockAt 4294967295) record tasks [] = (tasks, []))
  /\
  (let tasks := replicate 128 (TaskScheduler.mkTask 1%nat 10 0 1000)
                ++ [TaskScheduler.mkTask 2%nat 10 0 5] in
   TaskScheduler.nextRun (TaskScheduler.mkTask 2%nat 10 0 5) <= 500 /\
   (length tasks <= 255)%nat /\
   TaskScheduler.chosenAfterScan 500 tasks = -128 /\
   TaskScheduler.schedulerRun (clockAt 500) record tasks [] = (tasks, [])).
Proof.
  cbn zeta. split.
  - split; [vm_compute; congruence | reflexivity].
  - split; [vm_compute; congruence |].
    split; [vm_compute; lia |].
    split; vm_compute; reflexivity.
Qed.

(** ** Lab 2.1 *)

Import Lab2_1.

(** Evaluates the projections of a state built by assignments to the
    globals and by the output primitives, leaving everything else folded. *)
Ltac lab_simpl :=
  cbn
    [set_g_newPress set_g_lastPressDuration set_g_isShortPress
     set_g_totalPresses set_g_shortPresses set_g_longPresses set_g_totalDurationMs
     set_s_btnState set_s_debounceStart set_s_pressStart set_s_pressEnd
     set_s_greenLedOffAt set_s_redLedOffAt
     set_s_blinkStepsRemaining set_s_blinkLastToggle set_s_yellowLedOn
     with_shared with_task1 with_task2 digitalWrite printf
     shared task1 task2 pinWrites stdoutLog
     g_newPress g_lastPressDuration g_isShortPress
     g_totalPresses g_shortPresses g_longPresses g_totalDurationMs
     s_btnState s_debounceStart s_pressStart s_pressEnd s_greenLedOffAt s_redLedOffAt
     s_blinkStepsRemaining s_blinkLastToggle s_yellowLedOn] in *.

(** *** Task 3 *)

(** C6. A run of the Reporter prints the six lines of the report, the
    average being [totalDurationMs / totalPresses] by integer division, 0
    when there was no press (and 300 for 3 presses of 900 ms in all), and
    leaves the four counters at 0. *)
Theorem task3PeriodicReport_average_and_reset (s : Lab) :
  let total := g_totalPresses (shared s) in
  let totalMs := g_totalDurationMs (shared s) in
  let s' := task3PeriodicReport s in
  exists avg : Z,
    stdoutLog s' =
      [ ("========================\r\n", []);
        ("Average duration : %lu ms\r\n", [avg]);
        ("Long presses     : %lu  (>= %u ms)\r\n", [g_longPresses (shared s); 500]);
        ("Short presses    : %lu  (< %u ms)\r\n", [g_shortPresses (shared s); 500]);
        ("Total presses    : %lu\r\n", [total]);
        ("\r\n===== [10s Report] =====\r\n", []) ]%string ++ stdoutLog s /\
    (total = 0 -> avg = 0) /\
    (0 < total -> avg = totalMs / total) /\
    (total = 3 -> totalMs = 900 -> avg = 300) /\
    g_totalPresses (shared s') = 0 /\
    g_shortPresses (shared s') = 0 /\
    g_longPresses (shared s') = 0 /\
    g_totalDurationMs (shared s') = 0.
Proof.
  cbn zeta.
  exists (avgMs (g_totalPresses (shared s)) (g_totalDurationMs (shared s))).
  unfold task3PeriodicReport. lab_simpl.
  split; [reflexivity |].
  unfold avgMs.
  split; [intros ->; reflexivity |].
  split; [intros H; destruct (Z.gtb_spec (g_totalPresses (shared s)) 0); [reflexivity | lia] |].
  split; [intros -> ->; reflexivity |].
  repeat split.
Qed.

(** *** Task 1 *)

(** The auto-off section touches the two indicator timers and writes [LOW]
    to the indicator pins, nothing else. *)
Lemma task1AutoOff_frame (now : Z) (s : Lab) :
  let s' := task1AutoOff now s in
  shared s' = shared s /\
  s_btnState (task1 s') = s_btnState (task1 s) /\
  s_debounceStart (task1 s') = s_debounceStart (task1 s) /\
  s_pressStart (task1 s') = s_pressStart (task1 s) /\
  s_pressEnd (task1 s') = s_pressEnd (task1 s) /\
  task2 s' = task2 s /\
  stdoutLog s' = stdoutLog s /\
  indicatorOns (pinWrites s') = indicatorOns (pinWrites s) /\
  pinLevel PIN_LED_YELLOW s' = pinLevel PIN_LED_YELLOW s.
Proof.
  cbn zeta. unfold task1AutoOff, pinLevel.
  destruct (negb (s_greenLedOffAt (task1 s) =? 0) && (now >=? s_greenLedOffAt (task1 s)));
    lab_simpl;
    destruct (negb (s_redLedOffAt (task1 s) =? 0) && (now >=? s_redLedOffAt (task1 s)));
    lab_simpl; repeat split.
Qed.

(** An armed indicator timer that lies ahead of [now] survives the
    auto-off section, and so does the level of its pin. *)
Lemma task1AutoOff_keeps_green (now : Z) (s : Lab) :
  now < s_greenLedOffAt (task1 s) ->
  s_greenLedOffAt (task1 (task1AutoOff now s)) = s_greenLedOffAt (task1 s) /\
  pinLevel PIN_LED_GREEN (task1AutoOff now s) = pinLevel PIN_LED_GREEN s.
Proof.
  intros H. unfold task1AutoOff, pinLevel.
  destruct (Z.geb_spec now (s_greenLedOffAt (task1 s))); [lia |].
  rewrite andb_false_r.
  destruct (negb (s_redLedOffAt (task1 s) =? 0) && (now >=? s_redLedOffAt (task1 s)));
    lab_simpl; split; reflexivity.
Qed.

Lemma task1AutoOff_keeps_red (now : Z) (s : Lab) :
  now < s_redLedOffAt (task1 s) ->
  s_redLedOffAt (task1 (task1AutoOff now s)) = s_redLedOffAt (task1 s) /\
  pinLevel PIN_LED_RED (task1AutoOff now s) = pinLevel PIN_LED_RED s.
Proof.
  intros H. unfold task1AutoOff, pinLevel.
  destruct (negb (s_greenLedOffAt (task1 s) =? 0) && (now >=? s_greenLedOffAt (task1 s)));
    lab_simpl;
    (destruct (Z.geb_spec now (s_redLedOffAt (task1 s))); [lia |]);
    rewrite andb_false_r; lab_simpl; split; reflexivity.
Qed.

(** C5. When the FSM confirms a release, the press is published with
    [duration = s_pressEnd - s_pressStart] and classified short exactly
    when [duration < 500]; a short press switches the green LED on and
    arms its timer with [now + 1500], a long one (from 500 ms on) switches
    the red LED on and arms its timer with [now + 1500].  As long as
    [now + 1500] does not wrap, the LED is on and the timer armed at the
    end of the tick as well. *)
Theorem press_confirmed_classification (now : Z) (s : Lab) :
  s_btnState (task1 s) = BTN_DEBOUNCE_UP ->
  DEBOUNCE_MS <= u32 (now - s_debounceStart (task1 s)) ->
  let duration := u32 (s_pressEnd (task1 s) - s_pressStart (task1 s)) in
  let s' := task1Fsm now false s in
  let s'' := task1ButtonAndLed now false s in
  g_newPress (shared s') = true /\
  g_lastPressDuration (shared s') = duration /\
  g_isShortPress (shared s') = (duration <? SHORT_PRESS_THRESHOLD_MS) /\
  (duration < SHORT_PRESS_THRESHOLD_MS ->
     g_isShortPress (shared s') = true /\
     pinWrites s' = (PIN_LED_GREEN, HIGH) :: pinWrites s /\
     s_greenLedOffAt (task1 s') = u32 (now + LED_INDICATOR_DURATION_MS) /\
     s_redLedOffAt (task1 s') = s_redLedOffAt (task1 s)) /\
  (SHORT_PRESS_THRESHOLD_MS <= duration ->
     g_isShortPress (shared s') = false /\
     pinWrites s' = (PIN_LED_RED, HIGH) :: pinWrites s /\
     s_redLedOffAt (task1 s') = u32 (now + LED_INDICATOR_DURATION_MS) /\
     s_greenLedOffAt (task1 s') = s_greenLedOffAt (task1 s)) /\
  (0 <= now -> now + LED_INDICATOR_DURATION_MS <= UINT32_MAX ->
     (duration < SHORT_PRESS_THRESHOLD_MS ->
        pinLevel PIN_LED_GREEN s'' = HIGH /\
        s_greenLedOffAt (task1 s'') = now + LED_INDICATOR_DURATION_MS) /\
     (SHORT_PRESS_THRESHOLD_MS <= duration ->
        pinLevel PIN_LED_RED s'' = HIGH /\
        s_redLedOffAt (task1 s'') = now + LED_INDICATOR_DURATION_MS)).
Proof.
  intros Hst Hdeb. cbn zeta.
  assert (Hfsm : task1Fsm now false s =
    let duration := u32 (s_pressEnd (task1 s) - s_pressStart (task1 s)) in
    let s1 := set_g_newPress true
                (set_g_isShortPress (duration <? SHORT_PRESS_THRESHOLD_MS)
                   (set_g_lastPressDuration duration s)) in
    set_s_btnState BTN_IDLE
      (if duration <? SHORT_PRESS_THRESHOLD_MS
       then set_s_greenLedOffAt (u32 (now + LED_INDICATOR_DURATION_MS))
              (digitalWrite PIN_LED_GREEN HIGH s1)
       else set_s_redLedOffAt (u32 (now + LED_INDICATOR_DURATION_MS))
              (digitalWrite PIN_LED_RED HIGH s1))).
  { unfold task1Fsm. rewrite Hst.
    destruct (Z.geb_spec (u32 (now - s_debounceStart (task1 s))) DEBOUNCE_MS); [| lia].
    reflexivity. }
  unfold task1ButtonAndLed. rewrite Hfsm. clear Hfsm. cbn zeta.
  set (duration := u32 (s_pressEnd (task1 s) - s_pressStart (task1 s))).
  destruct (Z.ltb_spec duration SHORT_PRESS_THRESHOLD_MS) as [Hshort | Hlong].
  - split; [reflexivity |]. split; [reflexivity |]. split; [reflexivity |].
    split; [intros _; repeat split |]. split; [intros; lia |].
    intros H0 Hmax. split; [intros _ | intros; lia].
    match goal with |- context [task1AutoOff now ?x] =>
      destruct (task1AutoOff_keeps_green now x) as [Hoff Hlvl] end.
    { lab_simpl. unfold UINT32_MAX, LED_INDICATOR_DURATION_MS in *.
      rewrite u32_small; lia. }
    rewrite Hoff, Hlvl. lab_simpl. unfold UINT32_MAX, LED_INDICATOR_DURATION_MS in *.
    split; [reflexivity | apply u32_small; lia].
  - split; [reflexivity |]. split; [reflexivity |]. split; [reflexivity |].
    split; [intros; lia |]. split; [intros _; repeat split |].
    intros H0 Hmax. split; [intros; lia | intros _].
    match goal with |- context [task1AutoOff now ?x] =>
      destruct (task1AutoOff_keeps_red now x) as [Hoff Hlvl] end.
    { lab_simpl. unfold UINT32_MAX, LED_INDICATOR_DURATION_MS in *.
      rewrite u32_small; lia. }
    rewrite Hoff, Hlvl. lab_simpl. unfold UINT32_MAX, LED_INDICATOR_DURATION_MS in *.
    split; [reflexivity | apply u32_small; lia].
Qed.

(** A release confirmed 50 ms after a press of exactly 500 ms. *)
Lemma press_confirmed_classification_witness :
  let s := mkLab (mkShared false 0 false 0 0 0 0)
                 (mkTask1Private BTN_DEBOUNCE_UP 1700 1200 1700 0 0)
                 (mkTask2Private 0 0 false) [] [] in
  g_newPress (shared (task1Fsm 1750 false s)) = true /\
  g_lastPressDuration (shared (task1Fsm 1750 false s)) = 500 /\
  g_isShortPress (shared (task1Fsm 1750 false s)) = false /\
  pinLevel PIN_LED_RED (task1ButtonAndLed 1750 false s) = HIGH /\
  s_redLedOffAt (task1 (task1ButtonAndLed 1750 false s)) = 3250.
Proof.
  intros s.
  destruct (press_confirmed_classification 1750 s) as (H1 & H2 & H3 & _ & _ & H6).
  - reflexivity.
  - vm_compute. congruence.
  - destruct H6 as [_ H6]; [lia | vm_compute; congruence |].
    destruct H6 as [H7 H8]; [vm_compute; congruence |].
    repeat split; assumption.
Defined.

(** The two sides of the classification boundary. *)
Example press_of_threshold_is_long :
  let s := task1ButtonAndLed 1750 false
             (mkLab (mkShared false 0 false 0 0 0 0)
                    (mkTask1Private BTN_DEBOUNCE_UP 1700 1200 1700 0 0)
                    (mkTask2Private 0 0 false) [] []) in
  shared s = mkShared true 500 false 0 0 0 0 /\
  pinWrites s = [(PIN_LED_RED, HIGH)] /\
  s_redLedOffAt (task1 s) = 3250 /\ s_greenLedOffAt (task1 s) = 0.
Proof. vm_compute. repeat split. Qed.

Example press_below_threshold_is_short :
  let s := task1ButtonAndLed 1750 false
             (mkLab (mkShared false 0 false 0 0 0 0)
                    (mkTask1Private BTN_DEBOUNCE_UP 1700 1201 1700 0 0)
                    (mkTask2Private 0 0 false) [] []) in
  shared s = mkShared true 499 true 0 0 0 0 /\
  pinWrites s = [(PIN_LED_GREEN, HIGH)] /\
  s_greenLedOffAt (task1 s) = 3250 /\ s_redLedOffAt (task1 s) = 0.
Proof. vm_compute. repeat split. Qed.

(** Beyond 2^32 - 1500 ms the sum [now + 1500] wraps: the timer is armed
    with a time already past and the auto-off section of the same tick
    switches the LED off again. *)
Example indicator_timer_wraps :
  let s := task1ButtonAndLed 4294966296 false
             (mkLab (mkShared false 0 false 0 0 0 0)
                    (mkTask1Private BTN_DEBOUNCE_UP 4294966000 4294965900 4294966000 0 0)
                    (mkTask2Private 0 0 false) [] []) in
  shared s = mkShared true 100 true 0 0 0 0 /\
  pinWrites s = [(PIN_LED_GREEN, LOW); (PIN_LED_GREEN, HIGH)] /\
  s_greenLedOffAt (task1 s) = 0.
Proof. vm_compute. repeat split. Qed.

(** **** The button FSM, transition by transition *)

Lemma task1_view (now : Z) (b : bool) (s : Lab) :
  buttonView (task1ButtonAndLed now b s) = buttonView (task1Fsm now b s).
Proof.
  unfold task1ButtonAndLed, buttonView.
  destruct (task1AutoOff_frame now (task1Fsm now b s))
    as (-> & -> & -> & -> & -> & _ & _ & -> & _).
  reflexivity.
Qed.

(** Opens a hypothesis on the view of [s] and the FSM step on it. *)
Ltac view_step Hv :=
  rewrite task1_view; unfold buttonView in *;
  injection Hv as Hst Hd Hp He Hsh Hn;
  unfold task1Fsm.

Section ButtonTransitions.
Variables (now d p e : Z) (sh : Shared) (n : nat) (s : Lab).

Lemma idle_low :
  buttonView s = (BTN_IDLE, d, p, e, sh, n) ->
  buttonView (task1ButtonAndLed now true s) = (BTN_DEBOUNCE_DOWN, now, p, e, sh, n).
Proof. intros Hv. view_step Hv. rewrite Hst. cbn [negb]. lab_simpl. congruence. Qed.

Lemma idle_high :
  buttonView s = (BTN_IDLE, d, p, e, sh, n) ->
  buttonView (task1ButtonAndLed now false s) = (BTN_IDLE, d, p, e, sh, n).
Proof. intros Hv. view_step Hv. rewrite Hst. cbn [negb]. congruence. Qed.

Lemma debounce_down_high :
  buttonView s = (BTN_DEBOUNCE_DOWN, d, p, e, sh, n) ->
  buttonView (task1ButtonAndLed now false s) = (BTN_IDLE, d, p, e, sh, n).
Proof. intros Hv. view_step Hv. rewrite Hst. cbn [negb]. lab_simpl. congruence. Qed.

Lemma debounce_down_wait :
  buttonView s = (BTN_DEBOUNCE_DOWN, d, p, e, sh, n) ->
  u32 (now - d) < DEBOUNCE_MS ->
  buttonView (task1ButtonAndLed now true s) = (BTN_DEBOUNCE_DOWN, d, p, e, sh, n).
Proof.
  intros Hv Hw. view_step Hv. rewrite Hst. cbn [negb]. rewrite Hd.
  destruct (Z.geb_spec (u32 (now - d)) DEBOUNCE_MS); [lia | congruence].
Qed.

Lemma debounce_down_confirm :
  buttonView s = (BTN_DEBOUNCE_DOWN, d, p, e, sh, n) ->
  DEBOUNCE_MS <= u32 (now - d) ->
  buttonView (task1ButtonAndLed now true s) = (BTN_PRESSED, d, now, e, sh, n).
Proof.
  intros Hv Hw. view_step Hv. rewrite Hst. cbn [negb]. rewrite Hd.
  destruct (Z.geb_spec (u32 (now - d)) DEBOUNCE_MS); [| lia].
  lab_simpl. congruence.
Qed.

Lemma pressed_low :
  buttonView s = (BTN_PRESSED, d, p, e, sh, n) ->
  buttonView (task1ButtonAndLed now true s) = (BTN_PRESSED, d, p, e, sh, n).
Proof. intros Hv. view_step Hv. rewrite Hst. cbn [negb]. congruence. Qed.

Lemma pressed_high :
  buttonView s = (BTN_PRESSED, d, p, e, sh, n) ->
  buttonView (task1ButtonAndLed now false s) = (BTN_DEBOUNCE_UP, now, p, now, sh, n).
Proof. intros Hv. view_step Hv. rewrite Hst. cbn [negb]. lab_simpl. congruence. Qed.

Lemma debounce_up_low :
  buttonView s = (BTN_DEBOUNCE_UP, d, p, e, sh, n) ->
  buttonView (task1ButtonAndLed now true s) = (BTN_PRESSED, d, p, e, sh, n).
Proof. intros Hv. view_step Hv. rewrite Hst. cbn [negb]. lab_simpl. congruence. Qed.

Lemma debounce_up_wait :
  buttonView s = (BTN_DEBOUNCE_UP, d, p, e, sh, n) ->
  u32 (now - d) < DEBOUNCE_MS ->
  buttonView (task1ButtonAndLed now false s) = (BTN_DEBOUNCE_UP, d, p, e, sh, n).
Proof.
  intros Hv Hw. view_step Hv. rewrite Hst. cbn [negb]. rewrite Hd.
  destruct (Z.geb_spec (u32 (now - d)) DEBOUNCE_MS); [lia | congruence].
Qed.

(** The only transition that writes the shared globals or switches an
    indicator LED on. *)
Lemma debounce_up_confirm :
  buttonView s = (BTN_DEBOUNCE_UP, d, p, e, sh, n) ->
  DEBOUNCE_MS <= u32 (now - d) ->
  buttonView (task1ButtonAndLed now false s)
  = (BTN_IDLE, d, p, e, published (u32 (e - p)) sh, S n).
Proof.
  intros Hv Hw. view_step Hv. rewrite Hst. cbn [negb]. rewrite Hd, Hp, He.
  destruct (Z.geb_spec (u32 (now - d)) DEBOUNCE_MS); [| lia].
  lab_simpl. unfold published.
  destruct (u32 (e - p) <? SHORT_PRESS_THRESHOLD_MS); lab_simpl;
    unfold indicatorOns in *; cbn; congruence.
Qed.

End ButtonTransitions.

(** **** Runs of Task 1 over a list of samples *)

Lemma runTask1_cons (x : Z * bool) (l : list (Z * bool)) (s : Lab) :
  runTask1 (x :: l) s = runTask1 l (task1ButtonAndLed (u32 (fst x)) (snd x) s).
Proof. reflexivity. Qed.

Lemma runTask1_app (l1 l2 : list (Z * bool)) (s : Lab) :
  runTask1 (l1 ++ l2) s = runTask1 l2 (runTask1 l1 s).
Proof. unfold runTask1, run. rewrite map_app, fold_left_app. reflexivity. Qed.

Lemma labPath_app (l1 l2 : list (Z * bool)) :
  forall s, labPath (l1 ++ l2) s = labPath l1 s ++ labPath l2 (runTask1 l1 s).
Proof.
  induction l1 as [| x l1 IH]; intros s; [reflexivity |].
  cbn [labPath app]. rewrite IH. reflexivity.
Qed.

Lemma length_held (b : bool) (ts : list Z) : length (held b ts) = length ts.
Proof. unfold held. apply length_map. Qed.

Section Phases.
Local Abbreviation View := (ButtonState_e * Z * Z * Z * Shared * nat)%type.

(** While every sample leaves the view as it is, the view stays. *)
Lemma view_constant (b : bool) (v : View) (P : Z -> Prop) :
  (forall t s, P t -> buttonView s = v ->
               buttonView (task1ButtonAndLed (u32 t) b s) = v) ->
  forall ts s,
    Forall P ts -> buttonView s = v ->
    buttonView <$> labPath (held b ts) s = replicate (length ts) v /\
    buttonView (runTask1 (held b ts) s) = v.
Proof.
  intros Hstep ts. induction ts as [| t ts IH]; intros s HP Hv.
  - split; [reflexivity | exact Hv].
  - pose proof (Forall_inv HP) as Pt. pose proof (Forall_inv_tail HP) as Pts.
    pose proof (Hstep t s Pt Hv) as Hv'.
    destruct (IH _ Pts Hv') as [Hpath Hend].
    split.
    + cbn [held map labPath fmap list_fmap length replicate]. cbn [held] in Hpath.
      unfold sampleExec, exec. cbn [fst snd].
      rewrite Hv'. f_equal. exact Hpath.
    + exact Hend.
Qed.

(** A debounce phase: the view waits at [v] while the samples come less
    than [DEBOUNCE_MS] after [t0], moves to [v1 tp] at the first sample
    [tp] that comes later, and stays there. *)
Lemma wait_then_fire (b : bool) (t0 : Z) (v : View) (v1 : Z -> View) (R : Z -> Prop) :
  (forall t s, R t -> t < t0 + DEBOUNCE_MS -> buttonView s = v ->
               buttonView (task1ButtonAndLed (u32 t) b s) = v) ->
  (forall t s, R t -> t0 + DEBOUNCE_MS <= t -> buttonView s = v ->
               buttonView (task1ButtonAndLed (u32 t) b s) = v1 t) ->
  (forall tf t s, buttonView s = v1 tf ->
                  buttonView (task1ButtonAndLed (u32 t) b s) = v1 tf) ->
  forall ts s,
    buttonView s = v -> Forall R ts ->
    Exists (fun t => t0 + DEBOUNCE_MS <= t) ts ->
    exists (pre : list Z) (tp : Z) (post : list Z),
      ts = pre ++ tp :: post /\
      Forall (fun t => t < t0 + DEBOUNCE_MS) pre /\
      t0 + DEBOUNCE_MS <= tp /\
      buttonView <$> labPath (held b ts) s
      = replicate (length pre) v ++ replicate (S (length post)) (v1 tp) /\
      buttonView (runTask1 (held b ts) s) = v1 tp.
Proof.
  intros Hwait Hfire Hstay ts.
  induction ts as [| t ts IH]; intros s Hv HR Hex.
  - inversion Hex.
  - pose proof (Forall_inv HR) as Rt. pose proof (Forall_inv_tail HR) as Rts.
    destruct (Z.lt_ge_cases t (t0 + DEBOUNCE_MS)) as [Hlt | Hge].
    + (* still waiting *)
      pose proof (Hwait t s Rt Hlt Hv) as Hv'.
      assert (Hex' : Exists (fun t => t0 + DEBOUNCE_MS <= t) ts).
      { apply Exists_cons in Hex as [Hex | Hex]; [lia | exact Hex]. }
      destruct (IH _ Hv' Rts Hex') as (pre & tp & post & -> & Hpre & Htp & Hpath & Hend).
      exists (t :: pre), tp, post.
      split; [reflexivity |]. split; [constructor; assumption |]. split; [exact Htp |].
      split; [| exact Hend].
      cbn [held map labPath fmap list_fmap length replicate app]. cbn [held] in Hpath.
      unfold sampleExec, exec. cbn [fst snd].
      rewrite Hv'. f_equal. exact Hpath.
    + (* the debounce time has elapsed *)
      pose proof (Hfire t s Rt Hge Hv) as Hv'.
      destruct (view_constant b (v1 t) (fun _ => True)
                  (fun t' s' _ H => Hstay t t' s' H) ts
                  (task1ButtonAndLed (u32 t) b s)) as [Hpath Hend];
        [apply List.Forall_forall; intros; exact I | exact Hv' |].
      exists [], t, ts.
      split; [reflexivity |]. split; [constructor |]. split; [exact Hge |].
      split; [| exact Hend].
      cbn [held map labPath fmap list_fmap length replicate app]. cbn [held] in Hpath.
      unfold sampleExec, exec. cbn [fst snd].
      rewrite Hv'. f_equal. exact Hpath.
Qed.

End Phases.

(** **** Sorted sampling times *)

Lemma last_cons_any (l : list Z) :
  forall x d, List.last (x :: l) d = List.last l x.
Proof.
  induction l as [| y l IH]; intros x d; [reflexivity |].
  change (List.last (x :: y :: l) d) with (List.last (y :: l) d).
  rewrite (IH y d), (IH y x). reflexivity.
Qed.

Lemma last_In (d : Z) (l : list Z) : l <> [] -> In (List.last l d) l.
Proof.
  induction l as [| x l IH]; intros Hne; [congruence |].
  destruct l as [| y l]; [left; reflexivity |].
  right. change (List.last (x :: y :: l) d) with (List.last (y :: l) d).
  apply IH. discriminate.
Qed.

(** In a sorted list nothing exceeds the last element. *)
Lemma sorted_le_last (l : list Z) :
  forall a, StronglySorted Z.le (a :: l) ->
            a <= List.last l a /\ Forall (fun x => a <= x <= List.last l a) l.
Proof.
  induction l as [| x l IH]; intros a Hs.
  - cbn. split; [lia | constructor].
  - apply StronglySorted_inv in Hs as [Hs Ha].
    destruct (IH x Hs) as [Hx Hl].
    inversion Ha as [| ? ? Hax Hal]; subst.
    rewrite last_cons_any.
    split; [lia |].
    constructor; [lia |].
    rewrite List.Forall_forall in *. intros y Hy.
    specialize (Hl y Hy). specialize (Hal y Hy). lia.
Qed.

Lemma sorted_app_inv (l1 l2 : list Z) (x : Z) :
  StronglySorted Z.le (l1 ++ x :: l2) ->
  Forall (fun t => t <= x) l1 /\ StronglySorted Z.le (x :: l2).
Proof.
  induction l1 as [| y l1 IH]; intros Hs.
  - split; [constructor | exact Hs].
  - cbn in Hs. apply StronglySorted_inv in Hs as [Hs Hy].
    destruct (IH Hs) as [H1 H2]. split; [| exact H2].
    constructor; [| exact H1].
    rewrite List.Forall_forall in Hy. apply Hy. apply in_or_app. right. left. reflexivity.
Qed.

(** **** A complete press *)

(** The four phases of a press seen through [buttonView].  The button is
    sampled LOW at [tl0] and at the times [lows], then HIGH at [th0] and at
    the times [highs]; some LOW sample comes [DEBOUNCE_MS] or more after
    [tl0] and some HIGH sample [DEBOUNCE_MS] or more after [th0]. *)
Lemma complete_press_views
      (s : Lab) (tl0 th0 : Z) (lows highs : list Z)
      (d p e : Z) (sh : Shared) (n : nat) :
  buttonView s = (BTN_IDLE, d, p, e, sh, n) ->
  th0 < tl0 + 4294967296 ->
  Forall (fun t => tl0 <= t <= th0) lows ->
  Forall (fun t => th0 <= t < th0 + 4294967296) highs ->
  Exists (fun t => tl0 + DEBOUNCE_MS <= t) lows ->
  Exists (fun t => th0 + DEBOUNCE_MS <= t) highs ->
  exists (pre : list Z) (tp : Z) (post pre' : list Z) (tr : Z) (post' : list Z),
    lows = pre ++ tp :: post /\
    Forall (fun t => t < tl0 + DEBOUNCE_MS) pre /\
    tl0 + DEBOUNCE_MS <= tp /\
    highs = pre' ++ tr :: post' /\
    buttonView <$> labPath (held true (tl0 :: lows) ++ held false (th0 :: highs)) s
    = replicate (S (length pre)) (BTN_DEBOUNCE_DOWN, u32 tl0, p, e, sh, n)
      ++ replicate (S (length post)) (BTN_PRESSED, u32 tl0, u32 tp, e, sh, n)
      ++ replicate (S (length pre')) (BTN_DEBOUNCE_UP, u32 th0, u32 tp, u32 th0, sh, n)
      ++ replicate (S (length post'))
           (BTN_IDLE, u32 th0, u32 tp, u32 th0, published (th0 - tp) sh, S n) /\
    buttonView (runTask1 (held true (tl0 :: lows) ++ held false (th0 :: highs)) s)
    = (BTN_IDLE, u32 th0, u32 tp, u32 th0, published (th0 - tp) sh, S n).
Proof.
  intros Hv Hspan Hlows Hhighs Hexl Hexh. unfold DEBOUNCE_MS in *.
  (* first LOW sample *)
  set (s1 := task1ButtonAndLed (u32 tl0) true s).
  assert (Hv1 : buttonView s1 = (BTN_DEBOUNCE_DOWN, u32 tl0, p, e, sh, n))
    by (apply (idle_low (u32 tl0) d p e sh n s Hv)).
  (* debounce of the press *)
  destruct (wait_then_fire true tl0
              (BTN_DEBOUNCE_DOWN, u32 tl0, p, e, sh, n)
              (fun t => (BTN_PRESSED, u32 tl0, u32 t, e, sh, n))
              (fun t => tl0 <= t <= th0))
    with (ts := lows) (s := s1)
    as (pre & tp & post & Elows & Hpre & Htp & Hpath1 & Hv2); unfold DEBOUNCE_MS;
    try assumption.
  { intros t x Ht Hlt Hx.
    apply (debounce_down_wait (u32 t) (u32 tl0) p e sh n x Hx).
    rewrite u32_elapsed; unfold DEBOUNCE_MS; lia. }
  { intros t x Ht Hge Hx.
    apply (debounce_down_confirm (u32 t) (u32 tl0) p e sh n x Hx).
    rewrite u32_elapsed; unfold DEBOUNCE_MS; lia. }
  { intros tf t x Hx.
    apply (pressed_low (u32 t) (u32 tl0) (u32 tf) e sh n x Hx). }
  assert (Htp_range : tl0 <= tp <= th0).
  { rewrite List.Forall_forall in Hlows. apply Hlows. rewrite Elows.
    apply in_or_app. right. left. reflexivity. }
  set (s2 := runTask1 (held true lows) s1) in *.
  (* first HIGH sample *)
  set (s3 := task1ButtonAndLed (u32 th0) false s2).
  assert (Hv3 : buttonView s3 = (BTN_DEBOUNCE_UP, u32 th0, u32 tp, u32 th0, sh, n))
    by (apply (pressed_high (u32 th0) (u32 tl0) (u32 tp) e sh n s2 Hv2)).
  (* debounce of the release *)
  destruct (wait_then_fire false th0
              (BTN_DEBOUNCE_UP, u32 th0, u32 tp, u32 th0, sh, n)
              (fun _ => (BTN_IDLE, u32 th0, u32 tp, u32 th0, published (th0 - tp) sh, S n))
              (fun t => th0 <= t < th0 + 4294967296))
    with (ts := highs) (s := s3)
    as (pre' & tr & post' & Ehighs & Hpre' & Htr & Hpath2 & Hv4); unfold DEBOUNCE_MS;
    try assumption.
  { intros t x Ht Hlt Hx.
    apply (debounce_up_wait (u32 t) (u32 th0) (u32 tp) (u32 th0) sh n x Hx).
    rewrite u32_elapsed; unfold DEBOUNCE_MS; lia. }
  { intros t x Ht Hge Hx.
    rewrite <- (u32_elapsed th0 tp) by lia.
    apply (debounce_up_confirm (u32 t) (u32 th0) (u32 tp) (u32 th0) sh n x Hx).
    rewrite u32_elapsed; unfold DEBOUNCE_MS; lia. }
  { intros tf t x Hx.
    apply (idle_high (u32 t) (u32 th0) (u32 tp) (u32 th0)
             (published (th0 - tp) sh) (S n) x Hx). }
  exists pre, tp, post, pre', tr, post'.
  split; [exact Elows |]. split; [exact Hpre |]. split; [exact Htp |].
  split; [exact Ehighs |].
  assert (Erun1 : runTask1 (held true (tl0 :: lows)) s = s2) by reflexivity.
  split.
  - rewrite labPath_app, Erun1, fmap_app.
    change (labPath (held true (tl0 :: lows)) s) with (s1 :: labPath (held true lows) s1).
    change (labPath (held false (th0 :: highs)) s2)
      with (s3 :: labPath (held false highs) s3).
    rewrite !fmap_cons, Hv1, Hv3, Hpath1, Hpath2.
    cbn [replicate app]. rewrite <- !app_assoc. reflexivity.
  - rewrite runTask1_app, Erun1.
    change (runTask1 (held false (th0 :: highs)) s2) with (runTask1 (held false highs) s3).
    exact Hv4.
Qed.

(** C3. The button is idle; Task 1 samples it LOW at the times [tl0] and
    [lows], then HIGH at the times [th0] and [highs], in increasing order
    and within 2^32 ms; the LOW samples span at least [DEBOUNCE_MS] and so
    do the HIGH samples.  Then the FSM goes DebounceDown, Pressed,
    DebounceUp, Idle; the shared globals stay untouched until the release
    is confirmed and from that sample on hold the one published press,
    whose duration is [th0 - tp]: [th0] is the time HIGH was first seen and
    [tp], the press-confirmed time, the first LOW sample [DEBOUNCE_MS] or
    more after [tl0].  The duration is not negative, and exactly one
    indicator LED was switched on. *)
Theorem complete_press_publishes_once
        (s : Lab) (tl0 th0 : Z) (lows highs : list Z) :
  s_btnState (task1 s) = BTN_IDLE ->
  StronglySorted Z.le (tl0 :: lows ++ th0 :: highs) ->
  List.last highs th0 - tl0 < 4294967296 ->
  DEBOUNCE_MS <= List.last lows tl0 - tl0 ->
  DEBOUNCE_MS <= List.last highs th0 - th0 ->
  let samples := held true (tl0 :: lows) ++ held false (th0 :: highs) in
  let s' := runTask1 samples s in
  exists (a b c d : nat) (tp : Z),
    (0 < a)%nat /\ (0 < b)%nat /\ (0 < c)%nat /\ (0 < d)%nat /\
    (fun x => s_btnState (task1 x)) <$> labPath samples s
    = replicate a BTN_DEBOUNCE_DOWN ++ replicate b BTN_PRESSED
      ++ replicate c BTN_DEBOUNCE_UP ++ replicate d BTN_IDLE /\
    In tp lows /\ tl0 + DEBOUNCE_MS <= tp /\
    (forall t, In t lows -> tl0 + DEBOUNCE_MS <= t -> tp <= t) /\
    shared <$> labPath samples s
    = replicate (a + b + c) (shared s) ++ replicate d (published (th0 - tp) (shared s)) /\
    0 <= th0 - tp /\
    s_btnState (task1 s') = BTN_IDLE /\
    s_pressStart (task1 s') = u32 tp /\
    s_pressEnd (task1 s') = u32 th0 /\
    shared s' = published (th0 - tp) (shared s) /\
    g_newPress (shared s') = true /\
    g_lastPressDuration (shared s') = th0 - tp /\
    indicatorOns (pinWrites s') = S (indicatorOns (pinWrites s)).
Proof.
  intros Hidle Hsorted Hspan Hlow Hhigh. cbn zeta. unfold DEBOUNCE_MS in *.
  (* what the order of the samples gives *)
  apply StronglySorted_inv in Hsorted as [Hs0 Hall].
  destruct (sorted_app_inv lows highs th0 Hs0) as [Hle_th0 Hs_high].
  destruct (sorted_le_last highs th0 Hs_high) as [Hth0_last Hhighs].
  apply Forall_app in Hall as [Hge_tl0 Hall_high].
  assert (Hlows : Forall (fun t => tl0 <= t <= th0) lows).
  { rewrite List.Forall_forall in *. intros t Ht.
    specialize (Hge_tl0 t Ht). specialize (Hle_th0 t Ht). lia. }
  assert (Hth0 : tl0 <= th0).
  { inversion Hall_high; assumption. }
  assert (Hexl : Exists (fun t => tl0 + 50 <= t) lows).
  { apply List.Exists_exists. exists (List.last lows tl0). split; [| lia].
    apply last_In. intros ->. cbn in Hlow. lia. }
  assert (Hexh : Exists (fun t => th0 + 50 <= t) highs).
  { apply List.Exists_exists. exists (List.last highs th0). split; [| lia].
    apply last_In. intros ->. cbn in Hhigh. lia. }
  assert (Hhighs' : Forall (fun t => th0 <= t < th0 + 4294967296) highs).
  { rewrite List.Forall_forall in *. intros t Ht. specialize (Hhighs t Ht). lia. }
  destruct (complete_press_views s tl0 th0 lows highs
              (s_debounceStart (task1 s)) (s_pressStart (task1 s)) (s_pressEnd (task1 s))
              (shared s) (indicatorOns (pinWrites s)))
    as (pre & tp & post & pre' & tr & post' & Elows & Hpre & Htp & Ehighs & Hpath & Hend);
    try assumption; [unfold buttonView; rewrite Hidle; reflexivity | lia |].
  unfold DEBOUNCE_MS in *.
  assert (Hin : In tp lows).
  { rewrite Elows. apply in_or_app. right. left. reflexivity. }
  assert (Htp_range : tl0 <= tp <= th0).
  { rewrite List.Forall_forall in Hlows. apply Hlows. exact Hin. }
  exists (S (length pre)), (S (length post)), (S (length pre')), (S (length post')), tp.
  do 4 (split; [lia |]).
  split.
  { change (fun x : Lab => s_btnState (task1 x))
      with ((fun v : ButtonState_e * Z * Z * Z * Shared * nat =>
               fst (fst (fst (fst (fst v))))) ∘ buttonView).
    rewrite list_fmap_compose, Hpath, !fmap_app, !fmap_replicate. reflexivity. }
  split; [exact Hin |]. split; [exact Htp |].
  split.
  { intros t Ht Hge. rewrite Elows in Ht, Hs0.
    rewrite <- app_assoc in Hs0. cbn [app] in Hs0.
    destruct (sorted_app_inv pre (post ++ th0 :: highs) tp Hs0) as [_ Hs_tp].
    apply StronglySorted_inv in Hs_tp as [_ Hpost].
    apply in_app_or in Ht as [Ht | [<- | Ht]].
    - rewrite List.Forall_forall in Hpre. specialize (Hpre t Ht). lia.
    - lia.
    - rewrite List.Forall_forall in Hpost. apply Hpost. apply in_or_app. left. exact Ht. }
  split.
  { change shared
      with ((fun v : ButtonState_e * Z * Z * Z * Shared * nat => snd (fst v)) ∘ buttonView).
    rewrite list_fmap_compose, Hpath, !fmap_app, !fmap_replicate. cbn [fst snd].
    rewrite !app_assoc, <- !replicate_add. reflexivity. }
  split; [lia |].
  set (s' := runTask1 (held true (tl0 :: lows) ++ held false (th0 :: highs)) s) in *.
  unfold buttonView in Hend. injection Hend as E1 E2 E3 E4 E5 E6.
  rewrite E1, E3, E4, E5, E6. repeat split.
Qed.

(** A press confirmed at 50 ms and released at 350 ms: one event of
    300 ms. *)
Lemma complete_press_publishes_once_witness :
  let s' := runTask1 (held true [0; 10; 50; 200] ++ held false [350; 360; 400; 410])
                     initialLab in
  g_newPress (shared s') = true /\
  g_lastPressDuration (shared s') = 300 /\
  indicatorOns (pinWrites s') = 1%nat.
Proof.
  destruct (complete_press_publishes_once initialLab 0 350 [10; 50; 200] [360; 400; 410])
    as (a & b & c & d & tp & _ & _ & _ & _ & _ & Hin & Hge & Hfirst & _ & _ & _ & _ & _
        & _ & Hnew & Hdur & Hons).
  - reflexivity.
  - repeat constructor; lia.
  - vm_compute. reflexivity.
  - vm_compute. congruence.
  - vm_compute. congruence.
  - assert (tp = 50) as ->.
    { pose proof (Hfirst 50 ltac:(right; left; reflexivity) ltac:(vm_compute; congruence)).
      unfold DEBOUNCE_MS in Hge. lia. }
    cbn zeta. split; [exact Hnew |]. split; [exact Hdur | exact Hons].
Defined.

(** **** A pulse shorter than the debounce time *)

Lemma sameButDebounce_trans (x y z : Lab) :
  sameButDebounce x y -> sameButDebounce y z -> sameButDebounce x z.
Proof.
  unfold sameButDebounce.
  intros (A1 & A2 & A3 & A4 & A5 & A6 & A7 & A8) (B1 & B2 & B3 & B4 & B5 & B6 & B7 & B8).
  repeat split; congruence.
Qed.

(** The auto-off section neither reads nor writes [s_btnState] and
    [s_debounceStart]. *)
Lemma sameButDebounce_autoOff (now : Z) (x y : Lab) :
  sameButDebounce x y -> sameButDebounce (task1AutoOff now x) (task1AutoOff now y).
Proof.
  unfold sameButDebounce.
  destruct x as [sh1 [st1 d1 p1 e1 g1 r1] b1 pw1 so1].
  destruct y as [sh2 [st2 d2 p2 e2 g2 r2] b2 pw2 so2].
  cbn. intros (-> & -> & -> & -> & -> & -> & -> & ->).
  unfold task1AutoOff. cbn.
  destruct (negb (g2 =? 0) && (now >=? g2)); cbn;
    destruct (negb (r2 =? 0) && (now >=? r2)); cbn; repeat split.
Qed.

(** The FSM steps that write nothing but [s_btnState] and
    [s_debounceStart]: every step taken in Idle, and in DebounceDown a
    HIGH sample or a LOW sample before the debounce time has elapsed. *)
Lemma task1Fsm_idle (now : Z) (b : bool) (x : Lab) :
  s_btnState (task1 x) = BTN_IDLE -> sameButDebounce (task1Fsm now b x) x.
Proof.
  intros Hst. unfold task1Fsm. rewrite Hst.
  destruct b; unfold sameButDebounce; lab_simpl; repeat split.
Qed.

Lemma task1Fsm_debounce_down (now : Z) (b : bool) (x : Lab) :
  s_btnState (task1 x) = BTN_DEBOUNCE_DOWN ->
  b = false \/ u32 (now - s_debounceStart (task1 x)) < DEBOUNCE_MS ->
  sameButDebounce (task1Fsm now b x) x.
Proof.
  intros Hst Hc. unfold task1Fsm. rewrite Hst.
  destruct b; cbn [negb].
  - destruct Hc as [Hc | Hc]; [discriminate |].
    destruct (Z.geb_spec (u32 (now - s_debounceStart (task1 x))) DEBOUNCE_MS); [lia |].
    unfold sameButDebounce; repeat split.
  - unfold sameButDebounce; lab_simpl; repeat split.
Qed.

Lemma task1Fsm_idle_high (now : Z) (y : Lab) :
  s_btnState (task1 y) = BTN_IDLE -> task1Fsm now false y = y.
Proof. intros Hst. unfold task1Fsm. rewrite Hst. reflexivity. Qed.

(** One step of the run with the pulse against the same step of the run
    without it. *)
Lemma pulse_step (now : Z) (b : bool) (x y : Lab) :
  sameButDebounce x y ->
  sameButDebounce (task1Fsm now b x) x ->
  s_btnState (task1 y) = BTN_IDLE ->
  sameButDebounce (task1ButtonAndLed now b x) (task1ButtonAndLed now false y) /\
  s_btnState (task1 (task1ButtonAndLed now false y)) = BTN_IDLE.
Proof.
  intros Hxy Hfsm Hy. unfold task1ButtonAndLed.
  rewrite (task1Fsm_idle_high now y Hy). split.
  - apply sameButDebounce_autoOff.
    apply (sameButDebounce_trans _ x); assumption.
  - destruct (task1AutoOff_frame now y) as (_ & -> & _). exact Hy.
Qed.

Lemma sameButDebounce_refl (x : Lab) : sameButDebounce x x.
Proof. unfold sameButDebounce. repeat split. Qed.

(** The LOW samples of the pulse, all taken before the debounce time has
    elapsed, against HIGH samples taken at the same times. *)
Lemma pulse_lows (t0 p e : Z) (sh : Shared) (n : nat) :
  forall (ts : list Z) (x y : Lab),
    buttonView x = (BTN_DEBOUNCE_DOWN, u32 t0, p, e, sh, n) ->
    s_btnState (task1 y) = BTN_IDLE ->
    sameButDebounce x y ->
    Forall (fun t => t0 <= t < t0 + DEBOUNCE_MS) ts ->
    Forall2 sameButDebounce (labPath (held true ts) x) (labPath (held false ts) y) /\
    sameButDebounce (runTask1 (held true ts) x) (runTask1 (held false ts) y) /\
    s_btnState (task1 (runTask1 (held false ts) y)) = BTN_IDLE.
Proof.
  induction ts as [| t ts IH]; intros x y Hv Hy Hxy Hts.
  - split; [constructor |]. split; [exact Hxy | exact Hy].
  - pose proof (Forall_inv Hts) as Ht. pose proof (Forall_inv_tail Hts) as Hts'.
    cbn beta in Ht. unfold DEBOUNCE_MS in Ht.
    assert (Hel : u32 (u32 t - u32 t0) < DEBOUNCE_MS)
      by (rewrite u32_elapsed; unfold DEBOUNCE_MS; lia).
    pose proof (debounce_down_wait (u32 t) (u32 t0) p e sh n x Hv Hel) as Hv'.
    assert (Hst : s_btnState (task1 x) = BTN_DEBOUNCE_DOWN)
      by (unfold buttonView in Hv; congruence).
    assert (Hd : s_debounceStart (task1 x) = u32 t0)
      by (unfold buttonView in Hv; congruence).
    destruct (pulse_step (u32 t) true x y Hxy) as [Hxy' Hy']; [| exact Hy |].
    { apply task1Fsm_debounce_down; [exact Hst | right; rewrite Hd; exact Hel]. }
    destruct (IH _ _ Hv' Hy' Hxy' Hts') as (Hpath & Hend & Hidle).
    split; [| split; [exact Hend | exact Hidle]].
    cbn [held map labPath]. unfold sampleExec, exec. cbn [fst snd].
    constructor; [exact Hxy' | exact Hpath].
Qed.

(** C4. The button is idle; Task 1 samples it LOW at the times [t0] and
    [lows] and HIGH again at [th], less than [DEBOUNCE_MS] after [t0].  Then
    the FSM waits in DebounceDown and is back in Idle at [th]; after every
    one of these samples the shared globals (pending flag, duration,
    classification, counters) are what they were before the pulse and no
    indicator LED was switched on; and apart from [s_btnState] and
    [s_debounceStart] the whole program state, pin writes and printed text
    included, is after every sample the one reached when the button is
    sampled HIGH at the same times. *)
Theorem short_pulse_is_absorbed (s : Lab) (t0 th : Z) (lows : list Z) :
  s_btnState (task1 s) = BTN_IDLE ->
  StronglySorted Z.le (t0 :: lows ++ [th]) ->
  th - t0 < DEBOUNCE_MS ->
  let pulse := held true (t0 :: lows) ++ held false [th] in
  let quiet := held false (t0 :: lows) ++ held false [th] in
  (fun x => s_btnState (task1 x)) <$> labPath pulse s
  = replicate (S (length lows)) BTN_DEBOUNCE_DOWN ++ [BTN_IDLE] /\
  shared <$> labPath pulse s = replicate (S (S (length lows))) (shared s) /\
  (fun x => indicatorOns (pinWrites x)) <$> labPath pulse s
  = replicate (S (S (length lows))) (indicatorOns (pinWrites s)) /\
  Forall2 sameButDebounce (labPath pulse s) (labPath quiet s) /\
  (fun x => s_btnState (task1 x)) <$> labPath quiet s
  = replicate (S (S (length lows))) BTN_IDLE.
Proof.
  intros Hidle Hsorted Hshort. cbn zeta. unfold DEBOUNCE_MS in Hshort.
  (* what the order of the samples gives *)
  destruct (sorted_le_last (lows ++ [th]) t0 Hsorted) as [_ Hall].
  rewrite last_last in Hall. apply Forall_app in Hall as [Hlows _].
  assert (Hts : Forall (fun t => t0 <= t < t0 + DEBOUNCE_MS) lows).
  { rewrite List.Forall_forall in *. intros t Ht. specialize (Hlows t Ht).
    unfold DEBOUNCE_MS. cbn beta in Hlows. lia. }
  set (p := s_pressStart (task1 s)). set (e := s_pressEnd (task1 s)).
  set (n := indicatorOns (pinWrites s)).
  assert (Hv : buttonView s = (BTN_IDLE, s_debounceStart (task1 s), p, e, shared s, n))
    by (unfold buttonView; rewrite Hidle; reflexivity).
  (* the first LOW sample *)
  set (x1 := task1ButtonAndLed (u32 t0) true s).
  set (y1 := task1ButtonAndLed (u32 t0) false s).
  assert (Hv1 : buttonView x1 = (BTN_DEBOUNCE_DOWN, u32 t0, p, e, shared s, n))
    by (apply (idle_low (u32 t0) _ p e (shared s) n s Hv)).
  destruct (pulse_step (u32 t0) true s s (sameButDebounce_refl s)
              (task1Fsm_idle (u32 t0) true s Hidle) Hidle) as [H1 Hy1].
  fold x1 y1 in H1, Hy1.
  (* the other LOW samples *)
  destruct (pulse_lows t0 p e (shared s) n lows x1 y1 Hv1 Hy1 H1 Hts)
    as (Hpath2 & H2 & Hy2).
  destruct (view_constant true (BTN_DEBOUNCE_DOWN, u32 t0, p, e, shared s, n)
              (fun t => t0 <= t < t0 + DEBOUNCE_MS)) with (ts := lows) (s := x1)
    as [Hviews Hv2]; [| exact Hts | exact Hv1 |].
  { intros t x Ht Hx.
    apply (debounce_down_wait (u32 t) (u32 t0) p e (shared s) n x Hx).
    rewrite u32_elapsed; unfold DEBOUNCE_MS in *; lia. }
  set (x2 := runTask1 (held true lows) x1) in *.
  set (y2 := runTask1 (held false lows) y1) in *.
  (* the HIGH sample *)
  set (x3 := task1ButtonAndLed (u32 th) false x2).
  set (y3 := task1ButtonAndLed (u32 th) false y2).
  assert (Hv3 : buttonView x3 = (BTN_IDLE, u32 t0, p, e, shared s, n))
    by (apply (debounce_down_high (u32 th) (u32 t0) p e (shared s) n x2 Hv2)).
  destruct (pulse_step (u32 th) false x2 y2 H2) as [H3 Hy3]; [| exact Hy2 |].
  { apply task1Fsm_debounce_down; [| left; reflexivity].
    unfold buttonView in Hv2. congruence. }
  fold x3 y3 in H3, Hy3.
  (* the two paths *)
  assert (Epulse : labPath (held true (t0 :: lows) ++ held false [th]) s
                   = x1 :: labPath (held true lows) x1 ++ [x3]).
  { rewrite labPath_app. reflexivity. }
  assert (Equiet : labPath (held false (t0 :: lows) ++ held false [th]) s
                   = y1 :: labPath (held false lows) y1 ++ [y3]).
  { rewrite labPath_app. reflexivity. }
  assert (Eviews : buttonView <$> labPath (held true (t0 :: lows) ++ held false [th]) s
                   = replicate (S (length lows))
                       (BTN_DEBOUNCE_DOWN, u32 t0, p, e, shared s, n)
                     ++ [(BTN_IDLE, u32 t0, p, e, shared s, n)]).
  { rewrite Epulse, fmap_cons, fmap_app, Hv1, Hviews. cbn [fmap list_fmap].
    rewrite Hv3. reflexivity. }
  split.
  { change (fun x : Lab => s_btnState (task1 x))
      with ((fun v : ButtonState_e * Z * Z * Z * Shared * nat =>
               fst (fst (fst (fst (fst v))))) ∘ buttonView).
    rewrite list_fmap_compose, Eviews, fmap_app, fmap_replicate. reflexivity. }
  split.
  { change shared
      with ((fun v : ButtonState_e * Z * Z * Z * Shared * nat => snd (fst v)) ∘ buttonView).
    rewrite list_fmap_compose, Eviews, fmap_app, fmap_replicate. cbn [fst snd fmap list_fmap].
    rewrite (replicate_S_end (S (length lows))). reflexivity. }
  split.
  { change (fun x : Lab => indicatorOns (pinWrites x))
      with ((fun v : ButtonState_e * Z * Z * Z * Shared * nat => snd v) ∘ buttonView).
    rewrite list_fmap_compose, Eviews, fmap_app, fmap_replicate. cbn [fst snd fmap list_fmap].
    rewrite (replicate_S_end (S (length lows))). reflexivity. }
  split.
  { rewrite Epulse, Equiet. constructor; [exact H1 |].
    apply Forall2_app; [exact Hpath2 |]. constructor; [exact H3 | constructor]. }
  rewrite Equiet.
  destruct (view_constant false
              (BTN_IDLE, s_debounceStart (task1 y1), s_pressStart (task1 y1),
               s_pressEnd (task1 y1), shared y1, indicatorOns (pinWrites y1))
              (fun _ => True)) with (ts := lows) (s := y1) as [Hq _].
  { intros t x _ Hx. apply (idle_high (u32 t) _ _ _ _ _ x Hx). }
  { apply List.Forall_forall. intros; exact I. }
  { unfold buttonView. rewrite Hy1. reflexivity. }
  change (fun x : Lab => s_btnState (task1 x))
    with ((fun v : ButtonState_e * Z * Z * Z * Shared * nat =>
             fst (fst (fst (fst (fst v))))) ∘ buttonView).
  rewrite fmap_cons, fmap_app, list_fmap_compose, Hq, fmap_replicate.
  cbn [fmap list_fmap compose fst]. unfold buttonView at 1 2. cbn [fst].
  rewrite Hy1, Hy3. rewrite (replicate_S_end (S (length lows))). reflexivity.
Qed.

(** A 30 ms glitch on an idle button. *)
Lemma short_pulse_is_absorbed_witness :
  (fun x => s_btnState (task1 x))
    <$> labPath (held true [100; 110; 120] ++ held false [130]) initialLab
  = [BTN_DEBOUNCE_DOWN; BTN_DEBOUNCE_DOWN; BTN_DEBOUNCE_DOWN; BTN_IDLE] /\
  shared <$> labPath (held true [100; 110; 120] ++ held false [130]) initialLab
  = replicate 4 (shared initialLab).
Proof.
  destruct (short_pulse_is_absorbed initialLab 100 130 [110; 120]) as (H1 & H2 & _).
  - reflexivity.
  - repeat constructor; lia.
  - vm_compute. reflexivity.
  - split; [exact H1 | exact H2].
Defined.

(** *** Task 2 *)

Lemma pinLevel_digitalWrite (p q : Z) (v : bool) (s : Lab) :
  pinLevel p (digitalWrite q v s) = if q =? p then v else pinLevel p s.
Proof.
  unfold pinLevel, levelIn, digitalWrite. cbn [pinWrites List.find fst snd].
  destruct (q =? p); reflexivity.
Qed.

(** Task 1 and Task 3 leave the blink sequencer and the yellow LED alone. *)
Lemma task1Fsm_blink_frame (now : Z) (b : bool) (s : Lab) :
  task2 (task1Fsm now b s) = task2 s /\
  pinLevel PIN_LED_YELLOW (task1Fsm now b s) = pinLevel PIN_LED_YELLOW s.
Proof.
  unfold task1Fsm.
  destruct (s_btnState (task1 s)), b; cbn [negb];
    try (destruct (u32 (now - s_debounceStart (task1 s)) >=? DEBOUNCE_MS));
    try (split; reflexivity).
  lab_simpl.
  destruct (u32 (s_pressEnd (task1 s) - s_pressStart (task1 s)) <? SHORT_PRESS_THRESHOLD_MS);
    split; reflexivity.
Qed.

Lemma task1_blink_frame (now : Z) (b : bool) (s : Lab) :
  task2 (task1ButtonAndLed now b s) = task2 s /\
  pinLevel PIN_LED_YELLOW (task1ButtonAndLed now b s) = pinLevel PIN_LED_YELLOW s.
Proof.
  unfold task1ButtonAndLed.
  destruct (task1AutoOff_frame now (task1Fsm now b s))
    as (_ & _ & _ & _ & _ & -> & _ & _ & ->).
  apply task1Fsm_blink_frame.
Qed.

Lemma task3_blink_frame (s : Lab) :
  task2 (task3PeriodicReport s) = task2 s /\
  pinLevel PIN_LED_YELLOW (task3PeriodicReport s) = pinLevel PIN_LED_YELLOW s.
Proof. split; reflexivity. Qed.

(** "Consume new press event" arms the sequencer with 10 or 20 steps,
    switches the LED on and restarts the half-period at [now]. *)
Lemma task2Consume_pending (now : Z) (s : Lab) :
  g_newPress (shared s) = true ->
  let c := task2Consume now s in
  (s_blinkStepsRemaining (task2 c) = BLINK_STEPS_SHORT \/
   s_blinkStepsRemaining (task2 c) = BLINK_STEPS_LONG) /\
  s_blinkLastToggle (task2 c) = now /\
  s_yellowLedOn (task2 c) = true /\
  pinLevel PIN_LED_YELLOW c = HIGH.
Proof.
  intros Hp. cbn zeta. unfold task2Consume. rewrite Hp. lab_simpl.
  destruct (g_isShortPress (shared s)); lab_simpl;
    (split; [auto |]); repeat split.
Qed.

Lemma task2Consume_idle (now : Z) (s : Lab) :
  g_newPress (shared s) = false -> task2Consume now s = s.
Proof. intros Hp. unfold task2Consume. rewrite Hp. reflexivity. Qed.

(** "Advance blink sequencer" either takes one step, and then leaves the
    LED off if that was the last one, or does nothing. *)
Lemma task2Advance_cases (now : Z) (s : Lab) :
  let a := task2Advance now s in
  (0 < s_blinkStepsRemaining (task2 s) /\
   BLINK_HALF_PERIOD_MS <= u32 (now - s_blinkLastToggle (task2 s)) /\
   s_blinkStepsRemaining (task2 a) = u8 (s_blinkStepsRemaining (task2 s) - 1) /\
   (s_blinkStepsRemaining (task2 a) = 0 ->
    s_yellowLedOn (task2 a) = false /\ pinLevel PIN_LED_YELLOW a = LOW))
  \/ a = s.
Proof.
  cbn zeta. unfold task2Advance.
  destruct (Z.gtb_spec (s_blinkStepsRemaining (task2 s)) 0) as [Hpos |]; [| right; reflexivity].
  destruct (Z.geb_spec (u32 (now - s_blinkLastToggle (task2 s))) BLINK_HALF_PERIOD_MS)
    as [Hel |]; [| right; reflexivity].
  left. split; [lia |]. split; [lia |]. lab_simpl.
  destruct (Z.eqb_spec (u8 (s_blinkStepsRemaining (task2 s) - 1)) 0) as [Hz | Hnz].
  - lab_simpl. split; [reflexivity |]. intros _. split; reflexivity.
  - lab_simpl. split; [reflexivity |]. intros Hz. contradiction.
Qed.

(** C7. The blink sequence never ends with the LED on.  In the tick of
    the Statistics task in which the remaining step count, whatever it
    was, reaches zero, the yellow LED is switched off and
    [s_yellowLedOn] cleared; and in every state the program reaches from
    its start-up state, the yellow LED is off and [s_yellowLedOn] is false
    whenever no step remains. *)
Theorem blink_sequence_ends_off :
  (forall (now : Z) (s : Lab),
      let s' := task2StatisticsAndBlink now s in
      s_blinkStepsRemaining (task2 s) <> 0 ->
      s_blinkStepsRemaining (task2 s') = 0 ->
      s_yellowLedOn (task2 s') = false /\ pinLevel PIN_LED_YELLOW s' = LOW)
  /\
  (forall es : list Exec,
      let s := run es (setupOutputs initialLab) in
      s_blinkStepsRemaining (task2 s) = 0 ->
      s_yellowLedOn (task2 s) = false /\ pinLevel PIN_LED_YELLOW s = LOW).
Proof.
  assert (Htick : forall (now : Z) (s : Lab),
             (s_blinkStepsRemaining (task2 s) = 0 ->
              s_yellowLedOn (task2 s) = false /\ pinLevel PIN_LED_YELLOW s = LOW)
             \/ s_blinkStepsRemaining (task2 s) <> 0 ->
             s_blinkStepsRemaining (task2 (task2StatisticsAndBlink now s)) = 0 ->
             s_yellowLedOn (task2 (task2StatisticsAndBlink now s)) = false /\
             pinLevel PIN_LED_YELLOW (task2StatisticsAndBlink now s) = LOW).
  { intros now s Hs Hz. unfold task2StatisticsAndBlink in *.
    destruct (g_newPress (shared s)) eqn:Hp.
    - (* a press is consumed: the sequencer is armed, no step can be due *)
      destruct (task2Consume_pending now s Hp) as (Hsteps & Hlast & _).
      destruct (task2Advance_cases now (task2Consume now s))
        as [(_ & Hel & _) | Heq].
      + rewrite Hlast, Z.sub_diag in Hel. vm_compute in Hel. congruence.
      + rewrite Heq in Hz. unfold BLINK_STEPS_SHORT, BLINK_STEPS_LONG in Hsteps. lia.
    - rewrite (task2Consume_idle now s Hp) in *.
      destruct (task2Advance_cases now s) as [(_ & _ & _ & Hoff) | Heq].
      + apply Hoff. exact Hz.
      + rewrite Heq in *. destruct Hs as [Hs | Hs]; [apply Hs; exact Hz | contradiction]. }
  split.
  - intros now s s' Hnz Hz. apply Htick; [right; exact Hnz | exact Hz].
  - intros es. cbn zeta.
    assert (Hinv : forall s : Lab,
               (s_blinkStepsRemaining (task2 s) = 0 ->
                s_yellowLedOn (task2 s) = false /\ pinLevel PIN_LED_YELLOW s = LOW) ->
               s_blinkStepsRemaining (task2 (run es s)) = 0 ->
               s_yellowLedOn (task2 (run es s)) = false /\
               pinLevel PIN_LED_YELLOW (run es s) = LOW).
    { induction es as [| e es IH]; intros s Hs; [exact Hs |].
      cbn [run fold_left]. apply IH. clear IH.
      destruct e as [now b | now |]; cbn [exec].
      - destruct (task1_blink_frame now b s) as [-> ->]. exact Hs.
      - apply Htick. left. exact Hs.
      - destruct (task3_blink_frame s) as [-> ->]. exact Hs. }
    apply Hinv. intros _. split; reflexivity.
Qed.

(** *** The counters *)

(** Task 1 never writes a counter. *)
Lemma task1_counters (now : Z) (b : bool) (s : Lab) :
  let s' := task1ButtonAndLed now b s in
  g_totalPresses (shared s') = g_totalPresses (shared s) /\
  g_shortPresses (shared s') = g_shortPresses (shared s) /\
  g_longPresses (shared s') = g_longPresses (shared s) /\
  g_totalDurationMs (shared s') = g_totalDurationMs (shared s).
Proof.
  cbn zeta. unfold task1ButtonAndLed.
  destruct (task1AutoOff_frame now (task1Fsm now b s)) as (-> & _).
  unfold task1Fsm.
  destruct (s_btnState (task1 s)), b; cbn [negb];
    try (destruct (u32 (now - s_debounceStart (task1 s)) >=? DEBOUNCE_MS));
    try (repeat split; fail).
  lab_simpl.
  destruct (u32 (s_pressEnd (task1 s) - s_pressStart (task1 s)) <? SHORT_PRESS_THRESHOLD_MS);
    repeat split.
Qed.

Lemma task2Advance_shared (now : Z) (s : Lab) :
  shared (task2Advance now s) = shared s.
Proof.
  unfold task2Advance.
  destruct (s_blinkStepsRemaining (task2 s) >? 0); [| reflexivity].
  destruct (u32 (now - s_blinkLastToggle (task2 s)) >=? BLINK_HALF_PERIOD_MS);
    [| reflexivity].
  lab_simpl.
  destruct (u8 (s_blinkStepsRemaining (task2 s) - 1) =? 0); reflexivity.
Qed.

(** Task 2 either finds no pending press and leaves the counters alone,
    or counts the pending press once in the total and once in exactly one
    of the two classes. *)
Lemma task2_counters (now : Z) (s : Lab) :
  let s' := task2StatisticsAndBlink now s in
  (g_newPress (shared s) = false /\ shared s' = shared s)
  \/
  (g_newPress (shared s) = true /\
   g_newPress (shared s') = false /\
   g_totalPresses (shared s') = u32 (g_totalPresses (shared s) + 1) /\
   g_totalDurationMs (shared s')
   = u32 (g_totalDurationMs (shared s) + g_lastPressDuration (shared s)) /\
   ((g_isShortPress (shared s) = true /\
     g_shortPresses (shared s') = u32 (g_shortPresses (shared s) + 1) /\
     g_longPresses (shared s') = g_longPresses (shared s))
    \/
    (g_isShortPress (shared s) = false /\
     g_shortPresses (shared s') = g_shortPresses (shared s) /\
     g_longPresses (shared s') = u32 (g_longPresses (shared s) + 1)))).
Proof.
  cbn zeta. unfold task2StatisticsAndBlink. rewrite task2Advance_shared.
  unfold task2Consume.
  destruct (g_newPress (shared s)) eqn:Hp; [right | left; split; reflexivity].
  split; [reflexivity |]. lab_simpl.
  destruct (g_isShortPress (shared s)); lab_simpl.
  - repeat (split; [reflexivity |]). left. repeat split.
  - repeat (split; [reflexivity |]). right. repeat split.
Qed.

Lemma u32_le (x : Z) : 0 <= x -> u32 x <= x.
Proof. intros H. unfold u32. apply Z.mod_le; lia. Qed.

Lemma u32_succ (x y : Z) : u32 (u32 x + y) = u32 (x + y).
Proof. unfold u32. apply Zplus_mod_idemp_l. Qed.

(** The invariant behind C9: both class counters are non-negative, their
    sum is bounded by the number [n] of task executions so far, and the
    total is their sum in [uint32_t] arithmetic. *)
Lemma counters_step (e : Exec) (s : Lab) (n : Z) :
  0 <= g_shortPresses (shared s) ->
  0 <= g_longPresses (shared s) ->
  g_shortPresses (shared s) + g_longPresses (shared s) <= n ->
  g_totalPresses (shared s) = u32 (g_shortPresses (shared s) + g_longPresses (shared s)) ->
  let s' := exec e s in
  0 <= g_shortPresses (shared s') /\
  0 <= g_longPresses (shared s') /\
  g_shortPresses (shared s') + g_longPresses (shared s') <= n + 1 /\
  g_totalPresses (shared s') = u32 (g_shortPresses (shared s') + g_longPresses (shared s')).
Proof.
  intros Hs Hl Hn Ht. cbn zeta. destruct e as [now b | now |]; cbn [exec].
  - destruct (task1_counters now b s) as (-> & -> & -> & _).
    repeat split; try assumption; lia.
  - destruct (task2_counters now s)
      as [[_ ->] | (_ & _ & -> & _ & [(_ & -> & ->) | (_ & -> & ->)])].
    + repeat split; try assumption; lia.
    + pose proof (u32_range (g_shortPresses (shared s) + 1)).
      pose proof (u32_le (g_shortPresses (shared s) + 1) ltac:(lia)).
      split; [lia |]. split; [lia |]. split; [lia |].
      rewrite Ht, !u32_succ. f_equal. lia.
    + pose proof (u32_range (g_longPresses (shared s) + 1)).
      pose proof (u32_le (g_longPresses (shared s) + 1) ltac:(lia)).
      split; [lia |]. split; [lia |]. split; [lia |].
      rewrite Ht, u32_succ.
      rewrite (Z.add_comm (g_shortPresses (shared s)) (u32 (g_longPresses (shared s) + 1))).
      rewrite u32_succ. f_equal. lia.
  - unfold task3PeriodicReport. lab_simpl. repeat split; try lia.
Qed.

Lemma counters_run (es : list Exec) :
  forall (s : Lab) (n : Z),
    0 <= g_shortPresses (shared s) ->
    0 <= g_longPresses (shared s) ->
    g_shortPresses (shared s) + g_longPresses (shared s) <= n ->
    g_totalPresses (shared s) = u32 (g_shortPresses (shared s) + g_longPresses (shared s)) ->
    0 <= g_shortPresses (shared (run es s)) /\
    0 <= g_longPresses (shared (run es s)) /\
    g_shortPresses (shared (run es s)) + g_longPresses (shared (run es s))
      <= n + Z.of_nat (length es) /\
    g_totalPresses (shared (run es s))
    = u32 (g_shortPresses (shared (run es s)) + g_longPresses (shared (run es s))).
Proof.
  induction es as [| e es IH]; intros s n Hs Hl Hn Ht.
  - cbn. repeat split; try assumption; lia.
  - destruct (counters_step e s n Hs Hl Hn Ht) as (Hs' & Hl' & Hn' & Ht').
    destruct (IH (exec e s) (n + 1) Hs' Hl' Hn' Ht') as (H1 & H2 & H3 & H4).
    change (run (e :: es) s) with (run es (exec e s)).
    repeat split; try assumption.
    change (length (e :: es)) with (S (length es)). lia.
Qed.

(** C9. From the start-up state, after any sequence of task executions
    (so in particular after every execution of the Statistics task or of
    the Reporter) [g_totalPresses == g_shortPresses + g_longPresses] holds
    as the C expression it is, in [uint32_t] arithmetic; and it holds over
    the integers as long as fewer than 2^32 tasks have run. *)
Theorem counters_consistent (es : list Exec) :
  let s := run es (setupOutputs initialLab) in
  g_totalPresses (shared s) = u32 (g_shortPresses (shared s) + g_longPresses (shared s)) /\
  (Z.of_nat (length es) < 4294967296 ->
   g_totalPresses (shared s) = g_shortPresses (shared s) + g_longPresses (shared s)).
Proof.
  cbn zeta.
  destruct (counters_run es (setupOutputs initialLab) 0) as (Hs & Hl & Hn & Ht);
    try (cbn; lia); [reflexivity |].
  split; [exact Ht |].
  intros Hlen. rewrite Ht. apply u32_small. lia.
Qed.

(** *** The mailbox *)

(** C8. Task 1 publishes without looking at [g_newPress]: whatever the
    flag, a confirmed release stores the new duration and classification.
    And there is a run in which it does so over an unconsumed press:
    after a run of the Statistics task, a press of 100 ms completes and is
    published, a press of 640 ms completes and is published while the flag
    is still set, and the next run of the Statistics task counts one
    press, the long one; the short one is lost. *)
Theorem mailbox_overwritten_by_second_press :
  (forall (now : Z) (s : Lab),
      s_btnState (task1 s) = BTN_DEBOUNCE_UP ->
      DEBOUNCE_MS <= u32 (now - s_debounceStart (task1 s)) ->
      shared (task1ButtonAndLed now false s)
      = published (u32 (s_pressEnd (task1 s) - s_pressStart (task1 s))) (shared s))
  /\
  exists (cycle1 cycle2 : list (Z * bool)) (t2a t2b : Z),
    let s0 := task2StatisticsAndBlink t2a (setupOutputs initialLab) in
    let s1 := runTask1 cycle1 s0 in
    let s2 := runTask1 cycle2 s1 in
    let s3 := task2StatisticsAndBlink t2b s2 in
    run (RunTask2 t2a :: map sampleExec (cycle1 ++ cycle2) ++ [RunTask2 t2b])
        (setupOutputs initialLab) = s3 /\
    g_newPress (shared s0) = false /\
    shared s1 = published 100 (shared s0) /\
    indicatorOns (pinWrites s1) = 1%nat /\
    Forall (fun x => g_newPress (shared x) = true) (s1 :: labPath cycle2 s1) /\
    shared s2 = published 640 (shared s0) /\
    indicatorOns (pinWrites s2) = 2%nat /\
    g_newPress (shared s3) = false /\
    g_totalPresses (shared s3) = 1 /\
    g_shortPresses (shared s3) = 0 /\
    g_longPresses (shared s3) = 1 /\
    g_totalDurationMs (shared s3) = 640.
Proof.
  split.
  - intros now s Hst Hel.
    pose proof (debounce_up_confirm now
                  (s_debounceStart (task1 s)) (s_pressStart (task1 s))
                  (s_pressEnd (task1 s)) (shared s) (indicatorOns (pinWrites s)) s) as Hv.
    unfold buttonView in Hv. rewrite Hst in Hv.
    specialize (Hv eq_refl Hel). congruence.
  - exists (held true [0; 50] ++ held false [150; 200]),
           (held true [210; 260] ++ held false [900; 950]), 0, 960.
    cbn zeta.
    split; [vm_compute; reflexivity |].
    split; [vm_compute; reflexivity |].
    split; [vm_compute; reflexivity |].
    split; [vm_compute; reflexivity |].
    split; [repeat constructor |].
    repeat split; vm_compute; reflexivity.
Qed.

(** *** The whole program

    The scenario of a 300 ms press, run through [setup()] and [loop()]:
    the press is confirmed at 150 ms, the release seen at 450 ms and
    confirmed at 500 ms; the next run of the Statistics task counts one
    short press of 300 ms and arms ten blink steps. *)
Example press_of_300ms_through_the_scheduler :
  let st := simulate pressScenario booted in
  shared (lab (snd st)) = mkShared false 300 true 1 1 0 300 /\
  s_blinkStepsRemaining (task2 (lab (snd st))) = BLINK_STEPS_SHORT /\
  s_greenLedOffAt (task1 (lab (snd st))) = 2000 /\
  pinLevel PIN_LED_GREEN (lab (snd st)) = HIGH /\
  pinLevel PIN_LED_YELLOW (lab (snd st)) = HIGH /\
  TaskScheduler.nextRun <$> fst st = [610; 605; 2000].
Proof. vm_compute. repeat split. Qed.


(** * Further properties *)

(** ** The scheduler *)

Section SchedulerMore.
Import TaskScheduler.
Context {Fn World : Type}.
Variable millis : World -> Z * World.
Variable call : Fn -> World -> World.

Local Abbreviation Task := (TaskContext_t Fn).

(** X2. Over any table a [uint8_t] count can index, a call of
    [schedulerRun] either calls no task function and leaves table and
    world as they are after the first clock read, or calls exactly one,
    that of a task that is due, reads the clock once or twice more, and
    leaves every other entry of the table alone. *)
Theorem schedulerRun_runs_only_a_due_task
        (tasks : list Task) (w w1 : World) (now : Z) :
  (length tasks <= 255)%nat ->
  millis w = (now, w1) ->
  schedulerRun millis call tasks w = (tasks, w1)
  \/
  exists (k : nat) (t : Task) (n : nat),
    tasks !! k = Some t /\ nextRun t <= now /\
    (n = 1 \/ n = 2)%nat /\
    snd (schedulerRun millis call tasks w)
    = Nat.iter n (fun x => snd (millis x)) (call (funcPtr t) w1) /\
    forall i : nat, i <> k -> fst (schedulerRun millis call tasks w) !! i = tasks !! i.
Proof.
  intros Hlen Hm.
  destruct (Z.lt_ge_cases (chosenAfterScan now tasks) 0) as [Hneg | Hpos].
  - left. apply (schedulerRun_none millis call tasks w w1 now Hm Hneg).
  - right.
    destruct (chosen_in_range tasks now Hlen Hpos) as [t Hk].
    set (k := Z.to_nat (chosenAfterScan now tasks)) in *.
    assert (Hc : chosenAfterScan now tasks = Z.of_nat k) by (unfold k; lia).
    pose proof (chosen_task_is_due tasks now k t Hlen Hc Hk) as Hdue.
    destruct (millis (call (funcPtr t) w1)) as [t1 w3] eqn:H1.
    destruct (millis w3) as [t2 w4] eqn:H2.
    rewrite (schedulerRun_some millis call tasks w w1 w3 w4 now t1 t2 k t Hm Hc Hk H1 H2).
    destruct (u32 (nextRun t + period t) <? t1).
    + exists k, t, 2%nat. split; [exact Hk |]. split; [exact Hdue |].
      split; [right; reflexivity |]. split.
      * cbn. rewrite H1. cbn. rewrite H2. reflexivity.
      * intros i Hi. cbn [fst]. apply list_lookup_insert_ne. congruence.
    + exists k, t, 1%nat. split; [exact Hk |]. split; [exact Hdue |].
      split; [left; reflexivity |]. split.
      * cbn. rewrite H1. reflexivity.
      * intros i Hi. cbn [fst]. apply list_lookup_insert_ne. congruence.
Qed.



End SchedulerMore.

(** The Lab 2.1 table at 1050 ms after an initialisation at 1000 ms: Task 1
    and Task 2 are due, Task 1 with the smaller deadline. *)
Lemma schedulerRun_earliest_deadline_first_witness :
  let tasks := fst (TaskScheduler.schedulerInit Lab2_1.millis Lab2_1.s_tasks
                      (Lab2_1.mkBoard 1000 true Lab2_1.initialLab)) in
  let w := Lab2_1.mkBoard 1050 true Lab2_1.initialLab in
  exists (k : nat) (t : TaskScheduler.TaskContext_t Lab2_1.TaskFn),
    tasks !! k = Some t /\ TaskScheduler.nextRun t <= 1050 /\
    TaskScheduler.chosenAfterScan 1050 tasks = Z.of_nat k /\
    forall (j : nat) (t' : TaskScheduler.TaskContext_t Lab2_1.TaskFn),
      tasks !! j = Some t' -> TaskScheduler.nextRun t' <= 1050 ->
      TaskScheduler.nextRun t <= TaskScheduler.nextRun t'.
Proof.
  intros tasks w.
  destruct (schedulerRun_earliest_deadline_first Lab2_1.millis Lab2_1.call tasks w w 1050)
    as [[Hnone _] | (k & t & Hk & Hd & Hc & Hmin & _)].
  - vm_compute. lia.
  - intros t Hin Hdue. vm_compute in Hin.
    destruct Hin as [<- | [<- | [<- | []]]]; vm_compute; reflexivity.
  - reflexivity.
  - exfalso. specialize (Hnone (TaskScheduler.mkTask Lab2_1.ptr_task1ButtonAndLed 10 0 1000)).
    assert (1050 < 1000) as Habs; [| lia].
    apply Hnone. vm_compute. left. reflexivity.
  - exists k, t. repeat split; try assumption.
    intros j t' Hj Hd'. apply (Hmin j t' Hj Hd').
Defined.


(** Task 1 at 1050 ms in the table initialised at 1000 ms. *)
Lemma schedulerRun_runs_only_a_due_task_witness :
  let tasks := fst (TaskScheduler.schedulerInit Lab2_1.millis Lab2_1.s_tasks
                      (Lab2_1.mkBoard 1000 true Lab2_1.initialLab)) in
  let w := Lab2_1.mkBoard 1050 true Lab2_1.initialLab in
  TaskScheduler.schedulerRun Lab2_1.millis Lab2_1.call tasks w = (tasks, w)
  \/
  exists (k : nat) (t : TaskScheduler.TaskContext_t Lab2_1.TaskFn) (n : nat),
    tasks !! k = Some t /\ TaskScheduler.nextRun t <= 1050 /\
    (n = 1 \/ n = 2)%nat /\
    snd (TaskScheduler.schedulerRun Lab2_1.millis Lab2_1.call tasks w)
    = Nat.iter n (fun x => snd (Lab2_1.millis x)) (Lab2_1.call (TaskScheduler.funcPtr t) w) /\
    forall i : nat, i <> k ->
      fst (TaskScheduler.schedulerRun Lab2_1.millis Lab2_1.call tasks w) !! i = tasks !! i.
Proof.
  intros tasks w.
  apply (schedulerRun_runs_only_a_due_task Lab2_1.millis Lab2_1.call tasks w w 1050).
  - vm_compute. lia.
  - reflexivity.
Defined.


(** ** Lab 2.1 *)

(** *** A bounce on release *)

(** X4. The button is pressed (state Pressed); Task 1 samples it HIGH at
    [th] and at the times [highs], all less than [DEBOUNCE_MS] after [th],
    and then LOW again at [tl].  The FSM waits in DebounceUp and returns to
    Pressed: no press is published, no indicator LED is switched on, and
    the press-confirmed timestamp is kept, so that the press goes on being
    measured from its start. *)
Theorem release_bounce_is_absorbed (s : Lab) (th tl : Z) (highs : list Z) :
  s_btnState (task1 s) = BTN_PRESSED ->
  Forall (fun t => th <= t < th + DEBOUNCE_MS) highs ->
  let samples := held false (th :: highs) ++ held true [tl] in
  (fun x => s_btnState (task1 x)) <$> labPath samples s
  = replicate (S (length highs)) BTN_DEBOUNCE_UP ++ [BTN_PRESSED] /\
  shared <$> labPath samples s = replicate (S (S (length highs))) (shared s) /\
  (fun x => indicatorOns (pinWrites x)) <$> labPath samples s
  = replicate (S (S (length highs))) (indicatorOns (pinWrites s)) /\
  s_pressStart (task1 (runTask1 samples s)) = s_pressStart (task1 s).
Proof.
  intros Hst Hhighs. cbn zeta.
  set (p := s_pressStart (task1 s)). set (n := indicatorOns (pinWrites s)).
  assert (Hv : buttonView s = (BTN_PRESSED, s_debounceStart (task1 s), p,
                               s_pressEnd (task1 s), shared s, n))
    by (unfold buttonView; rewrite Hst; reflexivity).
  set (x1 := task1ButtonAndLed (u32 th) false s).
  assert (Hv1 : buttonView x1 = (BTN_DEBOUNCE_UP, u32 th, p, u32 th, shared s, n))
    by (apply (pressed_high (u32 th) _ p _ (shared s) n s Hv)).
  destruct (view_constant false (BTN_DEBOUNCE_UP, u32 th, p, u32 th, shared s, n)
              (fun t => th <= t < th + DEBOUNCE_MS)) with (ts := highs) (s := x1)
    as [Hviews Hv2]; [| exact Hhighs | exact Hv1 |].
  { intros t x Ht Hx.
    apply (debounce_up_wait (u32 t) (u32 th) p (u32 th) (shared s) n x Hx).
    rewrite u32_elapsed; unfold DEBOUNCE_MS in *; lia. }
  set (x2 := runTask1 (held false highs) x1) in *.
  set (x3 := task1ButtonAndLed (u32 tl) true x2).
  assert (Hv3 : buttonView x3 = (BTN_PRESSED, u32 th, p, u32 th, shared s, n))
    by (apply (debounce_up_low (u32 tl) (u32 th) p (u32 th) (shared s) n x2 Hv2)).
  assert (Epath : labPath (held false (th :: highs) ++ held true [tl]) s
                  = x1 :: labPath (held false highs) x1 ++ [x3]).
  { rewrite labPath_app. reflexivity. }
  assert (Eviews : buttonView <$> labPath (held false (th :: highs) ++ held true [tl]) s
                   = replicate (S (length highs))
                       (BTN_DEBOUNCE_UP, u32 th, p, u32 th, shared s, n)
                     ++ [(BTN_PRESSED, u32 th, p, u32 th, shared s, n)]).
  { rewrite Epath, fmap_cons, fmap_app, Hv1, Hviews. cbn [fmap list_fmap].
    rewrite Hv3. reflexivity. }
  split.
  { change (fun x : Lab => s_btnState (task1 x))
      with ((fun v : ButtonState_e * Z * Z * Z * Shared * nat =>
               fst (fst (fst (fst (fst v))))) ∘ buttonView).
    rewrite list_fmap_compose, Eviews, fmap_app, fmap_replicate. reflexivity. }
  split.
  { change shared
      with ((fun v : ButtonState_e * Z * Z * Z * Shared * nat => snd (fst v)) ∘ buttonView).
    rewrite list_fmap_compose, Eviews, fmap_app, fmap_replicate. cbn [fst snd fmap list_fmap].
    rewrite (replicate_S_end (S (length highs))). reflexivity. }
  split.
  { change (fun x : Lab => indicatorOns (pinWrites x))
      with ((fun v : ButtonState_e * Z * Z * Z * Shared * nat => snd v) ∘ buttonView).
    rewrite list_fmap_compose, Eviews, fmap_app, fmap_replicate. cbn [fst snd fmap list_fmap].
    rewrite (replicate_S_end (S (length highs))). reflexivity. }
  rewrite runTask1_app.
  change (runTask1 (held false (th :: highs)) s) with x2.
  change (runTask1 (held true [tl]) x2) with x3.
  unfold buttonView in Hv3. congruence.
Qed.

(** A contact bounce of 20 ms while a press is being released. *)
Lemma release_bounce_is_absorbed_witness :
  let s := mkLab (mkShared false 0 false 0 0 0 0)
                 (mkTask1Private BTN_PRESSED 100 150 0 0 0)
                 (mkTask2Private 0 0 false) [] [] in
  let samples := held false [400; 410; 420] ++ held true [430] in
  (fun x => s_btnState (task1 x)) <$> labPath samples s
  = [BTN_DEBOUNCE_UP; BTN_DEBOUNCE_UP; BTN_DEBOUNCE_UP; BTN_PRESSED] /\
  s_pressStart (task1 (runTask1 samples s)) = 150.
Proof.
  intros s samples.
  destruct (release_bounce_is_absorbed s 400 430 [410; 420]) as (H1 & _ & _ & H4).
  - reflexivity.
  - repeat constructor; vm_compute; congruence.
  - split; [exact H1 | exact H4].
Defined.

(** *** The one-shot indicator timers *)

(** One run of Task 1 on an idle, released button: the FSM stays idle, and
    each indicator is switched off and its timer cleared when the timer is
    armed and has expired, and left alone otherwise. *)
Lemma idle_tick (now : Z) (s : Lab) :
  s_btnState (task1 s) = BTN_IDLE ->
  let s' := task1ButtonAndLed now false s in
  s_btnState (task1 s') = BTN_IDLE /\
  (if negb (s_greenLedOffAt (task1 s) =? 0) && (now >=? s_greenLedOffAt (task1 s))
   then s_greenLedOffAt (task1 s') = 0 /\ pinLevel PIN_LED_GREEN s' = LOW
   else s_greenLedOffAt (task1 s') = s_greenLedOffAt (task1 s) /\
        pinLevel PIN_LED_GREEN s' = pinLevel PIN_LED_GREEN s) /\
  (if negb (s_redLedOffAt (task1 s) =? 0) && (now >=? s_redLedOffAt (task1 s))
   then s_redLedOffAt (task1 s') = 0 /\ pinLevel PIN_LED_RED s' = LOW
   else s_redLedOffAt (task1 s') = s_redLedOffAt (task1 s) /\
        pinLevel PIN_LED_RED s' = pinLevel PIN_LED_RED s).
Proof.
  intros Hst. cbn zeta. unfold task1ButtonAndLed.
  rewrite (task1Fsm_idle_high now s Hst).
  unfold task1AutoOff.
  destruct (negb (s_greenLedOffAt (task1 s) =? 0) && (now >=? s_greenLedOffAt (task1 s)));
    lab_simpl;
    destruct (negb (s_redLedOffAt (task1 s) =? 0) && (now >=? s_redLedOffAt (task1 s)));
    lab_simpl; repeat split; try assumption;
    rewrite ?pinLevel_digitalWrite; reflexivity.
Qed.

(** A timer that one idle tick after the other leaves alone while it is
    ahead of the clock, and clears, switching the LED off, at the first tick
    that finds it expired. *)
Lemma one_shot_run (offAt : Lab -> Z) (level : Lab -> bool) :
  (forall now s,
      s_btnState (task1 s) = BTN_IDLE ->
      s_btnState (task1 (task1ButtonAndLed now false s)) = BTN_IDLE /\
      if negb (offAt s =? 0) && (now >=? offAt s)
      then offAt (task1ButtonAndLed now false s) = 0 /\
           level (task1ButtonAndLed now false s) = LOW
      else offAt (task1ButtonAndLed now false s) = offAt s /\
           level (task1ButtonAndLed now false s) = level s) ->
  forall (nows : list Z) (s : Lab),
    s_btnState (task1 s) = BTN_IDLE ->
    0 < offAt s ->
    let s' := run (map (fun now => RunTask1 now false) nows) s in
    (Forall (fun now => now < offAt s) nows ->
     offAt s' = offAt s /\ level s' = level s) /\
    (Exists (fun now => offAt s <= now) nows ->
     offAt s' = 0 /\ level s' = LOW).
Proof.
  intros Hstep nows. cbn zeta.
  assert (Hoff : forall (l : list Z) (s : Lab),
             s_btnState (task1 s) = BTN_IDLE -> offAt s = 0 ->
             offAt (run (map (fun now => RunTask1 now false) l) s) = 0 /\
             level (run (map (fun now => RunTask1 now false) l) s) = level s).
  { induction l as [| now l IH]; intros s Hst H0; [split; [exact H0 | reflexivity] |].
    change (run (map (fun now => RunTask1 now false) (now :: l)) s)
      with (run (map (fun now => RunTask1 now false) l) (task1ButtonAndLed now false s)).
    destruct (Hstep now s Hst) as [Hst' Hs]. rewrite H0 in Hs. cbn in Hs.
    destruct Hs as [Ho Hl].
    destruct (IH _ Hst' Ho) as [IH1 IH2]. split; [exact IH1 | congruence]. }
  induction nows as [| now nows IH]; intros s Hst Hpos.
  - split; [intros _; split; reflexivity | intros Hex; inversion Hex].
  - change (run (map (fun now => RunTask1 now false) (now :: nows)) s)
      with (run (map (fun now => RunTask1 now false) nows) (task1ButtonAndLed now false s)).
    destruct (Hstep now s Hst) as [Hst' Hs].
    destruct (Z.eqb_spec (offAt s) 0) as [| _]; [lia |]. cbn [negb andb] in Hs.
    destruct (Z.geb_spec now (offAt s)) as [Hexp | Hahead].
    + (* expired at this tick *)
      destruct Hs as [Ho Hl].
      destruct (Hoff nows _ Hst' Ho) as [H1 H2].
      split.
      * intros Hall. pose proof (Forall_inv Hall). cbn beta in *. lia.
      * intros _. split; [exact H1 | congruence].
    + destruct Hs as [Ho Hl].
      destruct (IH _ Hst' ltac:(lia)) as [IHa IHe]. rewrite Ho, Hl in *.
      split.
      * intros Hall. apply IHa. exact (Forall_inv_tail Hall).
      * intros Hex. apply Exists_cons in Hex as [Hex | Hex]; [lia | apply IHe; exact Hex].
Qed.

(** X5. The indicator timers are one-shot.  While the button stays
    released and idle, an armed indicator LED (green or red) keeps its
    level and its timer through every run of Task 1 that comes before
    [offAt]; once a run has come at or after [offAt], the LED is off and the
    timer cleared, and they stay so. *)
Theorem indicator_timer_is_one_shot (nows : list Z) (s : Lab) :
  s_btnState (task1 s) = BTN_IDLE ->
  let s' := run (map (fun now => RunTask1 now false) nows) s in
  (0 < s_greenLedOffAt (task1 s) ->
   (Forall (fun now => now < s_greenLedOffAt (task1 s)) nows ->
    s_greenLedOffAt (task1 s') = s_greenLedOffAt (task1 s) /\
    pinLevel PIN_LED_GREEN s' = pinLevel PIN_LED_GREEN s) /\
   (Exists (fun now => s_greenLedOffAt (task1 s) <= now) nows ->
    s_greenLedOffAt (task1 s') = 0 /\ pinLevel PIN_LED_GREEN s' = LOW)) /\
  (0 < s_redLedOffAt (task1 s) ->
   (Forall (fun now => now < s_redLedOffAt (task1 s)) nows ->
    s_redLedOffAt (task1 s') = s_redLedOffAt (task1 s) /\
    pinLevel PIN_LED_RED s' = pinLevel PIN_LED_RED s) /\
   (Exists (fun now => s_redLedOffAt (task1 s) <= now) nows ->
    s_redLedOffAt (task1 s') = 0 /\ pinLevel PIN_LED_RED s' = LOW)).
Proof.
  intros Hst. cbn zeta. split; intros Hpos.
  - apply (one_shot_run (fun x => s_greenLedOffAt (task1 x)) (pinLevel PIN_LED_GREEN));
      [| exact Hst | exact Hpos].
    intros now x Hx. destruct (idle_tick now x Hx) as (H1 & H2 & _). split; assumption.
  - apply (one_shot_run (fun x => s_redLedOffAt (task1 x)) (pinLevel PIN_LED_RED));
      [| exact Hst | exact Hpos].
    intros now x Hx. destruct (idle_tick now x Hx) as (H1 & _ & H3). split; assumption.
Qed.

(** The green LED armed until 3250 ms, with Task 1 run at 3240, 3250 and
    3260 ms. *)
Lemma indicator_timer_is_one_shot_witness :
  let s := mkLab (mkShared false 0 false 0 0 0 0)
                 (mkTask1Private BTN_IDLE 0 0 0 3250 0)
                 (mkTask2Private 0 0 false) [(PIN_LED_GREEN, HIGH)] [] in
  let s' := run (map (fun now => RunTask1 now false) [3240; 3250; 3260]) s in
  s_greenLedOffAt (task1 s') = 0 /\ pinLevel PIN_LED_GREEN s' = LOW.
Proof.
  intros s s'.
  destruct (indicator_timer_is_one_shot [3240; 3250; 3260] s) as [Hg _];
    [reflexivity |].
  destruct Hg as [_ He]; [vm_compute; reflexivity |].
  apply He. right. left. vm_compute. congruence.
Defined.

(** *** The blink sequencer, step by step *)

Lemma u8_small (x : Z) : 0 <= x < 256 -> u8 x = x.
Proof. intros H. unfold u8. apply Z.mod_small. exact H. Qed.

(** A press that Task 2 consumes leaves no step due in the same run. *)
Lemma task2_after_consume (now : Z) (s : Lab) :
  g_newPress (shared s) = true ->
  task2StatisticsAndBlink now s = task2Consume now s.
Proof.
  intros Hp. unfold task2StatisticsAndBlink.
  destruct (task2Consume_pending now s Hp) as (_ & Hlast & _).
  destruct (task2Advance_cases now (task2Consume now s)) as [(_ & Hel & _) | Heq];
    [| exact Heq].
  rewrite Hlast, Z.sub_diag in Hel. vm_compute in Hel. congruence.
Qed.

(** One run of Task 2 at least a half-period after the last toggle, with
    [n] steps remaining and no press pending. *)
Lemma blink_step (t t0 n : Z) (s : Lab) :
  g_newPress (shared s) = false ->
  s_blinkStepsRemaining (task2 s) = n -> 0 < n <= 255 ->
  s_blinkLastToggle (task2 s) = u32 t0 ->
  BLINK_HALF_PERIOD_MS <= t - t0 < 4294967296 ->
  let s' := task2StatisticsAndBlink (u32 t) s in
  shared s' = shared s /\
  s_blinkStepsRemaining (task2 s') = n - 1 /\
  s_blinkLastToggle (task2 s') = u32 t /\
  s_yellowLedOn (task2 s') = (if n - 1 =? 0 then false else negb (s_yellowLedOn (task2 s))) /\
  pinLevel PIN_LED_YELLOW s' = s_yellowLedOn (task2 s').
Proof.
  intros Hp Hn Hrange Hlast Hel. cbn zeta. unfold BLINK_HALF_PERIOD_MS in Hel.
  unfold task2StatisticsAndBlink. rewrite (task2Consume_idle _ s Hp).
  unfold task2Advance, BLINK_HALF_PERIOD_MS. rewrite Hn, Hlast.
  destruct (Z.gtb_spec n 0); [| lia].
  rewrite u32_elapsed by lia.
  destruct (Z.geb_spec (t - t0) 100); [| lia].
  lab_simpl. rewrite Hn, u8_small by lia.
  destruct (n - 1 =? 0); lab_simpl.
  - repeat split.
  - repeat split.
    destruct (s_yellowLedOn (task2 s)); reflexivity.
Qed.

(** X6. The blink sequencer counts its steps.  With [n] steps remaining,
    no press pending and the pin at the level [s_yellowLedOn] records, [k]
    runs of Task 2, [k <= n], each at least [BLINK_HALF_PERIOD_MS] after
    the toggle before it, leave [n - k] steps; the LED has changed its
    state [k] times, except that it is off once no step remains; the pin
    follows, and the shared globals are untouched. *)
Theorem blink_sequence_counts_steps (ts : list Z) :
  forall (s : Lab) (n t0 : Z),
    g_newPress (shared s) = false ->
    s_blinkStepsRemaining (task2 s) = n -> 0 < n <= 255 ->
    s_blinkLastToggle (task2 s) = u32 t0 ->
    pinLevel PIN_LED_YELLOW s = s_yellowLedOn (task2 s) ->
    spaced BLINK_HALF_PERIOD_MS t0 ts ->
    Z.of_nat (length ts) <= n ->
    let s' := run (map (fun t => RunTask2 (u32 t)) ts) s in
    shared s' = shared s /\
    s_blinkStepsRemaining (task2 s') = n - Z.of_nat (length ts) /\
    s_yellowLedOn (task2 s')
    = (if Z.of_nat (length ts) =? n then false
       else xorb (s_yellowLedOn (task2 s)) (Nat.odd (length ts))) /\
    pinLevel PIN_LED_YELLOW s' = s_yellowLedOn (task2 s').
Proof.
  induction ts as [| t ts IH]; intros s n t0 Hp Hn Hrange Hlast Hpin Hsp Hlen; cbn zeta.
  - cbn [length map run fold_left]. change (Z.of_nat 0) with 0.
    destruct (Z.eqb_spec 0 n); [lia |].
    rewrite xorb_false_r, Z.sub_0_r. repeat split; assumption.
  - destruct Hsp as [Hel Hsp].
    change (run (map (fun t => RunTask2 (u32 t)) (t :: ts)) s)
      with (run (map (fun t => RunTask2 (u32 t)) ts) (task2StatisticsAndBlink (u32 t) s)).
    destruct (blink_step t t0 n s Hp Hn Hrange Hlast Hel) as (Hsh & Hst & Hlt & Hon & Hlv).
    set (s1 := task2StatisticsAndBlink (u32 t) s) in *.
    change (length (t :: ts)) with (S (length ts)) in *.
    destruct ts as [| t' ts'].
    + (* the last run *)
      cbn [length map run fold_left]. change (Z.of_nat 1) with 1.
      rewrite Hon. split; [exact Hsh |]. split; [exact Hst |].
      split; [| rewrite Hlv, Hon; reflexivity].
      destruct (Z.eqb_spec (n - 1) 0), (Z.eqb_spec 1 n); try lia; reflexivity.
    + assert (Hn1 : 0 < n - 1 <= 255) by (cbn [length] in Hlen; lia).
      destruct (IH s1 (n - 1) t) as (IH1 & IH2 & IH3 & IH4);
        try assumption; [congruence | cbn [length] in *; lia |].
      split; [congruence |]. split; [rewrite IH2; lia |].
      split; [| exact IH4].
      rewrite IH3, Hon.
      destruct (Z.eqb_spec (n - 1) 0); [lia |].
      destruct (Z.eqb_spec (Z.of_nat (length (t' :: ts'))) (n - 1)),
               (Z.eqb_spec (Z.of_nat (S (length (t' :: ts')))) n); try lia; try reflexivity.
      rewrite Nat.odd_succ, <- Nat.negb_odd.
      destruct (s_yellowLedOn (task2 s)), (Nat.odd (length (t' :: ts'))); reflexivity.
Qed.

(** Ten steps armed at 510 ms with the LED on, and four runs 100 ms apart:
    six steps remain and the LED is on again. *)
Lemma blink_sequence_counts_steps_witness :
  let s := mkLab (mkShared false 300 true 1 1 0 300)
                 (mkTask1Private BTN_IDLE 0 0 0 0 0)
                 (mkTask2Private 10 510 true) [(PIN_LED_YELLOW, HIGH)] [] in
  let s' := run (map (fun t => RunTask2 (u32 t)) [610; 710; 810; 910]) s in
  s_blinkStepsRemaining (task2 s') = 6 /\
  s_yellowLedOn (task2 s') = true /\
  pinLevel PIN_LED_YELLOW s' = true.
Proof.
  intros s s'.
  destruct (blink_sequence_counts_steps [610; 710; 810; 910] s 10 510)
    as (_ & H2 & H3 & H4).
  - reflexivity.
  - reflexivity.
  - lia.
  - reflexivity.
  - reflexivity.
  - cbn [spaced]. unfold BLINK_HALF_PERIOD_MS. lia.
  - cbn [length]. lia.
  - subst s'. split; [exact H2 |]. split; [exact H3 |]. rewrite H4. exact H3.
Defined.

(** *** From the button to the counters *)

(** X7. The hand-over of a press.  When Task 1 confirms a release, the
    next run of the Statistics task clears the pending flag, adds one to
    the total and to the counter of the press's class, adds its duration to
    the sum, arms the sequencer with 10 steps for a short press and 20 for
    a long one and switches the yellow LED on; a further run of the
    Statistics task finds nothing pending and leaves the shared globals
    alone: a published press is counted once. *)
Theorem press_is_counted_once (now now2 now3 : Z) (s : Lab) :
  s_btnState (task1 s) = BTN_DEBOUNCE_UP ->
  DEBOUNCE_MS <= u32 (now - s_debounceStart (task1 s)) ->
  let duration := u32 (s_pressEnd (task1 s) - s_pressStart (task1 s)) in
  let s1 := task1ButtonAndLed now false s in
  let s2 := task2StatisticsAndBlink now2 s1 in
  let s3 := task2StatisticsAndBlink now3 s2 in
  g_newPress (shared s1) = true /\
  g_newPress (shared s2) = false /\
  g_totalPresses (shared s2) = u32 (g_totalPresses (shared s) + 1) /\
  g_totalDurationMs (shared s2) = u32 (g_totalDurationMs (shared s) + duration) /\
  (duration < SHORT_PRESS_THRESHOLD_MS ->
   g_shortPresses (shared s2) = u32 (g_shortPresses (shared s) + 1) /\
   g_longPresses (shared s2) = g_longPresses (shared s) /\
   s_blinkStepsRemaining (task2 s2) = BLINK_STEPS_SHORT) /\
  (SHORT_PRESS_THRESHOLD_MS <= duration ->
   g_shortPresses (shared s2) = g_shortPresses (shared s) /\
   g_longPresses (shared s2) = u32 (g_longPresses (shared s) + 1) /\
   s_blinkStepsRemaining (task2 s2) = BLINK_STEPS_LONG) /\
  s_yellowLedOn (task2 s2) = true /\
  pinLevel PIN_LED_YELLOW s2 = HIGH /\
  s_blinkLastToggle (task2 s2) = now2 /\
  shared s3 = shared s2.
Proof.
  intros Hst Hel. cbn zeta.
  set (duration := u32 (s_pressEnd (task1 s) - s_pressStart (task1 s))).
  set (s1 := task1ButtonAndLed now false s).
  assert (Hsh1 : shared s1 = published duration (shared s)).
  { pose proof (debounce_up_confirm now
                  (s_debounceStart (task1 s)) (s_pressStart (task1 s))
                  (s_pressEnd (task1 s)) (shared s) (indicatorOns (pinWrites s)) s) as Hv.
    unfold buttonView in Hv. rewrite Hst in Hv.
    specialize (Hv eq_refl Hel). unfold s1, duration. congruence. }
  assert (Hp1 : g_newPress (shared s1) = true) by (rewrite Hsh1; reflexivity).
  split; [exact Hp1 |].
  rewrite (task2_after_consume now2 s1 Hp1).
  destruct (task2Consume_pending now2 s1 Hp1) as (_ & Hlast & Hon & Hlvl).
  assert (Hp2 : g_newPress (shared (task2Consume now2 s1)) = false).
  { unfold task2Consume. rewrite Hp1. lab_simpl.
    destruct (g_isShortPress (shared s1)); reflexivity. }
  split; [exact Hp2 |].
  assert (Hcount :
    g_totalPresses (shared (task2Consume now2 s1)) = u32 (g_totalPresses (shared s) + 1) /\
    g_totalDurationMs (shared (task2Consume now2 s1))
    = u32 (g_totalDurationMs (shared s) + duration) /\
    (duration < SHORT_PRESS_THRESHOLD_MS ->
     g_shortPresses (shared (task2Consume now2 s1)) = u32 (g_shortPresses (shared s) + 1) /\
     g_longPresses (shared (task2Consume now2 s1)) = g_longPresses (shared s) /\
     s_blinkStepsRemaining (task2 (task2Consume now2 s1)) = BLINK_STEPS_SHORT) /\
    (SHORT_PRESS_THRESHOLD_MS <= duration ->
     g_shortPresses (shared (task2Consume now2 s1)) = g_shortPresses (shared s) /\
     g_longPresses (shared (task2Consume now2 s1)) = u32 (g_longPresses (shared s) + 1) /\
     s_blinkStepsRemaining (task2 (task2Consume now2 s1)) = BLINK_STEPS_LONG)).
  { unfold task2Consume. rewrite Hp1. lab_simpl. rewrite Hsh1. unfold published.
    cbn [g_isShortPress g_totalPresses g_totalDurationMs g_lastPressDuration
         g_shortPresses g_longPresses].
    destruct (Z.ltb_spec duration SHORT_PRESS_THRESHOLD_MS); lab_simpl;
      rewrite ?Hsh1; unfold published; cbn [g_shortPresses g_longPresses];
      (split; [reflexivity |]); (split; [reflexivity |]);
      (split; intros; [try lia | try lia]); repeat split. }
  destruct Hcount as (H1 & H2 & H3 & H4).
  do 4 (split; [assumption |]).
  split; [exact Hon |]. split; [exact Hlvl |]. split; [exact Hlast |].
  destruct (task2_counters now3 (task2Consume now2 s1)) as [[_ Heq] | [Habs _]];
    [exact Heq | congruence].
Qed.

(** A press of 300 ms confirmed released at 500 ms and counted at 510 ms. *)
Lemma press_is_counted_once_witness :
  let s := mkLab (mkShared false 0 false 0 0 0 0)
                 (mkTask1Private BTN_DEBOUNCE_UP 450 150 450 0 0)
                 (mkTask2Private 0 0 false) [] [] in
  let s2 := task2StatisticsAndBlink 510 (task1ButtonAndLed 500 false s) in
  shared s2 = mkShared false 300 true 1 1 0 300 /\
  s_blinkStepsRemaining (task2 s2) = 10 /\
  shared (task2StatisticsAndBlink 560 s2) = shared s2.
Proof.
  intros s s2.
  destruct (press_is_counted_once 500 510 560 s)
    as (_ & _ & _ & _ & _ & _ & _ & _ & _ & H10).
  - reflexivity.
  - vm_compute. congruence.
  - split; [vm_compute; reflexivity |]. split; [vm_compute; reflexivity | exact H10].
Defined.

(** ** C strings *)

Section CStringProps.
Import CString.

Lemma bytes_eqb_eq (a b : list ascii) : bytes_eqb a b = true <-> a = b.
Proof.
  revert b. induction a as [| x a IH]; intros [| y b]; cbn; split; intros H;
    try reflexivity; try discriminate.
  - apply andb_true_iff in H as [Hx Hab].
    apply Ascii.eqb_eq in Hx. apply IH in Hab. congruence.
  - injection H as -> ->. apply andb_true_iff. split; [apply Ascii.eqb_refl | apply IH; reflexivity].
Qed.

Lemma strcmp_is_0_iff (a b : list ascii) : strcmp_is_0 a b = true <-> cstr a = cstr b.
Proof. unfold strcmp_is_0. apply bytes_eqb_eq. Qed.

(** Characters none of which is NUL, followed by a NUL, are the string. *)
Lemma cstr_app_NUL (ds rest : list ascii) :
  Forall (fun c => c <> NUL) ds -> cstr (ds ++ NUL :: rest) = ds.
Proof.
  induction ds as [| d ds IH]; intros Hds; [reflexivity |].
  pose proof (Forall_inv Hds) as Hd. pose proof (Forall_inv_tail Hds) as Hds'.
  cbn. destruct (Ascii.eqb_spec d NUL); [contradiction |].
  rewrite IH by exact Hds'. reflexivity.
Qed.

Lemma cstr_literal (s : string) :
  Forall (fun c => c <> NUL) (list_ascii_of_string s) ->
  cstr (literal s) = list_ascii_of_string s.
Proof. apply cstr_app_NUL. Qed.

Lemma length_strncpy (dest src : list ascii) (n : nat) :
  (n <= length dest)%nat -> length (strncpy dest src n) = length dest.
Proof.
  intros Hn. unfold strncpy.
  rewrite length_app, length_take, length_app, length_replicate, length_drop. lia.
Qed.

(** What [strncpy] leaves in the first [n] bytes when the source string is
    no longer than [n]. *)
Lemma strncpy_short (dest src : list ascii) (n : nat) :
  (length (cstr src) <= n)%nat ->
  strncpy dest src n
  = cstr src ++ replicate (n - length (cstr src)) NUL ++ drop n dest.
Proof.
  intros Hlen. unfold strncpy.
  rewrite take_app_ge by exact Hlen.
  rewrite take_replicate, <- app_assoc.
  replace ((n - length (cstr src)) `min` n)%nat with (n - length (cstr src))%nat by lia.
  reflexivity.
Qed.

(** The string of an array has no NUL in it. *)
Lemma cstr_no_NUL (buf : list ascii) : Forall (fun c => c <> NUL) (cstr buf).
Proof.
  induction buf as [| c buf IH]; [constructor |].
  cbn. destruct (Ascii.eqb_spec c NUL); [constructor |].
  constructor; assumption.
Qed.

(** [strncpy(dest, src, n); dest[n] = 0] on an array of [n + 1] chars
    leaves the string of [src] in it, if that has at most [n] chars. *)
Lemma cstr_strncpy_terminated (dest src : list ascii) (n : nat) :
  length dest = S n -> (length (cstr src) <= n)%nat ->
  cstr (<[n := NUL]> (strncpy dest src n)) = cstr src.
Proof.
  intros Hd Hs. rewrite strncpy_short by exact Hs.
  rewrite insert_app_r_alt by exact Hs.
  destruct (n - length (cstr src))%nat as [| k] eqn:Ek.
  - cbn [replicate app].
    destruct (drop n dest) as [| x rest] eqn:Edrop.
    + apply (f_equal length) in Edrop. rewrite length_drop in Edrop. cbn in Edrop. lia.
    + cbn. apply cstr_app_NUL, cstr_no_NUL.
  - cbn [replicate app]. cbn [insert list_insert]. apply cstr_app_NUL, cstr_no_NUL.
Qed.

(** [strncpy(dest, src, n)] with [n] the size of [dest] leaves the string
    of [src] in it, if that has fewer than [n] chars. *)
Lemma cstr_strncpy_whole (dest src : list ascii) (n : nat) :
  (length (cstr src) < n)%nat ->
  cstr (strncpy dest src n) = cstr src.
Proof.
  intros Hs. rewrite strncpy_short by lia.
  destruct (n - length (cstr src))%nat as [| k] eqn:Ek; [lia |].
  cbn [replicate app]. apply cstr_app_NUL, cstr_no_NUL.
Qed.

End CStringProps.

(** ** LockFSM *)

Section LockFsmProps.
Import CString LockFsm.

(** Evaluates the projections of an object built by the assignments to
    its members and by the private helpers. *)
Ltac fsm_simpl :=
  cbn [set_state set_locked set_password set_inputBuffer set_oldPwdBuffer set_inputLen
       set_display set_displayChanged set_resultStartTime printf
       clearInput showLines updateDisplay setState setResult
       _state _locked _password _inputBuffer _oldPwdBuffer _inputLen _display
       _displayChanged _resultStartTime stdout line1 line2] in *.

Lemma digit_not_NUL (c : ascii) : isDigitKey c = true -> c <> NUL.
Proof. intros H ->. vm_compute in H. discriminate. Qed.

Lemma digits_not_NUL (ds : list ascii) :
  Forall (fun c => isDigitKey c = true) ds -> Forall (fun c => c <> NUL) ds.
Proof. intros H. eapply Forall_impl; [exact H | exact digit_not_NUL]. Qed.

(** A buffer that [holds] digits is the C string of these digits. *)
Lemma holds_cstr (buf ds : list ascii) : holds buf ds -> cstr buf = ds.
Proof.
  intros (Hlen & Hds & Hdig & Htake & Hnul).
  rewrite <- (take_drop (length ds) buf), Htake.
  rewrite (drop_S _ _ _ Hnul).
  apply cstr_app_NUL, digits_not_NUL, Hdig.
Qed.

Lemma holds_length (buf ds : list ascii) : holds buf ds -> (length ds <= 8)%nat.
Proof. intros (_ & H & _). exact H. Qed.

(** [buf[0] = 0] empties a buffer. *)
Lemma holds_clear (buf : list ascii) :
  length buf = 9%nat -> holds (<[0%nat := NUL]> buf) [].
Proof.
  intros Hlen. unfold holds. rewrite length_insert. cbn [length take].
  repeat split; try lia; [constructor |].
  apply list_lookup_insert_eq. lia.
Qed.

(** The two writes of [appendDigit]. *)
Lemma holds_append (buf ds : list ascii) (d : ascii) :
  holds buf ds -> (length ds < 8)%nat -> isDigitKey d = true ->
  holds (<[S (length ds) := NUL]> (<[length ds := d]> buf)) (ds ++ [d]).
Proof.
  intros (Hlen & Hds & Hdig & Htake & Hnul) Hlt Hd. unfold holds.
  rewrite !length_insert, length_app. cbn [length].
  replace (length ds + 1)%nat with (S (length ds)) by lia.
  split; [exact Hlen |]. split; [lia |].
  split; [apply Forall_app; split; [exact Hdig | repeat constructor; exact Hd] |].
  split.
  - rewrite take_insert_ge by lia.
    rewrite (take_S_r _ _ d) by (apply list_lookup_insert_eq; lia).
    rewrite take_insert_ge by lia. rewrite Htake. reflexivity.
  - apply list_lookup_insert_eq. rewrite length_insert. lia.
Qed.

(** [strncpy(dest, src, MAX_PWD_LEN); dest[MAX_PWD_LEN] = 0] copies a
    string of at most eight digits. *)
Lemma holds_copy (dest src ds : list ascii) :
  cstr src = ds -> (length ds <= 8)%nat ->
  Forall (fun c => isDigitKey c = true) ds ->
  length dest = 9%nat ->
  holds (<[8%nat := NUL]> (strncpy dest src 8)) ds.
Proof.
  intros Hsrc Hds Hdig Hlen. unfold holds.
  rewrite length_insert, length_strncpy by lia.
  split; [exact Hlen |]. split; [exact Hds |]. split; [exact Hdig |].
  rewrite strncpy_short by (rewrite Hsrc; exact Hds). rewrite Hsrc.
  split.
  - rewrite take_insert_ge by lia. apply take_app_length.
  - destruct (decide (length ds = 8%nat)) as [E | NE].
    + rewrite E. apply list_lookup_insert_eq.
      rewrite !length_app, length_replicate, length_drop. lia.
    + rewrite list_lookup_insert_ne by lia.
      rewrite lookup_app_r by lia. rewrite Nat.sub_diag.
      destruct (8 - length ds)%nat as [| k] eqn:Ek; [lia |]. reflexivity.
Qed.

(** *** The representation invariant *)

Lemma wf_printf (fmt : string) (args : list PrintfArg) (f : LockFSM) :
  wellFormed f -> wellFormed (printf fmt args f).
Proof. intros H. exact H. Qed.

Lemma wf_set_state (st : LockFSMState) (f : LockFSM) :
  wellFormed f -> wellFormed (set_state st f).
Proof. intros H. exact H. Qed.

Lemma wf_set_locked (v : bool) (f : LockFSM) :
  wellFormed f -> wellFormed (set_locked v f).
Proof. intros H. exact H. Qed.

Lemma wf_showLines (l1 l2 : list ascii) (f : LockFSM) :
  wellFormed f -> wellFormed (showLines l1 l2 f).
Proof.
  intros (Hpw & Hib & Hob & Hl1 & Hl2). unfold wellFormed. fsm_simpl.
  rewrite !length_strncpy by lia. repeat split; assumption.
Qed.

Lemma wf_updateDisplay (f : LockFSM) : wellFormed f -> wellFormed (updateDisplay f).
Proof.
  intros H. unfold updateDisplay.
  assert (Hc : wellFormed (set_displayChanged true f)) by exact H.
  change (_state (set_displayChanged true f)) with (_state f).
  destruct (_state f); try (apply wf_showLines; exact Hc); exact Hc.
Qed.

Lemma wf_setState (st : LockFSMState) (f : LockFSM) :
  wellFormed f -> wellFormed (setState st f).
Proof.
  intros H. unfold setState. apply wf_updateDisplay, wf_printf, wf_set_state, H.
Qed.

Lemma wf_setResult (now : Z) (l1 l2 : list ascii) (f : LockFSM) :
  wellFormed f -> wellFormed (setResult now l1 l2 f).
Proof.
  intros (Hpw & Hib & Hob & Hl1 & Hl2). unfold wellFormed, setResult. fsm_simpl.
  rewrite !length_insert, !length_strncpy by lia. repeat split; assumption.
Qed.

Lemma wf_clearInput (f : LockFSM) : wellFormed f -> wellFormed (clearInput f).
Proof.
  intros (Hpw & (ds & Hib & Hil) & Hob & Hl1 & Hl2). unfold wellFormed. fsm_simpl.
  split; [exact Hpw |]. split; [| repeat split; assumption].
  exists []. split; [| reflexivity].
  apply holds_clear. destruct Hib as [Hlen _]. exact Hlen.
Qed.

(** [appendDigit] appends a digit while fewer than eight are held, and
    drops it otherwise; it touches nothing but the input buffer and its
    length. *)
Lemma appendDigit_input (d : ascii) (f : LockFSM) (ds : list ascii) :
  holds (_inputBuffer f) ds ->
  _inputLen f = Z.of_nat (length ds) ->
  isDigitKey d = true ->
  holds (_inputBuffer (appendDigit d f)) (take 8 (ds ++ [d])) /\
  _inputLen (appendDigit d f) = Z.of_nat (length (take 8 (ds ++ [d]))) /\
  _state (appendDigit d f) = _state f /\
  _locked (appendDigit d f) = _locked f /\
  _password (appendDigit d f) = _password f /\
  _oldPwdBuffer (appendDigit d f) = _oldPwdBuffer f /\
  _display (appendDigit d f) = _display f.
Proof.
  intros Hib Hil Hd. pose proof (holds_length _ _ Hib) as Hle.
  unfold appendDigit, MAX_PWD_LEN. rewrite Hil.
  destruct (Z.ltb_spec (Z.of_nat (length ds)) 8) as [Hlt | Hge].
  - fsm_simpl. rewrite Hil.
    rewrite u8_small by lia.
    replace (Z.to_nat (Z.of_nat (length ds) + 1)) with (S (length ds)) by lia.
    rewrite Nat2Z.id.
    rewrite take_ge by (rewrite length_app; cbn [length]; lia).
    split; [apply holds_append; [exact Hib | lia | exact Hd] |].
    split; [rewrite length_app; cbn [length]; lia |].
    repeat split.
  - assert (length ds = 8%nat) as E by lia.
    rewrite take_app_le by lia. rewrite take_ge by lia.
    split; [exact Hib |]. split; [exact Hil |]. repeat split.
Qed.

Lemma wf_appendDigit (d : ascii) (f : LockFSM) :
  isDigitKey d = true -> wellFormed f -> wellFormed (appendDigit d f).
Proof.
  intros Hd (Hpw & (ds & Hib & Hil) & Hob & Hl1 & Hl2).
  destruct (appendDigit_input d f ds Hib Hil Hd) as (H1 & H2 & _ & _ & H5 & H6 & H7).
  unfold wellFormed. rewrite H5, H6, H7.
  split; [exact Hpw |]. split; [| repeat split; assumption].
  exists (take 8 (ds ++ [d])). split; assumption.
Qed.

(** The two statements that save the input as the old password. *)
Lemma wf_saveOld (f : LockFSM) :
  wellFormed f ->
  wellFormed (set_oldPwdBuffer
                (<[8%nat := NUL]> (strncpy (_oldPwdBuffer f) (_inputBuffer f) 8)) f).
Proof.
  intros (Hpw & (ds & Hib & Hil) & (old & Hob) & Hl1 & Hl2). unfold wellFormed. fsm_simpl.
  split; [exact Hpw |]. split; [exists ds; split; assumption |].
  split; [| split; assumption].
  exists ds. destruct Hib as (Hlen & Hds & Hdig & Ht & Hn).
  apply holds_copy; [apply holds_cstr; repeat split; assumption | exact Hds | exact Hdig |].
  destruct Hob as [Hlo _]. exact Hlo.
Qed.

(** The two statements that store the input as the new password, reached
    with at least one digit entered. *)
Lemma wf_storePassword (f : LockFSM) :
  wellFormed f -> 0 < _inputLen f ->
  wellFormed (set_password
                (<[8%nat := NUL]> (strncpy (_password f) (_inputBuffer f) 8)) f).
Proof.
  intros ((pwd & Hpw & Hne) & (ds & Hib & Hil) & Hob & Hl1 & Hl2) Hpos.
  unfold wellFormed. fsm_simpl.
  split; [| split; [exists ds; split; assumption | repeat split; assumption]].
  exists ds. split.
  - destruct Hib as (Hlen & Hds & Hdig & Ht & Hn).
    apply holds_copy; [apply holds_cstr; repeat split; assumption | exact Hds | exact Hdig |].
    destruct Hpw as [Hlp _]. exact Hlp.
  - intros ->. cbn in Hil. lia.
Qed.

Lemma wf_clearOld (f : LockFSM) :
  wellFormed f -> wellFormed (set_oldPwdBuffer (<[0%nat := NUL]> (_oldPwdBuffer f)) f).
Proof.
  intros (Hpw & Hib & (old & Hob) & Hl1 & Hl2). unfold wellFormed. fsm_simpl.
  split; [exact Hpw |]. split; [exact Hib |]. split; [| split; assumption].
  exists []. apply holds_clear. destruct Hob as [Hlen _]. exact Hlen.
Qed.

Create HintDb lockwf.

#[local] Hint Resolve wf_printf wf_set_locked wf_updateDisplay wf_setState wf_setResult
  wf_clearInput wf_appendDigit wf_saveOld wf_storePassword wf_clearOld : lockwf.

(** [processKey] keeps the invariant, whatever the key. *)
Lemma processKey_wf (now : Z) (key : ascii) (f : LockFSM) :
  wellFormed f -> wellFormed (processKey now key f).
Proof.
  intros Hwf. unfold processKey.
  destruct (Ascii.eqb key NUL); [exact Hwf |].
  set (g := printf _ _ f).
  assert (Hg : wellFormed g) by exact Hwf.
  change (_state g) with (_state f). clearbody g.
  destruct (_state f);
    repeat match goal with
           | |- wellFormed (if ?c then _ else _) => destruct c eqn:?
           | |- wellFormed (clearInput _) => apply wf_clearInput
           | |- wellFormed (set_oldPwdBuffer (<[0%nat := NUL]> _) _) => apply wf_clearOld
           end;
    auto 10 with lockwf.
  - (* the old password is saved *)
    apply wf_setState, wf_clearInput.
    exact (wf_saveOld g Hg).
  - (* the new password is stored *)
    apply wf_setResult, wf_printf.
    refine (wf_storePassword g Hg _).
    match goal with H : (_ >? 0) = true |- _ => apply Z.gtb_lt in H; lia end.
Qed.

Lemma update_wf (now : Z) (f : LockFSM) : wellFormed f -> wellFormed (update now f).
Proof.
  intros Hwf. unfold update.
  destruct (_state f); try exact Hwf.
  destruct (u32 (now - _resultStartTime f) >=? RESULT_DISPLAY_MS);
    [apply wf_setState |]; exact Hwf.
Qed.

Lemma constructed_wf : wellFormed constructed.
Proof.
  unfold wellFormed, constructed. cbn [_password _inputBuffer _oldPwdBuffer _inputLen
                                       _display line1 line2].
  split; [exists (list_ascii_of_string "1234"); split; [| discriminate] |].
  - apply holds_copy; [reflexivity | cbn; lia | repeat constructor | reflexivity].
  - split; [exists []; split; [apply holds_clear | ]; reflexivity |].
    split; [exists []; apply holds_clear; reflexivity |].
    split; reflexivity.
Qed.

Lemma init_wf (f : LockFSM) : wellFormed f -> wellFormed (init f).
Proof.
  intros ((pwd & Hpw & Hne) & Hib & Hob & Hl1 & Hl2). unfold init.
  apply wf_printf, wf_updateDisplay, wf_clearOld, wf_clearInput.
  unfold wellFormed. fsm_simpl.
  split; [| repeat split; assumption].
  exists (list_ascii_of_string "1234"). split; [| discriminate].
  apply holds_copy; [reflexivity | cbn; lia | repeat constructor |].
  destruct Hpw as [Hlen _]. exact Hlen.
Qed.

Lemma perform_wf (c : Call) (f : LockFSM) : wellFormed f -> wellFormed (perform c f).
Proof. destruct c; [apply processKey_wf | apply update_wf]. Qed.

Lemma performAll_wf (cs : list Call) :
  forall f, wellFormed f -> wellFormed (performAll cs f).
Proof.
  induction cs as [| c cs IH]; intros f Hwf; [exact Hwf |].
  apply IH, perform_wf, Hwf.
Qed.

(** X8. The buffers of the lock stay within bounds.  After [init] and any
    sequence of [processKey] and [update] calls, with any keys at any
    times: the three password buffers are NUL-terminated arrays of nine
    chars; [_inputLen] lies between 0 and [MAX_PWD_LEN] and is the length
    of the string in [_inputBuffer], which consists of digits; and the
    password is a string of one to eight digits. *)
Theorem lock_buffers_stay_in_bounds (cs : list Call) :
  let f := performAll cs (init constructed) in
  wellFormed f /\
  0 <= _inputLen f <= MAX_PWD_LEN /\
  strlen (_inputBuffer f) = _inputLen f /\
  Forall (fun c => isDigitKey c = true) (cstr (_inputBuffer f)) /\
  0 < strlen (_password f) <= MAX_PWD_LEN /\
  Forall (fun c => isDigitKey c = true) (cstr (_password f)).
Proof.
  cbn zeta.
  pose proof (performAll_wf cs _ (init_wf _ constructed_wf)) as Hwf.
  split; [exact Hwf |].
  destruct Hwf as ((pwd & Hpw & Hne) & (ds & Hib & Hil) & _).
  unfold strlen, MAX_PWD_LEN.
  rewrite (holds_cstr _ _ Hib), (holds_cstr _ _ Hpw).
  pose proof (holds_length _ _ Hib). pose proof (holds_length _ _ Hpw).
  destruct Hib as (_ & _ & Hdig & _). destruct Hpw as (_ & _ & Hdigp & _).
  destruct pwd as [| c pwd]; [congruence |]. cbn [length] in *.
  repeat split; try assumption; lia.
Qed.

(** *** The members across the helpers *)

Lemma updateDisplay_frame (f : LockFSM) :
  _state (updateDisplay f) = _state f /\
  _locked (updateDisplay f) = _locked f /\
  _password (updateDisplay f) = _password f /\
  _inputBuffer (updateDisplay f) = _inputBuffer f /\
  _oldPwdBuffer (updateDisplay f) = _oldPwdBuffer f /\
  _inputLen (updateDisplay f) = _inputLen f /\
  _resultStartTime (updateDisplay f) = _resultStartTime f /\
  _displayChanged (updateDisplay f) = true.
Proof.
  unfold updateDisplay.
  change (_state (set_displayChanged true f)) with (_state f).
  destruct (_state f) eqn:E; cbn; rewrite ?E; repeat split.
Qed.

Lemma setState_frame (st : LockFSMState) (f : LockFSM) :
  _state (setState st f) = st /\
  _locked (setState st f) = _locked f /\
  _password (setState st f) = _password f /\
  _inputBuffer (setState st f) = _inputBuffer f /\
  _oldPwdBuffer (setState st f) = _oldPwdBuffer f /\
  _inputLen (setState st f) = _inputLen f /\
  _resultStartTime (setState st f) = _resultStartTime f /\
  _displayChanged (setState st f) = true.
Proof. destruct st; repeat split. Qed.

Lemma state_printf (a : string) (b : list PrintfArg) (f : LockFSM) : _state (printf a b f) = _state f.
Proof. reflexivity. Qed.
Lemma locked_printf (a : string) (b : list PrintfArg) (f : LockFSM) : _locked (printf a b f) = _locked f.
Proof. reflexivity. Qed.
Lemma password_printf (a : string) (b : list PrintfArg) (f : LockFSM) : _password (printf a b f) = _password f.
Proof. reflexivity. Qed.
Lemma inputBuffer_printf (a : string) (b : list PrintfArg) (f : LockFSM) : _inputBuffer (printf a b f) = _inputBuffer f.
Proof. reflexivity. Qed.
Lemma oldPwdBuffer_printf (a : string) (b : list PrintfArg) (f : LockFSM) : _oldPwdBuffer (printf a b f) = _oldPwdBuffer f.
Proof. reflexivity. Qed.
Lemma inputLen_printf (a : string) (b : list PrintfArg) (f : LockFSM) : _inputLen (printf a b f) = _inputLen f.
Proof. reflexivity. Qed.
Lemma display_printf (a : string) (b : list PrintfArg) (f : LockFSM) : _display (printf a b f) = _display f.
Proof. reflexivity. Qed.
Lemma displayChanged_printf (a : string) (b : list PrintfArg) (f : LockFSM) : _displayChanged (printf a b f) = _displayChanged f.
Proof. reflexivity. Qed.
Lemma resultStartTime_printf (a : string) (b : list PrintfArg) (f : LockFSM) : _resultStartTime (printf a b f) = _resultStartTime f.
Proof. reflexivity. Qed.

Lemma state_set_locked (v : bool) (f : LockFSM) : _state (set_locked v f) = _state f.
Proof. reflexivity. Qed.
Lemma locked_set_locked (v : bool) (f : LockFSM) : _locked (set_locked v f) = v.
Proof. reflexivity. Qed.
Lemma password_set_locked (v : bool) (f : LockFSM) : _password (set_locked v f) = _password f.
Proof. reflexivity. Qed.
Lemma inputBuffer_set_locked (v : bool) (f : LockFSM) : _inputBuffer (set_locked v f) = _inputBuffer f.
Proof. reflexivity. Qed.
Lemma oldPwdBuffer_set_locked (v : bool) (f : LockFSM) : _oldPwdBuffer (set_locked v f) = _oldPwdBuffer f.
Proof. reflexivity. Qed.
Lemma inputLen_set_locked (v : bool) (f : LockFSM) : _inputLen (set_locked v f) = _inputLen f.
Proof. reflexivity. Qed.
Lemma display_set_locked (v : bool) (f : LockFSM) : _display (set_locked v f) = _display f.
Proof. reflexivity. Qed.
Lemma displayChanged_set_locked (v : bool) (f : LockFSM) : _displayChanged (set_locked v f) = _displayChanged f.
Proof. reflexivity. Qed.
Lemma resultStartTime_set_locked (v : bool) (f : LockFSM) : _resultStartTime (set_locked v f) = _resultStartTime f.
Proof. reflexivity. Qed.

Lemma state_set_password (v : list ascii) (f : LockFSM) : _state (set_password v f) = _state f.
Proof. reflexivity. Qed.
Lemma locked_set_password (v : list ascii) (f : LockFSM) : _locked (set_password v f) = _locked f.
Proof. reflexivity. Qed.
Lemma password_set_password (v : list ascii) (f : LockFSM) : _password (set_password v f) = v.
Proof. reflexivity. Qed.
Lemma inputBuffer_set_password (v : list ascii) (f : LockFSM) : _inputBuffer (set_password v f) = _inputBuffer f.
Proof. reflexivity. Qed.
Lemma oldPwdBuffer_set_password (v : list ascii) (f : LockFSM) : _oldPwdBuffer (set_password v f) = _oldPwdBuffer f.
Proof. reflexivity. Qed.
Lemma inputLen_set_password (v : list ascii) (f : LockFSM) : _inputLen (set_password v f) = _inputLen f.
Proof. reflexivity. Qed.
Lemma display_set_password (v : list ascii) (f : LockFSM) : _display (set_password v f) = _display f.
Proof. reflexivity. Qed.
Lemma displayChanged_set_password (v : list ascii) (f : LockFSM) : _displayChanged (set_password v f) = _displayChanged f.
Proof. reflexivity. Qed.
Lemma resultStartTime_set_password (v : list ascii) (f : LockFSM) : _resultStartTime (set_password v f) = _resultStartTime f.
Proof. reflexivity. Qed.

Lemma state_set_oldPwdBuffer (v : list ascii) (f : LockFSM) : _state (set_oldPwdBuffer v f) = _state f.
Proof. reflexivity. Qed.
Lemma locked_set_oldPwdBuffer (v : list ascii) (f : LockFSM) : _locked (set_oldPwdBuffer v f) = _locked f.
Proof. reflexivity. Qed.
Lemma password_set_oldPwdBuffer (v : list ascii) (f : LockFSM) : _password (set_oldPwdBuffer v f) = _password f.
Proof. reflexivity. Qed.
Lemma inputBuffer_set_oldPwdBuffer (v : list ascii) (f : LockFSM) : _inputBuffer (set_oldPwdBuffer v f) = _inputBuffer f.
Proof. reflexivity. Qed.
Lemma oldPwdBuffer_set_oldPwdBuffer (v : list ascii) (f : LockFSM) : _oldPwdBuffer (set_oldPwdBuffer v f) = v.
Proof. reflexivity. Qed.
Lemma inputLen_set_oldPwdBuffer (v : list ascii) (f : LockFSM) : _inputLen (set_oldPwdBuffer v f) = _inputLen f.
Proof. reflexivity. Qed.
Lemma display_set_oldPwdBuffer (v : list ascii) (f : LockFSM) : _display (set_oldPwdBuffer v f) = _display f.
Proof. reflexivity. Qed.
Lemma displayChanged_set_oldPwdBuffer (v : list ascii) (f : LockFSM) : _displayChanged (set_oldPwdBuffer v f) = _displayChanged f.
Proof. reflexivity. Qed.
Lemma resultStartTime_set_oldPwdBuffer (v : list ascii) (f : LockFSM) : _resultStartTime (set_oldPwdBuffer v f) = _resultStartTime f.
Proof. reflexivity. Qed.

Lemma state_set_state (v : LockFSMState) (f : LockFSM) : _state (set_state v f) = v.
Proof. reflexivity. Qed.
Lemma locked_set_state (v : LockFSMState) (f : LockFSM) : _locked (set_state v f) = _locked f.
Proof. reflexivity. Qed.
Lemma password_set_state (v : LockFSMState) (f : LockFSM) : _password (set_state v f) = _password f.
Proof. reflexivity. Qed.
Lemma inputBuffer_set_state (v : LockFSMState) (f : LockFSM) : _inputBuffer (set_state v f) = _inputBuffer f.
Proof. reflexivity. Qed.
Lemma oldPwdBuffer_set_state (v : LockFSMState) (f : LockFSM) : _oldPwdBuffer (set_state v f) = _oldPwdBuffer f.
Proof. reflexivity. Qed.
Lemma inputLen_set_state (v : LockFSMState) (f : LockFSM) : _inputLen (set_state v f) = _inputLen f.
Proof. reflexivity. Qed.
Lemma display_set_state (v : LockFSMState) (f : LockFSM) : _display (set_state v f) = _display f.
Proof. reflexivity. Qed.
Lemma displayChanged_set_state (v : LockFSMState) (f : LockFSM) : _displayChanged (set_state v f) = _displayChanged f.
Proof. reflexivity. Qed.
Lemma resultStartTime_set_state (v : LockFSMState) (f : LockFSM) : _resultStartTime (set_state v f) = _resultStartTime f.
Proof. reflexivity. Qed.

Lemma state_clearInput (f : LockFSM) : _state (clearInput f) = _state f.
Proof. reflexivity. Qed.
Lemma locked_clearInput (f : LockFSM) : _locked (clearInput f) = _locked f.
Proof. reflexivity. Qed.
Lemma password_clearInput (f : LockFSM) : _password (clearInput f) = _password f.
Proof. reflexivity. Qed.
Lemma inputBuffer_clearInput (f : LockFSM) : _inputBuffer (clearInput f) = <[0%nat := NUL]> (_inputBuffer f).
Proof. reflexivity. Qed.
Lemma oldPwdBuffer_clearInput (f : LockFSM) : _oldPwdBuffer (clearInput f) = _oldPwdBuffer f.
Proof. reflexivity. Qed.
Lemma inputLen_clearInput (f : LockFSM) : _inputLen (clearInput f) = 0.
Proof. reflexivity. Qed.
Lemma display_clearInput (f : LockFSM) : _display (clearInput f) = _display f.
Proof. reflexivity. Qed.
Lemma displayChanged_clearInput (f : LockFSM) : _displayChanged (clearInput f) = _displayChanged f.
Proof. reflexivity. Qed.
Lemma resultStartTime_clearInput (f : LockFSM) : _resultStartTime (clearInput f) = _resultStartTime f.
Proof. reflexivity. Qed.

Lemma state_updateDisplay (f : LockFSM) : _state (updateDisplay f) = _state f.
Proof. apply updateDisplay_frame. Qed.
Lemma locked_updateDisplay (f : LockFSM) : _locked (updateDisplay f) = _locked f.
Proof. apply updateDisplay_frame. Qed.
Lemma password_updateDisplay (f : LockFSM) : _password (updateDisplay f) = _password f.
Proof. apply updateDisplay_frame. Qed.
Lemma inputBuffer_updateDisplay (f : LockFSM) : _inputBuffer (updateDisplay f) = _inputBuffer f.
Proof. apply updateDisplay_frame. Qed.
Lemma oldPwdBuffer_updateDisplay (f : LockFSM) : _oldPwdBuffer (updateDisplay f) = _oldPwdBuffer f.
Proof. apply updateDisplay_frame. Qed.
Lemma inputLen_updateDisplay (f : LockFSM) : _inputLen (updateDisplay f) = _inputLen f.
Proof. apply updateDisplay_frame. Qed.
Lemma displayChanged_updateDisplay (f : LockFSM) : _displayChanged (updateDisplay f) = true.
Proof. apply updateDisplay_frame. Qed.
Lemma resultStartTime_updateDisplay (f : LockFSM) : _resultStartTime (updateDisplay f) = _resultStartTime f.
Proof. apply updateDisplay_frame. Qed.

Lemma state_setState (st : LockFSMState) (f : LockFSM) : _state (setState st f) = st.
Proof. apply setState_frame. Qed.
Lemma locked_setState (st : LockFSMState) (f : LockFSM) : _locked (setState st f) = _locked f.
Proof. apply setState_frame. Qed.
Lemma password_setState (st : LockFSMState) (f : LockFSM) : _password (setState st f) = _password f.
Proof. apply setState_frame. Qed.
Lemma inputBuffer_setState (st : LockFSMState) (f : LockFSM) : _inputBuffer (setState st f) = _inputBuffer f.
Proof. apply setState_frame. Qed.
Lemma oldPwdBuffer_setState (st : LockFSMState) (f : LockFSM) : _oldPwdBuffer (setState st f) = _oldPwdBuffer f.
Proof. apply setState_frame. Qed.
Lemma inputLen_setState (st : LockFSMState) (f : LockFSM) : _inputLen (setState st f) = _inputLen f.
Proof. apply setState_frame. Qed.
Lemma displayChanged_setState (st : LockFSMState) (f : LockFSM) : _displayChanged (setState st f) = true.
Proof. apply setState_frame. Qed.
Lemma resultStartTime_setState (st : LockFSMState) (f : LockFSM) : _resultStartTime (setState st f) = _resultStartTime f.
Proof. apply setState_frame. Qed.

Lemma state_setResult (now : Z) (l1 l2 : list ascii) (f : LockFSM) : _state (setResult now l1 l2 f) = STATE_SHOW_RESULT.
Proof. reflexivity. Qed.
Lemma locked_setResult (now : Z) (l1 l2 : list ascii) (f : LockFSM) : _locked (setResult now l1 l2 f) = _locked f.
Proof. reflexivity. Qed.
Lemma password_setResult (now : Z) (l1 l2 : list ascii) (f : LockFSM) : _password (setResult now l1 l2 f) = _password f.
Proof. reflexivity. Qed.
Lemma inputBuffer_setResult (now : Z) (l1 l2 : list ascii) (f : LockFSM) : _inputBuffer (setResult now l1 l2 f) = _inputBuffer f.
Proof. reflexivity. Qed.
Lemma oldPwdBuffer_setResult (now : Z) (l1 l2 : list ascii) (f : LockFSM) : _oldPwdBuffer (setResult now l1 l2 f) = _oldPwdBuffer f.
Proof. reflexivity. Qed.
Lemma inputLen_setResult (now : Z) (l1 l2 : list ascii) (f : LockFSM) : _inputLen (setResult now l1 l2 f) = _inputLen f.
Proof. reflexivity. Qed.
Lemma displayChanged_setResult (now : Z) (l1 l2 : list ascii) (f : LockFSM) : _displayChanged (setResult now l1 l2 f) = true.
Proof. reflexivity. Qed.
Lemma resultStartTime_setResult (now : Z) (l1 l2 : list ascii) (f : LockFSM) : _resultStartTime (setResult now l1 l2 f) = now.
Proof. reflexivity. Qed.

Lemma state_appendDigit (d : ascii) (f : LockFSM) : _state (appendDigit d f) = _state f.
Proof. unfold appendDigit. destruct (_inputLen f <? MAX_PWD_LEN); reflexivity. Qed.
Lemma locked_appendDigit (d : ascii) (f : LockFSM) : _locked (appendDigit d f) = _locked f.
Proof. unfold appendDigit. destruct (_inputLen f <? MAX_PWD_LEN); reflexivity. Qed.
Lemma password_appendDigit (d : ascii) (f : LockFSM) : _password (appendDigit d f) = _password f.
Proof. unfold appendDigit. destruct (_inputLen f <? MAX_PWD_LEN); reflexivity. Qed.
Lemma oldPwdBuffer_appendDigit (d : ascii) (f : LockFSM) : _oldPwdBuffer (appendDigit d f) = _oldPwdBuffer f.
Proof. unfold appendDigit. destruct (_inputLen f <? MAX_PWD_LEN); reflexivity. Qed.
Lemma display_appendDigit (d : ascii) (f : LockFSM) : _display (appendDigit d f) = _display f.
Proof. unfold appendDigit. destruct (_inputLen f <? MAX_PWD_LEN); reflexivity. Qed.
Lemma displayChanged_appendDigit (d : ascii) (f : LockFSM) : _displayChanged (appendDigit d f) = _displayChanged f.
Proof. unfold appendDigit. destruct (_inputLen f <? MAX_PWD_LEN); reflexivity. Qed.
Lemma resultStartTime_appendDigit (d : ascii) (f : LockFSM) : _resultStartTime (appendDigit d f) = _resultStartTime f.
Proof. unfold appendDigit. destruct (_inputLen f <? MAX_PWD_LEN); reflexivity. Qed.

(** Rewrites the members of an object through the helpers that built
    it. *)
Ltac fsm_rw :=
  repeat (progress rewrite
    ?state_printf, ?locked_printf, ?password_printf, ?inputBuffer_printf,
    ?oldPwdBuffer_printf, ?inputLen_printf, ?display_printf, ?displayChanged_printf,
    ?resultStartTime_printf, ?state_set_locked, ?locked_set_locked, ?password_set_locked,
    ?inputBuffer_set_locked, ?oldPwdBuffer_set_locked, ?inputLen_set_locked, ?display_set_locked,
    ?displayChanged_set_locked, ?resultStartTime_set_locked, ?state_set_password, ?locked_set_password,
    ?password_set_password, ?inputBuffer_set_password, ?oldPwdBuffer_set_password, ?inputLen_set_password,
    ?display_set_password, ?displayChanged_set_password, ?resultStartTime_set_password, ?state_set_oldPwdBuffer,
    ?locked_set_oldPwdBuffer, ?password_set_oldPwdBuffer, ?inputBuffer_set_oldPwdBuffer, ?oldPwdBuffer_set_oldPwdBuffer,
    ?inputLen_set_oldPwdBuffer, ?display_set_oldPwdBuffer, ?displayChanged_set_oldPwdBuffer, ?resultStartTime_set_oldPwdBuffer,
    ?state_set_state, ?locked_set_state, ?password_set_state, ?inputBuffer_set_state,
    ?oldPwdBuffer_set_state, ?inputLen_set_state, ?display_set_state, ?displayChanged_set_state,
    ?resultStartTime_set_state, ?state_clearInput, ?locked_clearInput, ?password_clearInput,
    ?inputBuffer_clearInput, ?oldPwdBuffer_clearInput, ?inputLen_clearInput, ?display_clearInput,
    ?displayChanged_clearInput, ?resultStartTime_clearInput, ?state_updateDisplay, ?locked_updateDisplay,
    ?password_updateDisplay, ?inputBuffer_updateDisplay, ?oldPwdBuffer_updateDisplay, ?inputLen_updateDisplay,
    ?displayChanged_updateDisplay, ?resultStartTime_updateDisplay, ?state_setState, ?locked_setState,
    ?password_setState, ?inputBuffer_setState, ?oldPwdBuffer_setState, ?inputLen_setState,
    ?displayChanged_setState, ?resultStartTime_setState, ?state_setResult, ?locked_setResult,
    ?password_setResult, ?inputBuffer_setResult, ?oldPwdBuffer_setResult, ?inputLen_setResult,
    ?displayChanged_setResult, ?resultStartTime_setResult, ?state_appendDigit, ?locked_appendDigit,
    ?password_appendDigit, ?oldPwdBuffer_appendDigit, ?display_appendDigit, ?displayChanged_appendDigit,
    ?resultStartTime_appendDigit).

Ltac fsm_rw_in H :=
  repeat (progress rewrite
    ?state_printf, ?locked_printf, ?password_printf, ?inputBuffer_printf,
    ?oldPwdBuffer_printf, ?inputLen_printf, ?display_printf, ?displayChanged_printf,
    ?resultStartTime_printf, ?state_set_locked, ?locked_set_locked, ?password_set_locked,
    ?inputBuffer_set_locked, ?oldPwdBuffer_set_locked, ?inputLen_set_locked, ?display_set_locked,
    ?displayChanged_set_locked, ?resultStartTime_set_locked, ?state_set_password, ?locked_set_password,
    ?password_set_password, ?inputBuffer_set_password, ?oldPwdBuffer_set_password, ?inputLen_set_password,
    ?display_set_password, ?displayChanged_set_password, ?resultStartTime_set_password, ?state_set_oldPwdBuffer,
    ?locked_set_oldPwdBuffer, ?password_set_oldPwdBuffer, ?inputBuffer_set_oldPwdBuffer, ?oldPwdBuffer_set_oldPwdBuffer,
    ?inputLen_set_oldPwdBuffer, ?display_set_oldPwdBuffer, ?displayChanged_set_oldPwdBuffer, ?resultStartTime_set_oldPwdBuffer,
    ?state_set_state, ?locked_set_state, ?password_set_state, ?inputBuffer_set_state,
    ?oldPwdBuffer_set_state, ?inputLen_set_state, ?display_set_state, ?displayChanged_set_state,
    ?resultStartTime_set_state, ?state_clearInput, ?locked_clearInput, ?password_clearInput,
    ?inputBuffer_clearInput, ?oldPwdBuffer_clearInput, ?inputLen_clearInput, ?display_clearInput,
    ?displayChanged_clearInput, ?resultStartTime_clearInput, ?state_updateDisplay, ?locked_updateDisplay,
    ?password_updateDisplay, ?inputBuffer_updateDisplay, ?oldPwdBuffer_updateDisplay, ?inputLen_updateDisplay,
    ?displayChanged_updateDisplay, ?resultStartTime_updateDisplay, ?state_setState, ?locked_setState,
    ?password_setState, ?inputBuffer_setState, ?oldPwdBuffer_setState, ?inputLen_setState,
    ?displayChanged_setState, ?resultStartTime_setState, ?state_setResult, ?locked_setResult,
    ?password_setResult, ?inputBuffer_setResult, ?oldPwdBuffer_setResult, ?inputLen_setResult,
    ?displayChanged_setResult, ?resultStartTime_setResult, ?state_appendDigit, ?locked_appendDigit,
    ?password_appendDigit, ?oldPwdBuffer_appendDigit, ?display_appendDigit, ?displayChanged_appendDigit,
    ?resultStartTime_appendDigit in H).

(** *** What opens the lock *)

(** X9. The lock opens in one way only.  A key press that finds the lock
    engaged and leaves it open is a [#] in the state UNLOCK_PWD with the
    entered string equal to the password; a key press that changes the
    password is a [#] in the state CHANGE_NEW_PWD with the string saved as
    old password equal to the password; and [update] changes neither the
    lock nor the password. *)
Theorem lock_opens_only_with_the_password (now : Z) (key : ascii) (f : LockFSM) :
  (_locked f = true -> _locked (processKey now key f) = false ->
   _state f = STATE_UNLOCK_PWD /\ key = "#"%char /\
   cstr (_inputBuffer f) = cstr (_password f)) /\
  (_password (processKey now key f) <> _password f ->
   _state f = STATE_CHANGE_NEW_PWD /\ key = "#"%char /\
   cstr (_oldPwdBuffer f) = cstr (_password f)) /\
  _locked (update now f) = _locked f /\
  _password (update now f) = _password f.
Proof.
  assert (Hupd : _locked (update now f) = _locked f /\ _password (update now f) = _password f).
  { unfold update. destruct (_state f); try (split; reflexivity).
    destruct (u32 (now - _resultStartTime f) >=? RESULT_DISPLAY_MS);
      fsm_rw; split; reflexivity. }
  destruct Hupd as [Hu1 Hu2].
  split; [| split; [| split; assumption]].
  - intros Hl. unfold processKey.
    destruct (Ascii.eqb key NUL); [congruence |].
    rewrite state_printf.
    destruct (_state f) eqn:Est;
      repeat match goal with
             | |- context [if ?c then _ else _] => destruct c eqn:?
             end;
      fsm_rw; try congruence.
    intros _. split; [reflexivity |].
    split; [apply Ascii.eqb_eq; assumption |].
    apply strcmp_is_0_iff.
    match goal with H : strcmp_is_0 _ _ = true |- _ => fsm_rw_in H; exact H end.
  - unfold processKey.
    destruct (Ascii.eqb key NUL); [congruence |].
    rewrite state_printf.
    destruct (_state f) eqn:Est;
      repeat match goal with
             | |- context [if ?c then _ else _] => destruct c eqn:?
             end;
      fsm_rw; try congruence.
    intros _. split; [reflexivity |].
    split; [apply Ascii.eqb_eq; assumption |].
    apply strcmp_is_0_iff.
    match goal with H : strcmp_is_0 _ _ = true |- _ => fsm_rw_in H; exact H end.
Qed.

(** *** The dialogue, key by key *)

Lemma digit_eqb_NUL (d : ascii) : isDigitKey d = true -> Ascii.eqb d NUL = false.
Proof. intros H. apply Ascii.eqb_neq, digit_not_NUL, H. Qed.

(** Decides the tests of [processKey] on a key that is given. *)
Ltac eval_key_tests :=
  repeat match goal with
  | |- context [Ascii.eqb ?a ?b] =>
      let v := eval vm_compute in (Ascii.eqb a b) in
      match v with true => idtac | false => idtac end;
      rewrite (eq_refl v : Ascii.eqb a b = v)
  | |- context [isDigitKey ?a] =>
      let v := eval vm_compute in (isDigitKey a) in
      match v with true => idtac | false => idtac end;
      rewrite (eq_refl v : isDigitKey a = v)
  end.

(** Opens [processKey] in a state that is known, on a key that is given. *)
Ltac open_processKey Hst :=
  unfold processKey; rewrite state_printf, Hst; eval_key_tests; cbv beta iota zeta.

Lemma wf_input (f : LockFSM) :
  wellFormed f ->
  holds (_inputBuffer f) (cstr (_inputBuffer f)) /\
  _inputLen f = Z.of_nat (length (cstr (_inputBuffer f))).
Proof.
  intros (_ & (ds & Hib & Hil) & _). rewrite (holds_cstr _ _ Hib). split; assumption.
Qed.

Lemma cstr_clear (buf : list ascii) : cstr (<[0%nat := NUL]> buf) = [].
Proof. destruct buf; reflexivity. Qed.

Lemma step_open_menu (now : Z) (f : LockFSM) (l : bool) (st : LockFSMState) (p i o : list ascii) :
  st = STATE_IDLE \/ st = STATE_SHOW_RESULT ->
  remembers f st l p i o ->
  remembers (processKey now "*" f) STATE_MENU l p i o.
Proof.
  intros Hst (Hwf & Hs & Hl & Hp & Hi & Ho).
  split; [apply processKey_wf, Hwf |].
  destruct Hst; subst st; open_processKey Hs; fsm_rw; repeat split; assumption.
Qed.
Lemma step_menu_choice (now : Z) (key : ascii) (f : LockFSM) (l : bool) (p i o : list ascii) :
  remembers f STATE_MENU l p i o ->
  (key = "0"%char -> remembers (processKey now key f) STATE_LOCK_CONFIRM l p i o) /\
  (key = "1"%char -> remembers (processKey now key f) STATE_UNLOCK_WAIT_STAR l p i o) /\
  (key = "2"%char -> remembers (processKey now key f) STATE_CHANGE_WAIT_STAR l p i o) /\
  (key = "3"%char -> remembers (processKey now key f) STATE_STATUS_CONFIRM l p i o).
Proof.
  intros (Hwf & Hs & Hl & Hp & Hi & Ho).
  split; [| split; [| split]]; intros ->;
    (split; [apply processKey_wf, Hwf |]);
    open_processKey Hs; fsm_rw; repeat split; assumption.
Qed.

Lemma step_start_entry (now : Z) (f : LockFSM) (st : LockFSMState) (l : bool)
      (p i o : list ascii) :
  remembers f st l p i o ->
  (st = STATE_UNLOCK_WAIT_STAR ->
   remembers (processKey now "*" f) STATE_UNLOCK_PWD l p [] o) /\
  (st = STATE_CHANGE_WAIT_STAR ->
   remembers (processKey now "*" f) STATE_CHANGE_OLD_PWD l p [] o).
Proof.
  intros (Hwf & Hs & Hl & Hp & Hi & Ho).
  split; intros ->; (split; [apply processKey_wf, Hwf |]);
    open_processKey Hs; fsm_rw; rewrite cstr_clear; repeat split; assumption.
Qed.

Lemma take_take_app {A : Type} (n : nat) (a b : list A) :
  take n (take n a ++ b) = take n (a ++ b).
Proof.
  destruct (Nat.le_gt_cases (length a) n) as [Hle | Hgt].
  - rewrite (take_ge a) by exact Hle. reflexivity.
  - rewrite take_app_le by (rewrite length_take; lia).
    rewrite take_take, Nat.min_id. rewrite take_app_le by lia. reflexivity.
Qed.

Lemma step_digit (now : Z) (d : ascii) (f : LockFSM) (st : LockFSMState) (l : bool)
      (p i o : list ascii) :
  isDigitKey d = true -> entersPassword st = true ->
  remembers f st l p i o ->
  remembers (processKey now d f) st l p (take 8 (i ++ [d])) o.
Proof.
  intros Hd He (Hwf & Hs & Hl & Hp & Hi & Ho).
  split; [apply processKey_wf, Hwf |].
  destruct (wf_input f Hwf) as [Hib Hil]. rewrite Hi in Hib, Hil.
  destruct (appendDigit_input d
              (printf "[KEY] '%c' in state %d\r\n" [ArgChar d; ArgInt (stateNumber st)] f)
              i Hib Hil Hd) as (Ha & _).
  apply holds_cstr in Ha.
  destruct st; try discriminate He;
    unfold processKey; rewrite state_printf, Hs, (digit_eqb_NUL d Hd), Hd;
    cbv beta iota zeta; fsm_rw; repeat split; assumption.
Qed.

Lemma processKeys_cons (now : Z) (k : ascii) (ks : list ascii) (f : LockFSM) :
  processKeys now (k :: ks) f = processKeys now ks (processKey now k f).
Proof. reflexivity. Qed.

Lemma processKeys_app (now : Z) (ks1 ks2 : list ascii) (f : LockFSM) :
  processKeys now (ks1 ++ ks2) f = processKeys now ks2 (processKeys now ks1 f).
Proof. apply fold_left_app. Qed.

(** Digits typed in a password-entry state: the first eight are kept. *)
Lemma type_digits (now : Z) (ds : list ascii) :
  Forall (fun c => isDigitKey c = true) ds ->
  forall (f : LockFSM) (st : LockFSMState) (l : bool) (p i o : list ascii),
    entersPassword st = true ->
    remembers f st l p i o ->
    remembers (processKeys now ds f) st l p (take 8 (i ++ ds)) o.
Proof.
  induction 1 as [| d ds Hd Hds IH]; intros f st l p i o He Hr.
  - cbn [processKeys fold_left]. rewrite app_nil_r.
    destruct Hr as (Hwf & Hr). destruct (wf_input f Hwf) as [Hib _].
    apply holds_length in Hib.
    destruct Hr as (Hs & Hl & Hp & Hi & Ho). rewrite Hi in Hib.
    rewrite take_ge by exact Hib. split; [exact Hwf |]. repeat split; assumption.
  - rewrite processKeys_cons.
    replace (i ++ d :: ds) with ((i ++ [d]) ++ ds) by (rewrite <- app_assoc; reflexivity).
    rewrite <- take_take_app.
    apply (IH _ st l p _ o He). apply step_digit; assumption.
Qed.
(** *** What the display shows *)

Lemma display_setResult (now : Z) (l1 l2 : list ascii) (f : LockFSM) :
  _display (setResult now l1 l2 f)
  = mkLockDisplay (<[16%nat := NUL]> (strncpy (line1 (_display f)) l1 16))
                  (<[16%nat := NUL]> (strncpy (line2 (_display f)) l2 16)).
Proof. reflexivity. Qed.

Lemma display_showLines (l1 l2 : list ascii) (f : LockFSM) :
  _display (showLines l1 l2 f)
  = mkLockDisplay (strncpy (line1 (_display f)) l1 17) (strncpy (line2 (_display f)) l2 17).
Proof. reflexivity. Qed.

Lemma text_is_string (m : string) :
  forallb (fun c => negb (Ascii.eqb c NUL)) (list_ascii_of_string m) = true ->
  cstr (literal m) = list_ascii_of_string m.
Proof.
  intros H. apply cstr_literal. apply List.Forall_forall. intros c Hc.
  rewrite forallb_forall in H. specialize (H c Hc).
  apply negb_true_iff, Ascii.eqb_neq in H. exact H.
Qed.

(** A result message of at most 16 chars is displayed as it is. *)
Lemma shows_setResult (now : Z) (m1 m2 : string) (f : LockFSM) :
  wellFormed f ->
  forallb (fun c => negb (Ascii.eqb c NUL)) (list_ascii_of_string m1) = true ->
  forallb (fun c => negb (Ascii.eqb c NUL)) (list_ascii_of_string m2) = true ->
  (length (list_ascii_of_string m1) <= 16)%nat ->
  (length (list_ascii_of_string m2) <= 16)%nat ->
  shows (setResult now (literal m1) (literal m2) f) m1 m2.
Proof.
  intros (_ & _ & _ & H1 & H2) Hn1 Hn2 Hl1 Hl2. unfold shows.
  rewrite display_setResult. cbn [line1 line2].
  rewrite !cstr_strncpy_terminated; rewrite ?text_is_string; auto.
Qed.

(** A screen text of 16 chars is displayed as it is. *)
Lemma shows_showLines (m1 m2 : string) (f : LockFSM) :
  forallb (fun c => negb (Ascii.eqb c NUL)) (list_ascii_of_string m1) = true ->
  forallb (fun c => negb (Ascii.eqb c NUL)) (list_ascii_of_string m2) = true ->
  (length (list_ascii_of_string m1) <= 16)%nat ->
  (length (list_ascii_of_string m2) <= 16)%nat ->
  shows (showLines (literal m1) (literal m2) f) m1 m2.
Proof.
  intros Hn1 Hn2 Hl1 Hl2. unfold shows.
  rewrite display_showLines. cbn [line1 line2].
  rewrite !cstr_strncpy_whole; rewrite ?text_is_string; auto; lia.
Qed.

Lemma shows_ext (f g : LockFSM) (m1 m2 : string) :
  _display f = _display g -> shows g m1 m2 -> shows f m1 m2.
Proof. unfold shows. intros ->. auto. Qed.

(** Proves that a result message is on the display of an object that
    [setResult] built and later helpers left alone. *)
(** Proves the invariant of an object built by the helpers from a
    well-formed one. *)
Ltac wf_solve :=
  repeat match goal with
  | |- wellFormed (printf _ _ _) => apply wf_printf
  | |- wellFormed (set_locked _ _) => apply wf_set_locked
  | |- wellFormed (set_state _ _) => apply wf_set_state
  | |- wellFormed (updateDisplay _) => apply wf_updateDisplay
  | |- wellFormed (setState _ _) => apply wf_setState
  | |- wellFormed (setResult _ _ _ _) => apply wf_setResult
  | |- wellFormed (clearInput _) => apply wf_clearInput
  | |- wellFormed (set_oldPwdBuffer (<[0%nat := NUL]> _) _) => apply wf_clearOld
  end; try assumption.

Ltac show_result :=
  unfold shows; fsm_rw;
  apply shows_setResult; [wf_solve | reflexivity | reflexivity | cbn; lia | cbn; lia].

(** *** The commands, step by step *)

(** Takes the first test left in the goal both ways. *)
Ltac split_test E :=
  match goal with
  | |- context [if ?c then _ else _] => destruct c eqn:E; fsm_rw_in E
  end.

(** Proves [remembers] of an object built by the helpers. *)
Ltac remembers_now :=
  split; [wf_solve | fsm_rw; rewrite ?cstr_clear; repeat split; try assumption].

Lemma step_unlock_hash (now : Z) (f : LockFSM) (l : bool) (p i o : list ascii) :
  remembers f STATE_UNLOCK_PWD l p i o ->
  (i = p ->
   remembers (processKey now "#" f) STATE_SHOW_RESULT false p [] o /\
   shows (processKey now "#" f) "Access Granted!" "Door is OPEN") /\
  (i <> p ->
   remembers (processKey now "#" f) STATE_SHOW_RESULT l p [] o /\
   shows (processKey now "#" f) "Wrong Password!" "Access Denied").
Proof.
  intros (Hwf & Hs & Hl & Hp & Hi & Ho).
  open_processKey Hs. split_test E.
  - apply strcmp_is_0_iff in E.
    split; [| intros Hne; congruence].
    intros _. split; [remembers_now | show_result].
  - assert (Hne : cstr (_inputBuffer f) <> cstr (_password f)).
    { intros He. apply strcmp_is_0_iff in He. congruence. }
    split; [intros He; congruence |].
    intros _. split; [remembers_now | show_result].
Qed.

Lemma step_save_old (now : Z) (f : LockFSM) (l : bool) (p i o : list ascii) :
  remembers f STATE_CHANGE_OLD_PWD l p i o ->
  remembers (processKey now "*" f) STATE_CHANGE_NEW_PWD l p [] i.
Proof.
  intros (Hwf & Hs & Hl & Hp & Hi & Ho).
  split; [apply processKey_wf, Hwf |].
  destruct (wf_input f Hwf) as [Hib _]. rewrite Hi in Hib.
  destruct Hwf as (_ & _ & (old & Hob) & _).
  open_processKey Hs. fsm_rw. rewrite cstr_clear.
  repeat split; try assumption.
  apply holds_cstr.
  destruct Hib as (Hlen & Hds & Hdig & Ht & Hn).
  apply holds_copy; [apply holds_cstr; repeat split; assumption | exact Hds | exact Hdig |].
  destruct Hob as [Hlo _]. exact Hlo.
Qed.

Lemma step_store_new (now : Z) (f : LockFSM) (l : bool) (p i o : list ascii) :
  remembers f STATE_CHANGE_NEW_PWD l p i o ->
  (o = p -> i <> [] ->
   remembers (processKey now "#" f) STATE_SHOW_RESULT l i [] [] /\
   shows (processKey now "#" f) "Pwd Changed!" "Successfully") /\
  (o = p -> i = [] ->
   remembers (processKey now "#" f) STATE_SHOW_RESULT l p [] [] /\
   shows (processKey now "#" f) "Error: empty pw" "Try again") /\
  (o <> p ->
   remembers (processKey now "#" f) STATE_SHOW_RESULT l p [] [] /\
   shows (processKey now "#" f) "Wrong Old Pwd!" "Change Denied").
Proof.
  intros (Hwf & Hs & Hl & Hp & Hi & Ho).
  destruct (wf_input f Hwf) as [Hib Hil]. rewrite Hi in Hib, Hil.
  assert (Hlp : length (_password f) = 9%nat).
  { destruct Hwf as ((pwd & (Hlp & _) & _) & _). exact Hlp. }
  open_processKey Hs. split_test E.
  - apply strcmp_is_0_iff in E. split_test Hpos.
    + apply Z.gtb_lt in Hpos.
      assert (Hine : i <> []) by (intros ->; cbn in Hil; lia).
      split; [| split; [intros _ Hi0; contradiction | intros Hne; congruence]].
      intros _ _. split.
      * split; [wf_solve; refine (wf_storePassword (printf _ _ f) Hwf _); exact Hpos |].
        fsm_rw. rewrite !cstr_clear.
        repeat split; try assumption.
        apply holds_cstr.
        destruct Hib as (Hlen & Hds & Hdig & Ht & Hn).
        apply holds_copy;
          [apply holds_cstr; repeat split; assumption | exact Hds | exact Hdig | exact Hlp].
      * unfold shows; fsm_rw.
        apply shows_setResult; [| reflexivity | reflexivity | cbn; lia | cbn; lia].
        wf_solve. refine (wf_storePassword (printf _ _ f) Hwf _). exact Hpos.
    + assert (Hi0 : i = []).
      { destruct i; [reflexivity |]. cbn [length] in Hil.
        destruct (Z.gtb_spec (_inputLen f) 0); [discriminate | lia]. }
      split; [intros _ Hine; contradiction |].
      split; [| intros Hne; congruence].
      intros _ _. split; [remembers_now | show_result].
  - assert (Hne : cstr (_oldPwdBuffer f) <> cstr (_password f)).
    { intros He. apply strcmp_is_0_iff in He. congruence. }
    split; [intros He; congruence |].
    split; [intros He; congruence |].
    intros _. split; [remembers_now | show_result].
Qed.

Lemma step_confirm (now : Z) (f : LockFSM) (st : LockFSMState) (l : bool)
      (p i o : list ascii) :
  remembers f st l p i o ->
  (st = STATE_LOCK_CONFIRM ->
   remembers (processKey now "#" f) STATE_SHOW_RESULT true p i o /\
   shows (processKey now "#" f) "Lock Activated" "Door is LOCKED") /\
  (st = STATE_STATUS_CONFIRM ->
   remembers (processKey now "#" f) STATE_SHOW_RESULT l p i o /\
   shows (processKey now "#" f) "Lock Status:"
         (if l then "** LOCKED **" else "** UNLOCKED **")).
Proof.
  intros (Hwf & Hs & Hl & Hp & Hi & Ho).
  split; intros ->; open_processKey Hs.
  - split; [remembers_now | show_result].
  - fsm_rw. rewrite Hl. destruct l; (split; [remembers_now | show_result]).
Qed.

(** *** The commands *)

Lemma processKeys_nil (now : Z) (f : LockFSM) : processKeys now [] f = f.
Proof. reflexivity. Qed.

(** The keys [*], a menu digit and, for the two password commands, [*]
    again, typed in the idle state or on a result screen. *)
Lemma open_command (now : Z) (f : LockFSM) (st : LockFSMState) (l : bool)
      (p i o : list ascii) :
  st = STATE_IDLE \/ st = STATE_SHOW_RESULT ->
  remembers f st l p i o ->
  remembers (processKeys now ["*"; "0"]%char f) STATE_LOCK_CONFIRM l p i o /\
  remembers (processKeys now ["*"; "1"; "*"]%char f) STATE_UNLOCK_PWD l p [] o /\
  remembers (processKeys now ["*"; "2"; "*"]%char f) STATE_CHANGE_OLD_PWD l p [] o /\
  remembers (processKeys now ["*"; "3"]%char f) STATE_STATUS_CONFIRM l p i o.
Proof.
  intros Hst Hr.
  pose proof (step_open_menu now f l st p i o Hst Hr) as Hm.
  destruct (step_menu_choice now "0" _ l p i o Hm) as (H0 & _).
  destruct (step_menu_choice now "1" _ l p i o Hm) as (_ & H1 & _).
  destruct (step_menu_choice now "2" _ l p i o Hm) as (_ & _ & H2 & _).
  destruct (step_menu_choice now "3" _ l p i o Hm) as (_ & _ & _ & H3).
  specialize (H0 eq_refl). specialize (H1 eq_refl).
  specialize (H2 eq_refl). specialize (H3 eq_refl).
  pose proof (proj1 (step_start_entry now _ _ l p i o H1) eq_refl) as H1'.
  pose proof (proj2 (step_start_entry now _ _ l p i o H2) eq_refl) as H2'.
  rewrite !processKeys_cons, !processKeys_nil.
  split; [exact H0 |]. split; [exact H1' |]. split; [exact H2' | exact H3].
Qed.

Lemma unlock_keys (now : Z) (f : LockFSM) (st : LockFSMState) (l : bool)
      (p i o ds : list ascii) :
  st = STATE_IDLE \/ st = STATE_SHOW_RESULT ->
  remembers f st l p i o ->
  Forall (fun c => isDigitKey c = true) ds ->
  (take 8 ds = p ->
   remembers (processKeys now ("*" :: "1" :: "*" :: ds ++ ["#"])%char f)
             STATE_SHOW_RESULT false p [] o /\
   shows (processKeys now ("*" :: "1" :: "*" :: ds ++ ["#"])%char f)
         "Access Granted!" "Door is OPEN") /\
  (take 8 ds <> p ->
   remembers (processKeys now ("*" :: "1" :: "*" :: ds ++ ["#"])%char f)
             STATE_SHOW_RESULT l p [] o /\
   shows (processKeys now ("*" :: "1" :: "*" :: ds ++ ["#"])%char f)
         "Wrong Password!" "Access Denied").
Proof.
  intros Hst Hr Hds.
  destruct (open_command now f st l p i o Hst Hr) as (_ & H1 & _).
  rewrite !processKeys_cons, processKeys_app, processKeys_cons, processKeys_nil.
  rewrite !processKeys_cons, processKeys_nil in H1.
  pose proof (type_digits now ds Hds _ STATE_UNLOCK_PWD l p [] o eq_refl H1) as H2.
  rewrite app_nil_l in H2.
  exact (step_unlock_hash now _ l p _ o H2).
Qed.

Lemma change_keys (now : Z) (f : LockFSM) (st : LockFSMState) (l : bool)
      (p i o old new : list ascii) :
  st = STATE_IDLE \/ st = STATE_SHOW_RESULT ->
  remembers f st l p i o ->
  Forall (fun c => isDigitKey c = true) old ->
  Forall (fun c => isDigitKey c = true) new ->
  (take 8 old = p -> new <> [] ->
   remembers (processKeys now ("*" :: "2" :: "*" :: old ++ "*" :: new ++ ["#"])%char f)
             STATE_SHOW_RESULT l (take 8 new) [] [] /\
   shows (processKeys now ("*" :: "2" :: "*" :: old ++ "*" :: new ++ ["#"])%char f)
         "Pwd Changed!" "Successfully") /\
  (take 8 old = p -> new = [] ->
   remembers (processKeys now ("*" :: "2" :: "*" :: old ++ "*" :: new ++ ["#"])%char f)
             STATE_SHOW_RESULT l p [] [] /\
   shows (processKeys now ("*" :: "2" :: "*" :: old ++ "*" :: new ++ ["#"])%char f)
         "Error: empty pw" "Try again") /\
  (take 8 old <> p ->
   remembers (processKeys now ("*" :: "2" :: "*" :: old ++ "*" :: new ++ ["#"])%char f)
             STATE_SHOW_RESULT l p [] [] /\
   shows (processKeys now ("*" :: "2" :: "*" :: old ++ "*" :: new ++ ["#"])%char f)
         "Wrong Old Pwd!" "Change Denied").
Proof.
  intros Hst Hr Hold Hnew.
  destruct (open_command now f st l p i o Hst Hr) as (_ & _ & H2 & _).
  rewrite !processKeys_cons, processKeys_app, processKeys_cons, processKeys_app,
    processKeys_cons, processKeys_nil.
  rewrite !processKeys_cons, processKeys_nil in H2.
  pose proof (type_digits now old Hold _ STATE_CHANGE_OLD_PWD l p [] o eq_refl H2) as H3.
  rewrite app_nil_l in H3.
  pose proof (step_save_old now _ l p _ o H3) as H4.
  pose proof (type_digits now new Hnew _ STATE_CHANGE_NEW_PWD l p [] _ eq_refl H4) as H5.
  rewrite app_nil_l in H5.
  destruct (step_store_new now _ l p _ _ H5) as (Ha & Hb & Hc).
  split; [| split].
  - intros He Hne. apply Ha; [exact He |].
    destruct new as [| c new]; [contradiction | discriminate].
  - intros He ->. apply Hb; [exact He | reflexivity].
  - exact Hc.
Qed.

Lemma remembers_self (f : LockFSM) :
  wellFormed f ->
  remembers f (_state f) (_locked f) (cstr (_password f)) (cstr (_inputBuffer f))
            (cstr (_oldPwdBuffer f)).
Proof. intros Hwf. split; [exact Hwf |]. repeat split. Qed.

(** X10. The unlock command.  In the idle state or on a result screen, the
    keys [*1*], digits and [#] open the lock if the first eight digits
    typed are the password, with the message "Access Granted!"; otherwise
    they leave the lock as it was, with the message "Wrong Password!".
    Digits after the eighth are dropped.  Either way the password is kept
    and the result screen is shown. *)
Theorem unlock_command (now : Z) (f : LockFSM) (ds : list ascii) :
  wellFormed f ->
  _state f = STATE_IDLE \/ _state f = STATE_SHOW_RESULT ->
  Forall (fun c => isDigitKey c = true) ds ->
  _state (processKeys now ("*" :: "1" :: "*" :: ds ++ ["#"])%char f) = STATE_SHOW_RESULT /\
  cstr (_password (processKeys now ("*" :: "1" :: "*" :: ds ++ ["#"])%char f))
  = cstr (_password f) /\
  (take 8 ds = cstr (_password f) ->
   _locked (processKeys now ("*" :: "1" :: "*" :: ds ++ ["#"])%char f) = false /\
   shows (processKeys now ("*" :: "1" :: "*" :: ds ++ ["#"])%char f)
         "Access Granted!" "Door is OPEN") /\
  (take 8 ds <> cstr (_password f) ->
   _locked (processKeys now ("*" :: "1" :: "*" :: ds ++ ["#"])%char f) = _locked f /\
   shows (processKeys now ("*" :: "1" :: "*" :: ds ++ ["#"])%char f)
         "Wrong Password!" "Access Denied").
Proof.
  intros Hwf Hst Hds.
  destruct (unlock_keys now f _ _ _ _ _ ds Hst (remembers_self f Hwf) Hds) as [Hok Hbad].
  assert (Hcases : take 8 ds = cstr (_password f) \/ take 8 ds <> cstr (_password f)).
  { destruct (List.list_eq_dec Ascii.ascii_dec (take 8 ds) (cstr (_password f))); auto. }
  split; [| split; [| split]].
  - destruct Hcases as [He | Hne];
      [destruct (Hok He) as ((_ & H & _) & _) | destruct (Hbad Hne) as ((_ & H & _) & _)];
      exact H.
  - destruct Hcases as [He | Hne];
      [destruct (Hok He) as ((_ & _ & _ & H & _) & _)
      | destruct (Hbad Hne) as ((_ & _ & _ & H & _) & _)];
      exact H.
  - intros He. destruct (Hok He) as ((_ & _ & H & _) & Hsh). split; assumption.
  - intros Hne. destruct (Hbad Hne) as ((_ & _ & H & _) & Hsh). split; assumption.
Qed.

(** X11. The change-password command.  In the idle state or on a result
    screen, the keys [*2*], digits, [*], digits and [#] replace the
    password by the first eight of the new digits if the first eight of the
    old digits are the password and at least one new digit was typed.  With
    no new digit, or with a wrong old password, the password is kept.  The
    lock is never touched. *)
Theorem change_password_command (now : Z) (f : LockFSM) (old new : list ascii) :
  wellFormed f ->
  _state f = STATE_IDLE \/ _state f = STATE_SHOW_RESULT ->
  Forall (fun c => isDigitKey c = true) old ->
  Forall (fun c => isDigitKey c = true) new ->
  _locked (processKeys now ("*" :: "2" :: "*" :: old ++ "*" :: new ++ ["#"])%char f)
  = _locked f /\
  (take 8 old = cstr (_password f) -> new <> [] ->
   cstr (_password (processKeys now ("*" :: "2" :: "*" :: old ++ "*" :: new ++ ["#"])%char f))
   = take 8 new /\
   shows (processKeys now ("*" :: "2" :: "*" :: old ++ "*" :: new ++ ["#"])%char f)
         "Pwd Changed!" "Successfully") /\
  (take 8 old = cstr (_password f) -> new = [] ->
   cstr (_password (processKeys now ("*" :: "2" :: "*" :: old ++ "*" :: new ++ ["#"])%char f))
   = cstr (_password f) /\
   shows (processKeys now ("*" :: "2" :: "*" :: old ++ "*" :: new ++ ["#"])%char f)
         "Error: empty pw" "Try again") /\
  (take 8 old <> cstr (_password f) ->
   cstr (_password (processKeys now ("*" :: "2" :: "*" :: old ++ "*" :: new ++ ["#"])%char f))
   = cstr (_password f) /\
   shows (processKeys now ("*" :: "2" :: "*" :: old ++ "*" :: new ++ ["#"])%char f)
         "Wrong Old Pwd!" "Change Denied").
Proof.
  intros Hwf Hst Hold Hnew.
  destruct (change_keys now f _ _ _ _ _ old new Hst (remembers_self f Hwf) Hold Hnew)
    as (Ha & Hb & Hc).
  split; [| split; [| split]].
  - destruct (List.list_eq_dec Ascii.ascii_dec (take 8 old) (cstr (_password f))) as [He | Hne].
    + destruct new as [| c new'] eqn:En.
      * destruct (Hb He eq_refl) as ((_ & _ & H & _) & _). exact H.
      * destruct (Ha He ltac:(discriminate)) as ((_ & _ & H & _) & _). exact H.
    + destruct (Hc Hne) as ((_ & _ & H & _) & _). exact H.
  - intros He Hne. destruct (Ha He Hne) as ((_ & _ & _ & H & _) & Hsh). split; assumption.
  - intros He Hn. destruct (Hb He Hn) as ((_ & _ & _ & H & _) & Hsh). split; assumption.
  - intros Hne. destruct (Hc Hne) as ((_ & _ & _ & H & _) & Hsh). split; assumption.
Qed.

(** X12. After a password change that succeeded, it is the new password
    that opens the lock: the unlock command with digits [ds] opens it if and
    only if the first eight of [ds] are the first eight of the new digits;
    otherwise the lock stays as it was. *)
Theorem new_password_opens_the_lock (now now' : Z) (f : LockFSM) (old new ds : list ascii) :
  wellFormed f ->
  _state f = STATE_IDLE \/ _state f = STATE_SHOW_RESULT ->
  Forall (fun c => isDigitKey c = true) old ->
  Forall (fun c => isDigitKey c = true) new ->
  Forall (fun c => isDigitKey c = true) ds ->
  take 8 old = cstr (_password f) -> new <> [] ->
  (take 8 ds = take 8 new ->
   _locked (processKeys now' ("*" :: "1" :: "*" :: ds ++ ["#"])%char
              (processKeys now ("*" :: "2" :: "*" :: old ++ "*" :: new ++ ["#"])%char f))
   = false) /\
  (take 8 ds <> take 8 new ->
   _locked (processKeys now' ("*" :: "1" :: "*" :: ds ++ ["#"])%char
              (processKeys now ("*" :: "2" :: "*" :: old ++ "*" :: new ++ ["#"])%char f))
   = _locked f).
Proof.
  intros Hwf Hst Hold Hnew Hds He Hne.
  destruct (change_keys now f _ _ _ _ _ old new Hst (remembers_self f Hwf) Hold Hnew)
    as (Ha & _).
  destruct (Ha He Hne) as (Hr & _).
  destruct (unlock_keys now' _ _ _ _ _ _ ds (or_intror eq_refl) Hr Hds) as [Hok Hbad].
  split; intros H.
  - destruct (Hok H) as ((_ & _ & Hl & _) & _). exact Hl.
  - destruct (Hbad H) as ((_ & _ & Hl & _) & _). exact Hl.
Qed.

(** X13. The lock and status commands.  In the idle state or on a result
    screen, the keys [*0#] engage the lock whatever its state, without
    asking for the password; the keys [*3#] leave it as it is and display
    whether it is engaged.  Neither changes the password. *)
Theorem lock_and_status_commands (now : Z) (f : LockFSM) :
  wellFormed f ->
  _state f = STATE_IDLE \/ _state f = STATE_SHOW_RESULT ->
  (_locked (processKeys now ["*"; "0"; "#"]%char f) = true /\
   cstr (_password (processKeys now ["*"; "0"; "#"]%char f)) = cstr (_password f) /\
   shows (processKeys now ["*"; "0"; "#"]%char f) "Lock Activated" "Door is LOCKED") /\
  (_locked (processKeys now ["*"; "3"; "#"]%char f) = _locked f /\
   cstr (_password (processKeys now ["*"; "3"; "#"]%char f)) = cstr (_password f) /\
   shows (processKeys now ["*"; "3"; "#"]%char f) "Lock Status:"
         (if _locked f then "** LOCKED **" else "** UNLOCKED **")).
Proof.
  intros Hwf Hst.
  destruct (open_command now f _ _ _ _ _ Hst (remembers_self f Hwf)) as (H0 & _ & _ & H3).
  rewrite !processKeys_cons, !processKeys_nil in *.
  destruct (step_confirm now _ _ _ _ _ _ H0) as [Hlock _].
  destruct (step_confirm now _ _ _ _ _ _ H3) as [_ Hstatus].
  destruct (Hlock eq_refl) as ((_ & _ & Hl & Hp & _) & Hsh).
  destruct (Hstatus eq_refl) as ((_ & _ & Hl' & Hp' & _) & Hsh').
  split; (split; [assumption | split; assumption]).
Qed.

Lemma processKeys_wf (now : Z) (ks : list ascii) :
  forall f, wellFormed f -> wellFormed (processKeys now ks f).
Proof.
  induction ks as [| k ks IH]; intros f Hwf; [exact Hwf |].
  rewrite processKeys_cons. apply IH, processKey_wf, Hwf.
Qed.

Lemma lock_opens_only_with_the_password_witness :
  _state (processKeys 0 (list_ascii_of_string "*1*1234") (init constructed))
  = STATE_UNLOCK_PWD /\
  cstr (_inputBuffer (processKeys 0 (list_ascii_of_string "*1*1234") (init constructed)))
  = cstr (_password (processKeys 0 (list_ascii_of_string "*1*1234") (init constructed))).
Proof.
  destruct (lock_opens_only_with_the_password 0 "#"
              (processKeys 0 (list_ascii_of_string "*1*1234") (init constructed)))
    as (H & _).
  destruct H as (Hs & _ & Hi); [reflexivity | reflexivity |].
  split; [exact Hs | exact Hi].
Defined.

Lemma unlock_command_witness :
  _locked (processKeys 0 (list_ascii_of_string "*1*1234#") (init constructed)) = false /\
  _locked (processKeys 0 (list_ascii_of_string "*1*4321#") (init constructed)) = true.
Proof.
  split.
  - destruct (unlock_command 0 (init constructed) (list_ascii_of_string "1234"))
      as (_ & _ & Hok & _);
      [apply init_wf, constructed_wf | left; reflexivity | repeat constructor |].
    destruct Hok as [Hl _]; [reflexivity | exact Hl].
  - destruct (unlock_command 0 (init constructed) (list_ascii_of_string "4321"))
      as (_ & _ & _ & Hbad);
      [apply init_wf, constructed_wf | left; reflexivity | repeat constructor |].
    destruct Hbad as [Hl _]; [vm_compute; discriminate | exact Hl].
Defined.

Lemma change_password_command_witness :
  cstr (_password (processKeys 0 (list_ascii_of_string "*2*1234*987654321#")
                               (init constructed)))
  = list_ascii_of_string "98765432" /\
  cstr (_password (processKeys 0 (list_ascii_of_string "*2*1111*9876#") (init constructed)))
  = list_ascii_of_string "1234".
Proof.
  split.
  - destruct (change_password_command 0 (init constructed) (list_ascii_of_string "1234")
                (list_ascii_of_string "987654321"))
      as (_ & Hok & _);
      [apply init_wf, constructed_wf | left; reflexivity | repeat constructor
      | repeat constructor |].
    destruct Hok as [Hp _]; [reflexivity | discriminate | exact Hp].
  - destruct (change_password_command 0 (init constructed) (list_ascii_of_string "1111")
                (list_ascii_of_string "9876"))
      as (_ & _ & _ & Hbad);
      [apply init_wf, constructed_wf | left; reflexivity | repeat constructor
      | repeat constructor |].
    destruct Hbad as [Hp _]; [vm_compute; discriminate | exact Hp].
Defined.

Lemma new_password_opens_the_lock_witness :
  _locked (processKeys 9 (list_ascii_of_string "*1*77#")
             (processKeys 5 (list_ascii_of_string "*2*1234*77#") (init constructed)))
  = false /\
  _locked (processKeys 9 (list_ascii_of_string "*1*1234#")
             (processKeys 5 (list_ascii_of_string "*2*1234*77#") (init constructed)))
  = true.
Proof.
  split.
  - destruct (new_password_opens_the_lock 5 9 (init constructed)
                (list_ascii_of_string "1234") (list_ascii_of_string "77")
                (list_ascii_of_string "77")) as [Hok _];
      [apply init_wf, constructed_wf | left; reflexivity | repeat constructor
      | repeat constructor | repeat constructor | reflexivity | discriminate |].
    apply Hok. reflexivity.
  - destruct (new_password_opens_the_lock 5 9 (init constructed)
                (list_ascii_of_string "1234") (list_ascii_of_string "77")
                (list_ascii_of_string "1234")) as [_ Hbad];
      [apply init_wf, constructed_wf | left; reflexivity | repeat constructor
      | repeat constructor | repeat constructor | reflexivity | discriminate |].
    apply Hbad. vm_compute. discriminate.
Defined.

Lemma lock_and_status_commands_witness :
  _locked (processKeys 7 (list_ascii_of_string "*0#")
             (processKeys 0 (list_ascii_of_string "*1*1234#") (init constructed)))
  = true.
Proof.
  destruct (lock_and_status_commands 7
              (processKeys 0 (list_ascii_of_string "*1*1234#") (init constructed)))
    as ((Hl & _) & _).
  - apply processKeys_wf, init_wf, constructed_wf.
  - right. reflexivity.
  - exact Hl.
Defined.

(** *** The result screen *)

Lemma shows_setState_idle (f : LockFSM) :
  shows (setState STATE_IDLE f) "  Smart Lock    " "Press * to start".
Proof.
  unfold setState, updateDisplay. cbn [_state set_displayChanged printf set_state].
  apply shows_showLines; [reflexivity | reflexivity | cbn; lia | cbn; lia].
Qed.

(** X14. The result screen lasts [RESULT_DISPLAY_MS].  With the result set
    at clock reading [t0] and [update] called at [t], where [t0] and [t] are
    times since power-up of which the code sees the 32-bit clock readings:
    before 2500 ms have passed [update] does nothing, from then on it
    returns to the idle state and displays the idle screen.  This holds
    across a wrap of the clock.  Outside the result screen [update] does
    nothing. *)
Theorem result_screen_times_out (t0 t : Z) (f : LockFSM) :
  0 <= t - t0 < 4294967296 ->
  _resultStartTime f = u32 t0 ->
  (_state f <> STATE_SHOW_RESULT -> update (u32 t) f = f) /\
  (_state f = STATE_SHOW_RESULT -> t - t0 < RESULT_DISPLAY_MS -> update (u32 t) f = f) /\
  (_state f = STATE_SHOW_RESULT -> RESULT_DISPLAY_MS <= t - t0 ->
   _state (update (u32 t) f) = STATE_IDLE /\
   _displayChanged (update (u32 t) f) = true /\
   shows (update (u32 t) f) "  Smart Lock    " "Press * to start").
Proof.
  intros Hel Ht0. unfold update. rewrite Ht0, u32_elapsed by exact Hel.
  split; [| split].
  - intros Hne. destruct (_state f); try reflexivity. contradiction.
  - intros -> Hlt. destruct (Z.geb_spec (t - t0) RESULT_DISPLAY_MS); [lia | reflexivity].
  - intros -> Hge. destruct (Z.geb_spec (t - t0) RESULT_DISPLAY_MS); [| lia].
    fsm_rw. split; [reflexivity |]. split; [reflexivity |]. apply shows_setState_idle.
Qed.

(** A result set 100 ms before the clock wraps is still shown 2499 ms
    later and gone 2500 ms later. *)
Lemma result_screen_times_out_witness :
  let f := processKeys 4294967196 (list_ascii_of_string "*3#") (init constructed) in
  update 2399 f = f /\ _state (update 2400 f) = STATE_IDLE.
Proof.
  intros f. split.
  - destruct (result_screen_times_out 4294967196 (4294967296 + 2399) f) as (_ & H & _);
      [lia | reflexivity |].
    apply H; [reflexivity | vm_compute; reflexivity].
  - destruct (result_screen_times_out 4294967196 (4294967296 + 2400) f) as (_ & _ & H);
      [lia | reflexivity |].
    destruct H as (Hs & _); [reflexivity | vm_compute; discriminate | exact Hs].
Defined.

(** *** The password mask *)

Lemma mask_text (n : Z) :
  0 <= n <= 8 ->
  cstr (buildMask (replicate 17 NUL) n)
  = replicate (Z.to_nat n) "*"%char ++ replicate (16 - Z.to_nat n) " "%char.
Proof.
  intros Hn.
  assert (H : n = 0 \/ n = 1 \/ n = 2 \/ n = 3 \/ n = 4 \/ n = 5 \/ n = 6 \/ n = 7 \/ n = 8)
    by lia.
  repeat (destruct H as [-> | H]; [vm_compute; reflexivity |]).
  subst n. vm_compute. reflexivity.
Qed.

Lemma wf_inputLen (f : LockFSM) : wellFormed f -> 0 <= _inputLen f <= 8.
Proof.
  intros Hwf. destruct (wf_input f Hwf) as [Hib Hil].
  apply holds_length in Hib. lia.
Qed.

Lemma maskShown_updateDisplay (f : LockFSM) : wellFormed f -> maskShown (updateDisplay f).
Proof.
  intros Hwf. pose proof (wf_inputLen f Hwf) as Hn.
  destruct Hwf as (_ & _ & _ & _ & Hl2).
  unfold maskShown. rewrite state_updateDisplay, inputLen_updateDisplay.
  unfold updateDisplay.
  change (_state (set_displayChanged true f)) with (_state f).
  change (_inputLen (set_displayChanged true f)) with (_inputLen f).
  destruct (_state f); intros He; try discriminate He;
    rewrite display_showLines; cbn [line2];
    (rewrite cstr_strncpy_whole;
     [apply mask_text, Hn
     | rewrite mask_text by exact Hn;
       rewrite length_app, !length_replicate; lia]).
Qed.

Lemma maskShown_setState (st : LockFSMState) (f : LockFSM) :
  wellFormed f -> maskShown (setState st f).
Proof. intros Hwf. unfold setState. cbv zeta. apply maskShown_updateDisplay. exact Hwf. Qed.

Lemma maskShown_other (f : LockFSM) : entersPassword (_state f) = false -> maskShown f.
Proof. intros H He. congruence. Qed.

Lemma maskShown_printf (a : string) (b : list PrintfArg) (f : LockFSM) :
  maskShown f -> maskShown (printf a b f).
Proof. intros H. exact H. Qed.

Lemma processKey_maskShown (now : Z) (key : ascii) (f : LockFSM) :
  wellFormed f -> maskShown f -> maskShown (processKey now key f).
Proof.
  intros Hwf Hm. unfold processKey.
  destruct (Ascii.eqb key NUL); [exact Hm |].
  rewrite state_printf.
  destruct (_state f) eqn:Est;
    repeat match goal with
           | |- context [if ?c then _ else _] => destruct c eqn:?
           end;
    try match goal with
        | |- maskShown (printf _ _ _) => exact Hm
        | |- maskShown (setState _ _) => apply maskShown_setState; wf_solve
        | |- maskShown (updateDisplay _) => apply maskShown_updateDisplay; wf_solve
        | |- maskShown (setResult _ _ _ _) => apply maskShown_other; reflexivity
        | |- maskShown (clearInput (setResult _ _ _ _)) => apply maskShown_other; reflexivity
        | |- maskShown (set_oldPwdBuffer _ (clearInput (setResult _ _ _ _))) =>
            apply maskShown_other; reflexivity
        end.
  - apply wf_appendDigit; [assumption | wf_solve].
  - apply wf_appendDigit; [assumption | wf_solve].
  - exact (wf_saveOld (printf _ _ f) Hwf).
  - apply wf_appendDigit; [assumption | wf_solve].
Qed.

Lemma update_maskShown (now : Z) (f : LockFSM) :
  wellFormed f -> maskShown f -> maskShown (update now f).
Proof.
  intros Hwf Hm. unfold update.
  destruct (_state f); try exact Hm.
  destruct (u32 (now - _resultStartTime f) >=? RESULT_DISPLAY_MS); [| exact Hm].
  apply maskShown_setState, Hwf.
Qed.

(** X15. The digits entered are shown as stars.  After [init] and any sequence
    of [processKey] and [update] calls, whenever the lock is in one of the
    three password-entry states, the second line of the display is one star
    for each digit held in the input buffer, followed by spaces up to 16
    chars. *)
Theorem password_entry_is_masked (cs : list Call) :
  maskShown (performAll cs (init constructed)).
Proof.
  assert (H : forall f, wellFormed f -> maskShown f ->
                        wellFormed (performAll cs f) /\ maskShown (performAll cs f)).
  { induction cs as [| c cs IH]; intros f Hwf Hm; [split; assumption |].
    cbn [performAll fold_left]. apply IH.
    - apply perform_wf, Hwf.
    - destruct c; [apply processKey_maskShown | apply update_maskShown]; assumption. }
  apply H.
  - apply init_wf, constructed_wf.
  - apply maskShown_other. reflexivity.
Qed.

(** *** The display-changed flag *)

Lemma processKey_flags_display (now : Z) (key : ascii) (f : LockFSM) :
  _displayChanged (processKey now key f) = true \/
  (_display (processKey now key f) = _display f /\
   _displayChanged (processKey now key f) = _displayChanged f).
Proof.
  unfold processKey.
  destruct (Ascii.eqb key NUL); [right; split; reflexivity |].
  rewrite state_printf.
  destruct (_state f) eqn:Est;
    repeat match goal with
           | |- context [if ?c then _ else _] => destruct c eqn:?
           end;
    fsm_rw; auto.
Qed.

Lemma update_flags_display (now : Z) (f : LockFSM) :
  _displayChanged (update now f) = true \/
  (_display (update now f) = _display f /\
   _displayChanged (update now f) = _displayChanged f).
Proof.
  unfold update. destruct (_state f); auto.
  destruct (u32 (now - _resultStartTime f) >=? RESULT_DISPLAY_MS); fsm_rw; auto.
Qed.

(** X16. Every change of the display raises the flag.  Over any sequence
    of [processKey] and [update] calls, either [displayChanged()] is true
    at the end, or the display and the flag are what they were at the
    start. *)
Theorem display_changes_are_flagged (cs : list Call) (f : LockFSM) :
  displayChanged (performAll cs f) = true \/
  (getDisplay (performAll cs f) = getDisplay f /\
   displayChanged (performAll cs f) = displayChanged f).
Proof.
  unfold displayChanged, getDisplay.
  assert (Hstep : forall c g,
             _displayChanged (perform c g) = true \/
             (_display (perform c g) = _display g /\
              _displayChanged (perform c g) = _displayChanged g)).
  { intros [now key | now] g; [apply processKey_flags_display | apply update_flags_display]. }
  revert f. induction cs as [| c cs IH]; intros f; [right; split; reflexivity |].
  change (performAll (c :: cs) f) with (performAll cs (perform c f)).
  destruct (IH (perform c f)) as [Ht | [Hd Hc]]; [left; exact Ht |].
  destruct (Hstep c f) as [Ht' | [Hd' Hc']].
  - left. rewrite Hc. exact Ht'.
  - right. split; [rewrite Hd; exact Hd' | rewrite Hc; exact Hc'].
Qed.

(** *** Starting the entry again *)

Lemma step_clear_entry (now : Z) (f : LockFSM) (st : LockFSMState) (l : bool)
      (p i o : list ascii) :
  st = STATE_UNLOCK_PWD \/ st = STATE_CHANGE_NEW_PWD ->
  remembers f st l p i o ->
  remembers (processKey now "*" f) st l p [] o.
Proof.
  intros Hst (Hwf & Hs & Hl & Hp & Hi & Ho).
  destruct Hst; subst st; open_processKey Hs; remembers_now.
Qed.

(** X25. A star during the entry of the password to unlock starts the
    entry again: after [*1*], digits, [*], digits and [#] the lock is open
    exactly if the first eight digits typed after the last star are the
    password; the digits before it do not count. *)
Theorem star_restarts_the_entry (now : Z) (f : LockFSM) (ds1 ds2 : list ascii) :
  wellFormed f ->
  _state f = STATE_IDLE \/ _state f = STATE_SHOW_RESULT ->
  Forall (fun c => isDigitKey c = true) ds1 ->
  Forall (fun c => isDigitKey c = true) ds2 ->
  (take 8 ds2 = cstr (_password f) ->
   _locked (processKeys now ("*" :: "1" :: "*" :: ds1 ++ "*" :: ds2 ++ ["#"])%char f)
   = false) /\
  (take 8 ds2 <> cstr (_password f) ->
   _locked (processKeys now ("*" :: "1" :: "*" :: ds1 ++ "*" :: ds2 ++ ["#"])%char f)
   = _locked f).
Proof.
  intros Hwf Hst Hds1 Hds2.
  destruct (open_command now f _ _ _ _ _ Hst (remembers_self f Hwf)) as (_ & H1 & _).
  rewrite !processKeys_cons, processKeys_app, processKeys_cons, processKeys_app,
    processKeys_cons, processKeys_nil.
  rewrite !processKeys_cons, processKeys_nil in H1.
  pose proof (type_digits now ds1 Hds1 _ STATE_UNLOCK_PWD _ _ [] _ eq_refl H1) as H2.
  pose proof (step_clear_entry now _ _ _ _ _ _ (or_introl eq_refl) H2) as H3.
  pose proof (type_digits now ds2 Hds2 _ STATE_UNLOCK_PWD _ _ [] _ eq_refl H3) as H4.
  rewrite app_nil_l in H4.
  destruct (step_unlock_hash now _ _ _ _ _ H4) as [Hok Hbad].
  split; intros H.
  - destruct (Hok H) as ((_ & _ & Hl & _) & _). exact Hl.
  - destruct (Hbad H) as ((_ & _ & Hl & _) & _). exact Hl.
Qed.

Lemma star_restarts_the_entry_witness :
  _locked (processKeys 0 (list_ascii_of_string "*1*99*1234#") (init constructed)) = false.
Proof.
  destruct (star_restarts_the_entry 0 (init constructed) (list_ascii_of_string "99")
              (list_ascii_of_string "1234")) as [Hok _];
    [apply init_wf, constructed_wf | left; reflexivity | repeat constructor
    | repeat constructor |].
  apply Hok. reflexivity.
Defined.

Lemma password_entry_is_masked_witness :
  cstr (line2 (_display (performAll (map (ProcessKey 0) (list_ascii_of_string "*1*123"))
                                    (init constructed))))
  = list_ascii_of_string "***             ".
Proof.
  pose proof (password_entry_is_masked
                (map (ProcessKey 0) (list_ascii_of_string "*1*123"))) as H.
  specialize (H eq_refl). rewrite H. vm_compute. reflexivity.
Defined.

End LockFsmProps.

(** ** Led *)

Section LedProps.
Import LedDriver.

Lemma led_call_keeps_mirror (pin : Z) (c : LedCall) (lw : Led * list (Z * bool)) :
  ledPin (fst lw) = pin ->
  isOn (fst lw) = Lab2_1.levelIn pin (snd lw) ->
  ledPin (fst (perform c lw)) = pin /\
  isOn (fst (perform c lw)) = Lab2_1.levelIn pin (snd (perform c lw)).
Proof.
  destruct lw as [[p st] w]. cbn [fst snd ledPin isOn state]. intros -> Hst.
  destruct c; cbn [perform init turnOn turnOff toggle fst snd ledPin state].
  1-3: unfold isOn, Lab2_1.levelIn; cbn [fst snd ledPin state List.find];
       rewrite Z.eqb_refl; split; reflexivity.
  unfold toggle. cbn [state].
  destruct st; cbn [turnOn turnOff fst snd ledPin state];
    unfold isOn, Lab2_1.levelIn; cbn [fst snd ledPin state List.find];
    rewrite Z.eqb_refl; split; reflexivity.
Qed.

(** X17. The LED object mirrors its pin.  After [init] and any sequence of
    [init], [turnOn], [turnOff] and [toggle] calls, whatever was written to
    the pins before and whatever the constructor argument, [isOn()] is the
    level of the latest [digitalWrite] to the LED's pin, and the pin number
    is the one the LED was constructed with. *)
Theorem led_state_mirrors_pin (pin : Z) (cs : list LedCall) (writes : list (Z * bool)) :
  ledPin (fst (performAll cs (init (Led_new pin) writes))) = pin /\
  isOn (fst (performAll cs (init (Led_new pin) writes)))
  = Lab2_1.levelIn pin (snd (performAll cs (init (Led_new pin) writes))).
Proof.
  assert (H : forall lw, ledPin (fst lw) = pin ->
                         isOn (fst lw) = Lab2_1.levelIn pin (snd lw) ->
                         ledPin (fst (performAll cs lw)) = pin /\
                         isOn (fst (performAll cs lw))
                         = Lab2_1.levelIn pin (snd (performAll cs lw))).
  { induction cs as [| c cs IH]; intros lw Hp Hs; [split; assumption |].
    change (performAll (c :: cs) lw) with (performAll cs (perform c lw)).
    destruct (led_call_keeps_mirror pin c lw Hp Hs) as [Hp' Hs'].
    apply IH; assumption. }
  apply H; [reflexivity |].
  unfold isOn, Lab2_1.levelIn, init, Led_new. cbn [fst snd ledPin state List.find].
  rewrite Z.eqb_refl. reflexivity.
Qed.

(** [toggle] inverts the LED and writes the new level to its pin. *)
Lemma toggle_inverts (l : Led) (writes : list (Z * bool)) :
  isOn (fst (toggle l writes)) = negb (isOn l) /\
  snd (toggle l writes) = (ledPin l, negb (isOn l)) :: writes.
Proof. unfold toggle, isOn. destruct l as [p []]; split; reflexivity. Qed.

End LedProps.

(** ** LcdDisplay *)

Section LcdProps.
Import CString Lcd.

Lemma fold_left_cons_rev {A B : Type} (g : A -> B) (l : list A) (acc : list B) :
  fold_left (fun acc x => g x :: acc) l acc = rev (map g l) ++ acc.
Proof.
  revert acc. induction l as [| x l IH]; intros acc; [reflexivity |].
  cbn [fold_left map rev]. rewrite IH, <- app_assoc. reflexivity.
Qed.

(** The chars of an array before its first NUL are those of its string. *)
Lemma nth_cstr (text : list ascii) (i : nat) :
  (i < length (cstr text))%nat -> nth i text NUL = nth i (cstr text) NUL.
Proof.
  revert i. induction text as [| c text IH]; intros i Hi; [reflexivity |].
  cbn [cstr] in *. destruct (Ascii.eqb c NUL); [cbn in Hi; lia |].
  destruct i as [| i]; [reflexivity |]. cbn [nth length] in *. apply IH. lia.
Qed.

Lemma map_nth_seq {A : Type} (d : A) (l : list A) (n : nat) :
  (n <= length l)%nat -> map (fun i => nth i l d) (seq 0 n) = take n l.
Proof.
  revert n. induction l as [| x l IH]; intros n Hn.
  - cbn in Hn. assert (n = 0%nat) as -> by lia. reflexivity.
  - destruct n as [| n]; [reflexivity |].
    cbn [seq map nth take]. f_equal.
    rewrite <- seq_shift, map_map. apply IH. cbn in Hn. lia.
Qed.

Lemma map_const_seq {B : Type} (b : B) (a k : nat) :
  map (fun _ : nat => b) (seq a k) = replicate k b.
Proof.
  revert a. induction k as [| k IH]; intros a; [reflexivity |].
  cbn [seq map replicate]. rewrite IH. reflexivity.
Qed.

(** X18. [printLine] fills the row.  After positioning the cursor at
    column 0 of the row, it writes exactly [_cols] chars, whatever the text.
    For a text of fewer than 256 chars (so that its length fits the
    [uint8_t] it is stored in) these are the text cut at [_cols] chars and
    then spaces up to [_cols]. *)
Theorem printLine_fills_the_row (d : LcdDisplay) (row : Z) (text : list ascii)
        (ops : list LcdOp) :
  exists chars : list ascii,
    printLine d row text ops = rev (map OpWrite chars) ++ OpSetCursor 0 row :: ops /\
    length chars = Z.to_nat (_cols d) /\
    (strlen text < 256 ->
     chars = take (Z.to_nat (_cols d)) (cstr text)
             ++ replicate (Z.to_nat (_cols d) - length (cstr text)) " "%char).
Proof.
  unfold printLine. cbv zeta.
  set (len := if u8 (strlen text) >? _cols d then _cols d else u8 (strlen text)).
  assert (Hu8 : 0 <= u8 (strlen text) <= strlen text).
  { unfold u8, strlen. pose proof (Z.mod_pos_bound (Z.of_nat (length (cstr text))) 256).
    pose proof (Z.mod_le (Z.of_nat (length (cstr text))) 256). lia. }
  assert (Hlen : (Z.to_nat len <= length (cstr text))%nat /\
                 (Z.to_nat len <= Z.to_nat (_cols d))%nat).
  { unfold len, strlen in *. destruct (Z.gtb_spec (u8 (Z.of_nat (length (cstr text)))) (_cols d)); lia. }
  destruct Hlen as [Hl1 Hl2].
  exists (take (Z.to_nat len) (cstr text)
          ++ replicate (Z.to_nat (_cols d) - Z.to_nat len) " "%char).
  split; [| split].
  - rewrite (fold_left_cons_rev (fun _ : nat => OpWrite " ")).
    rewrite (fold_left_cons_rev (fun i : nat => OpWrite (nth i text NUL))).
    rewrite map_app, rev_app_distr, <- app_assoc. f_equal.
    + f_equal. rewrite map_const_seq, fmap_replicate. reflexivity.
    + f_equal. rewrite <- (map_nth_seq NUL (cstr text)) by exact Hl1.
      rewrite !map_map. f_equal. apply map_ext_in. intros i Hi.
      apply in_seq in Hi. rewrite nth_cstr by lia. reflexivity.
  - rewrite length_app, length_take, length_replicate. lia.
  - intros H256.
    assert (Hlen' : Z.to_nat len = Nat.min (length (cstr text)) (Z.to_nat (_cols d))).
    { unfold len. unfold u8 in *. unfold strlen in *.
      rewrite Z.mod_small by lia.
      destruct (Z.gtb_spec (Z.of_nat (length (cstr text))) (_cols d)); lia. }
    rewrite Hlen'. f_equal.
    + destruct (Nat.le_gt_cases (length (cstr text)) (Z.to_nat (_cols d))).
      * rewrite Nat.min_l by lia. rewrite !take_ge by lia. reflexivity.
      * rewrite Nat.min_r by lia. reflexivity.
    + f_equal. lia.
Qed.

(** A text of 300 chars: its length is stored as 44, and 44 chars would be
    written on a display of 50 columns before the spaces. *)
Example printLine_long_text :
  written (printLine (mkLcdDisplay 50 2) 0 (replicate 300 "a"%char ++ [NUL]) [])
  = replicate 44 "a"%char ++ replicate 6 " "%char.
Proof. vm_compute. reflexivity. Qed.

End LcdProps.

(** ** Lab 1.2: the application loop *)

Section Lab1_2Props.
Import Lab1_2.

Ltac app_simpl :=
  cbn [with_lockFSM with_redLed with_greenLed with_lcdOps set_prevLocked Lab1_2.printf
       refreshLcd redLed greenLed lcd lockFSM prevLocked pinWrites lcdOps
       LedDriver.turnOn LedDriver.turnOff LedDriver.isOn LedDriver.ledPin LedDriver.state
       LockFsm.getDisplay LockFsm.isLocked LockFsm.displayChanged
       LockFsm.clearDisplayChanged LockFsm.set_displayChanged LockFsm.printf
       LockFsm._locked LockFsm._display LockFsm._displayChanged] in *.

(** Steps 3 and 4 of the loop, on the FSM [G] that steps 1 and 2 left. *)
Lemma loop_outputs (r g : LedDriver.Led) (l : Lcd.LcdDisplay) (f G : LockFsm.LockFSM)
      (p : bool) (w : list (Z * bool)) (ops : list Lcd.LcdOp) (a' : App) :
  inSync (mkApp r g l f p w ops) ->
  LockFsm._displayChanged G = true \/
  (LockFsm._display G = LockFsm._display f /\
   LockFsm._displayChanged G = LockFsm._displayChanged f) ->
  a' = (let a := mkApp r g l G p w ops in
        let a := if LockFsm.displayChanged (lockFSM a) then refreshLcd a else a in
        let currentLocked := LockFsm.isLocked (lockFSM a) in
        if Bool.eqb currentLocked (prevLocked a) then a
        else
          let a :=
            if currentLocked then
              let a := with_redLed LedDriver.turnOn a in
              let a := with_greenLed LedDriver.turnOff a in
              Lab1_2.printf "[LED] Red ON, Green OFF (LOCKED)\r\n" a
            else
              let a := with_redLed LedDriver.turnOff a in
              let a := with_greenLed LedDriver.turnOn a in
              Lab1_2.printf "[LED] Red OFF, Green ON (UNLOCKED)\r\n" a in
          set_prevLocked currentLocked a) ->
  inSync a' /\
  LockFsm._locked (lockFSM a') = LockFsm._locked G /\
  LockFsm._state (lockFSM a') = LockFsm._state G /\
  LockFsm._password (lockFSM a') = LockFsm._password G /\
  LockFsm._inputBuffer (lockFSM a') = LockFsm._inputBuffer G /\
  LockFsm._oldPwdBuffer (lockFSM a') = LockFsm._oldPwdBuffer G /\
  LockFsm._inputLen (lockFSM a') = LockFsm._inputLen G /\
  LockFsm._display (lockFSM a') = LockFsm._display G /\
  LockFsm._resultStartTime (lockFSM a') = LockFsm._resultStartTime G.
Proof.
  intros Hin Hflag ->. unfold inSync in *. cbv zeta.
  unfold LockFsm.displayChanged, LockFsm.isLocked, LockFsm.getDisplay in *. app_simpl.
  destruct Hin as (Hrp & Hgp & Hr & Hg & Hrw & Hgw & Hp & Hdc & opsd & Hops).
  destruct r as [rp rs], g as [gp gs]. app_simpl. subst rp gp rs gs p.
  destruct (LockFsm._displayChanged G) eqn:Edc; app_simpl.
  - destruct (LockFsm._locked G) eqn:El, (LockFsm._locked f) eqn:Elf; app_simpl;
      unfold Lab2_1.levelIn in *; cbn; rewrite ?El;
      repeat split; try assumption; try reflexivity; eexists; reflexivity.
  - destruct Hflag as [Hc | [Hd _]]; [discriminate |].
    destruct (LockFsm._locked G) eqn:El, (LockFsm._locked f) eqn:Elf; app_simpl;
      unfold Lab2_1.levelIn in *; cbn; rewrite ?El, ?Edc, ?Hd;
      repeat split; try assumption; try reflexivity; exists opsd; exact Hops.
Qed.

Lemma processKey_NUL (now : Z) (f : LockFsm.LockFSM) : LockFsm.processKey now CString.NUL f = f.
Proof. reflexivity. Qed.

Lemma step_flags_display (key : ascii) (now1 now2 : Z) (f : LockFsm.LockFSM) :
  LockFsm._displayChanged (LockFsm.update now2 (LockFsm.processKey now1 key f)) = true \/
  (LockFsm._display (LockFsm.update now2 (LockFsm.processKey now1 key f)) = LockFsm._display f /\
   LockFsm._displayChanged (LockFsm.update now2 (LockFsm.processKey now1 key f))
   = LockFsm._displayChanged f).
Proof.
  destruct (update_flags_display now2 (LockFsm.processKey now1 key f)) as [H | [Hd Hc]];
    [left; exact H |].
  destruct (processKey_flags_display now1 key f) as [H | [Hd' Hc']].
  - left. rewrite Hc. exact H.
  - right. split; [rewrite Hd; exact Hd' | rewrite Hc; exact Hc'].
Qed.

Lemma loop_step (key : ascii) (now1 now2 : Z) (a : App) :
  inSync a ->
  inSync (lab1_2Loop key now1 now2 a) /\
  LockFsm._locked (lockFSM (lab1_2Loop key now1 now2 a))
  = LockFsm._locked (LockFsm.update now2 (LockFsm.processKey now1 key (lockFSM a))) /\
  LockFsm._state (lockFSM (lab1_2Loop key now1 now2 a))
  = LockFsm._state (LockFsm.update now2 (LockFsm.processKey now1 key (lockFSM a))) /\
  LockFsm._password (lockFSM (lab1_2Loop key now1 now2 a))
  = LockFsm._password (LockFsm.update now2 (LockFsm.processKey now1 key (lockFSM a))) /\
  LockFsm._inputBuffer (lockFSM (lab1_2Loop key now1 now2 a))
  = LockFsm._inputBuffer (LockFsm.update now2 (LockFsm.processKey now1 key (lockFSM a))) /\
  LockFsm._oldPwdBuffer (lockFSM (lab1_2Loop key now1 now2 a))
  = LockFsm._oldPwdBuffer (LockFsm.update now2 (LockFsm.processKey now1 key (lockFSM a))) /\
  LockFsm._inputLen (lockFSM (lab1_2Loop key now1 now2 a))
  = LockFsm._inputLen (LockFsm.update now2 (LockFsm.processKey now1 key (lockFSM a))) /\
  LockFsm._display (lockFSM (lab1_2Loop key now1 now2 a))
  = LockFsm._display (LockFsm.update now2 (LockFsm.processKey now1 key (lockFSM a))) /\
  LockFsm._resultStartTime (lockFSM (lab1_2Loop key now1 now2 a))
  = LockFsm._resultStartTime (LockFsm.update now2 (LockFsm.processKey now1 key (lockFSM a))).
Proof.
  intros Hin. destruct a as [r g l f p w ops]. cbn [lockFSM].
  apply (loop_outputs r g l f (LockFsm.update now2 (LockFsm.processKey now1 key f)) p w ops);
    [exact Hin | apply step_flags_display |].
  unfold lab1_2Loop.
  destruct (Ascii.eqb_spec key CString.NUL) as [-> | Hne].
  - rewrite processKey_NUL. reflexivity.
  - reflexivity.
Qed.

(** X19. The outputs follow the lock.  After [lab1_2Setup] and any number
    of iterations of [lab1_2Loop], whatever keys are pressed at whatever
    times: the red LED and its pin are on exactly if the lock is engaged,
    the green LED and its pin exactly if it is not, [prevLocked] is the
    state of the lock, no display change is pending, and the last two
    lines sent to the LCD are the display of the FSM. *)
Theorem outputs_follow_the_lock (inputs : list (ascii * Z * Z)) :
  inSync (loops inputs (lab1_2Setup constructed)).
Proof.
  assert (H : forall a, inSync a -> inSync (loops inputs a)).
  { induction inputs as [| x inputs IH]; intros a Ha; [exact Ha |].
    change (loops (x :: inputs) a)
      with (loops inputs (lab1_2Loop (fst (fst x)) (snd (fst x)) (snd x) a)).
    apply IH, loop_step, Ha. }
  apply H. unfold inSync.
  repeat (split; [vm_compute; reflexivity |]).
  exists (Lcd.init []). vm_compute. reflexivity.
Qed.

(** X20. The loop drives the FSM and nothing else does.  One iteration
    with the outputs in agreement leaves the FSM as [processKey] (for a key
    other than NUL) followed by [update] leave it, up to the
    display-changed flag, which the iteration clears, and the log. *)
Theorem loop_drives_the_fsm (key : ascii) (now1 now2 : Z) (a : App) :
  inSync a ->
  let f' := LockFsm.update now2
              (if Ascii.eqb key CString.NUL then lockFSM a
               else LockFsm.processKey now1 key (lockFSM a)) in
  LockFsm._state (lockFSM (lab1_2Loop key now1 now2 a)) = LockFsm._state f' /\
  LockFsm._locked (lockFSM (lab1_2Loop key now1 now2 a)) = LockFsm._locked f' /\
  LockFsm._password (lockFSM (lab1_2Loop key now1 now2 a)) = LockFsm._password f' /\
  LockFsm._inputBuffer (lockFSM (lab1_2Loop key now1 now2 a)) = LockFsm._inputBuffer f' /\
  LockFsm._oldPwdBuffer (lockFSM (lab1_2Loop key now1 now2 a)) = LockFsm._oldPwdBuffer f' /\
  LockFsm._inputLen (lockFSM (lab1_2Loop key now1 now2 a)) = LockFsm._inputLen f' /\
  LockFsm._display (lockFSM (lab1_2Loop key now1 now2 a)) = LockFsm._display f' /\
  LockFsm._resultStartTime (lockFSM (lab1_2Loop key now1 now2 a))
  = LockFsm._resultStartTime f' /\
  LockFsm._displayChanged (lockFSM (lab1_2Loop key now1 now2 a)) = false.
Proof.
  intros Hin f'.
  assert (Ef : f' = LockFsm.update now2 (LockFsm.processKey now1 key (lockFSM a))).
  { unfold f'. destruct (Ascii.eqb_spec key CString.NUL) as [-> | Hne];
      [rewrite processKey_NUL |]; reflexivity. }
  rewrite Ef.
  destruct (loop_step key now1 now2 a Hin)
    as (Hs & H1 & H2 & H3 & H4 & H5 & H6 & H7 & H8).
  destruct Hs as (_ & _ & _ & _ & _ & _ & _ & Hdc & _).
  repeat split; assumption.
Qed.

Lemma loop_drives_the_fsm_witness :
  LockFsm._state (lockFSM (lab1_2Loop "*" 10 11 (lab1_2Setup constructed)))
  = LockFsm.STATE_MENU.
Proof.
  destruct (loop_drives_the_fsm "*" 10 11 (lab1_2Setup constructed)) as (Hs & _).
  - unfold inSync. repeat (split; [vm_compute; reflexivity |]).
    exists (Lcd.init []). vm_compute. reflexivity.
  - rewrite Hs. vm_compute. reflexivity.
Defined.

End Lab1_2Props.

(** ** CommandParser *)

Section CommandParserProps.
Import CString CommandParser.

Ltac all_chars c :=
  destruct c as [[] [] [] [] [] [] [] []].

Lemma isspace_not_NUL (c : ascii) : isspace c = true -> c <> NUL.
Proof. intros H ->. vm_compute in H. discriminate. Qed.

Lemma tolower_not_NUL (c : ascii) : c <> NUL -> tolower c <> NUL.
Proof. all_chars c; intros H; vm_compute; try discriminate. exfalso. apply H. reflexivity. Qed.

Lemma isspace_tolower (c : ascii) : isspace (tolower c) = isspace c.
Proof. all_chars c; vm_compute; reflexivity. Qed.

Lemma lookup_nth {A : Type} (l : list A) (i : nat) (d : A) :
  (i < length l)%nat -> l !! i = Some (nth i l d).
Proof.
  intros H. destruct (nth_lookup_or_length l i d) as [E | E]; [exact E | lia].
Qed.

Lemma length_cstr_le (buf : list ascii) : (length (cstr buf) <= length buf)%nat.
Proof.
  induction buf as [| c buf IH]; [reflexivity |].
  cbn [cstr]. destruct (Ascii.eqb c NUL); cbn [length]; lia.
Qed.

(** After the string of an array comes NUL, or the end of the array. *)
Lemma nth_cstr_end (buf : list ascii) : nth (length (cstr buf)) buf NUL = NUL.
Proof.
  induction buf as [| c buf IH]; [reflexivity |].
  cbn [cstr]. destruct (Ascii.eqb_spec c NUL) as [-> | Hne]; [reflexivity |].
  cbn [length nth]. exact IH.
Qed.

Lemma nth_cstr_not_NUL (buf : list ascii) (i : nat) :
  (i < length (cstr buf))%nat -> nth i buf NUL <> NUL.
Proof.
  intros Hi. rewrite nth_cstr by exact Hi.
  pose proof (cstr_no_NUL buf) as Hn.
  rewrite List.Forall_forall in Hn. apply Hn, nth_In. exact Hi.
Qed.

(** An array that starts with NUL-free chars and then has a NUL holds
    these chars. *)
Lemma cstr_take_NUL (l x : list ascii) (e : nat) :
  take e l = x -> l !! e = Some NUL -> Forall (fun c => c <> NUL) x -> cstr l = x.
Proof.
  intros Ht Hn Hx. rewrite <- (take_drop e l), Ht, (drop_S _ _ _ Hn).
  apply cstr_app_NUL, Hx.
Qed.

Lemma toLowerLoop_spec (src : list ascii) (maxLen : Z) (D e : nat) :
  e = Nat.min (length (cstr src)) (Z.to_nat (u16 (maxLen - 1))) ->
  (e < D)%nat ->
  forall (fuel k : nat) (dest : list ascii),
    (k <= e)%nat -> (e - k <= fuel)%nat ->
    take k dest = map tolower (take k (cstr src)) ->
    length dest = D ->
    exists dest',
      toLowerLoop fuel (Z.of_nat k) dest src maxLen = (Z.of_nat e, dest') /\
      take e dest' = map tolower (take e (cstr src)) /\
      length dest' = D.
Proof.
  intros He HD.
  assert (Hm : 0 <= u16 (maxLen - 1) < 65536) by (unfold u16; apply Z.mod_pos_bound; lia).
  induction fuel as [| fuel IH]; intros k dest Hk Hf Ht Hl.
  - assert (k = e) as -> by lia. exists dest. repeat split; assumption.
  - cbn [toLowerLoop]. rewrite Nat2Z.id.
    destruct (Nat.eq_dec k e) as [-> | Hne].
    + exists dest. split; [| split; assumption].
      destruct (Nat.eq_dec e (length (cstr src))) as [El | Enl].
      * rewrite El, nth_cstr_end. reflexivity.
      * assert (Z.of_nat e = u16 (maxLen - 1)) as -> by lia.
        rewrite Z.ltb_irrefl, andb_false_r. reflexivity.
    + assert (Hlt : (k < e)%nat) by lia.
      assert (Hnn : nth k src NUL <> NUL) by (apply nth_cstr_not_NUL; lia).
      apply Ascii.eqb_neq in Hnn. rewrite Hnn. cbn [negb andb].
      assert (Hltb : (Z.of_nat k <? u16 (maxLen - 1)) = true) by (apply Z.ltb_lt; lia).
      rewrite Hltb.
      assert (Hu : u16 (Z.of_nat k + 1) = Z.of_nat (S k)).
      { unfold u16. rewrite Z.mod_small by lia. lia. }
      rewrite Hu. apply IH; [lia | lia | | rewrite length_insert; exact Hl].
      assert (Hlk : cstr src !! k = Some (nth k src NUL)).
      { rewrite nth_cstr by lia. apply lookup_nth. lia. }
      rewrite (take_S_r _ _ _ Hlk), map_app. cbn [map].
      rewrite (take_S_r _ _ (tolower (nth k src NUL)))
        by (apply list_lookup_insert_eq; lia).
      rewrite take_insert_ge by lia. rewrite Ht. reflexivity.
Qed.

(** [toLowerStr] leaves in [dest] the string of [src] in lower case, cut
    at [maxLen - 1] chars. *)
Lemma cstr_toLowerStr (dest src : list ascii) (maxLen : Z) :
  (Nat.min (length (cstr src)) (Z.to_nat (u16 (maxLen - 1))) < length dest)%nat ->
  cstr (toLowerStr dest src maxLen)
  = map tolower (take (Z.to_nat (u16 (maxLen - 1))) (cstr src)).
Proof.
  intros HD. unfold toLowerStr.
  destruct (toLowerLoop_spec src maxLen (length dest) _ eq_refl HD (length src) 0 dest)
    as (dest' & Hrun & Ht & Hl); [lia | | reflexivity | reflexivity |].
  { pose proof (length_cstr_le src). lia. }
  change (Z.of_nat 0) with 0 in Hrun. rewrite Hrun. rewrite Nat2Z.id.
  rewrite (cstr_take_NUL _ _ _ (eq_trans (take_insert_ge _ _ _ _ (le_n _)) Ht)).
  - f_equal.
    destruct (Nat.le_gt_cases (length (cstr src)) (Z.to_nat (u16 (maxLen - 1)))).
    + rewrite Nat.min_l by lia. rewrite !take_ge by lia. reflexivity.
    + rewrite Nat.min_r by lia. reflexivity.
  - apply list_lookup_insert_eq. lia.
  - apply List.Forall_map.
    eapply Forall_impl; [apply Forall_take, cstr_no_NUL | exact tolower_not_NUL].
Qed.

(** What the pointer of [trimStr] skips is white space, and it stops at
    the end of the string or on a char that is not white space. *)
Lemma skipSpaces_spec (src : list ascii) :
  exists pre : list ascii,
    cstr src = pre ++ cstr (skipSpaces src) /\
    Forall (fun c => isspace c = true) pre /\
    (cstr (skipSpaces src) = [] \/
     exists c rest, cstr (skipSpaces src) = c :: rest /\ isspace c = false).
Proof.
  induction src as [| c src IH].
  - exists []. repeat split; [constructor | left; reflexivity].
  - cbn [skipSpaces].
    destruct (Ascii.eqb c NUL) eqn:En; cbn [negb andb].
    + exists []. cbn [cstr]. rewrite En. repeat split; [constructor | left; reflexivity].
    + destruct (isspace c) eqn:Es.
      * destruct IH as (pre & Hc & Hp & Hh).
        exists (c :: pre). cbn [cstr]. rewrite En, Hc.
        split; [reflexivity |]. split; [constructor; assumption | exact Hh].
      * exists []. split; [reflexivity |]. split; [constructor |].
        right. cbn [cstr]. rewrite En. eauto.
Qed.

(** What [trimStr] cuts off the end is white space, and it stops at the
    start of the string or after a char that is not white space. *)
Lemma trimEnd_spec (src : list ascii) :
  forall (fuel len : nat),
    (len <= length (cstr src))%nat -> (len <= fuel)%nat ->
    Forall (fun c => isspace c = true) (drop len (cstr src)) ->
    exists n : nat,
      trimEnd fuel (Z.of_nat len) src = Z.of_nat n /\
      (n <= len)%nat /\
      Forall (fun c => isspace c = true) (drop n (cstr src)) /\
      (n = 0%nat \/
       exists a c, take n (cstr src) = a ++ [c] /\ isspace c = false).
Proof.
  induction fuel as [| fuel IH]; intros len Hlen Hf Hsp.
  - assert (len = 0%nat) as -> by lia. exists 0%nat. repeat split; auto.
  - cbn [trimEnd].
    destruct len as [| len].
    + exists 0%nat. repeat split; auto.
    + assert (Hgt : (Z.of_nat (S len) >? 0) = true) by (apply Z.gtb_lt; lia).
      rewrite Hgt. cbn [andb].
      replace (Z.to_nat (Z.of_nat (S len) - 1)) with len by lia.
      rewrite nth_cstr by lia.
      assert (Hlk : cstr src !! len = Some (nth len (cstr src) NUL))
        by (apply lookup_nth; lia).
      destruct (isspace (nth len (cstr src) NUL)) eqn:Es.
      * replace (Z.of_nat (S len) - 1) with (Z.of_nat len) by lia.
        destruct (IH len) as (n & Hrun & Hn & Hd & Hlast); [lia | lia | |].
        { rewrite (drop_S _ _ _ Hlk). constructor; assumption. }
        exists n. repeat split; [exact Hrun | lia | exact Hd | exact Hlast].
      * exists (S len). split; [reflexivity |]. split; [lia |]. split; [exact Hsp |].
        right. exists (take len (cstr src)), (nth len (cstr src) NUL).
        split; [apply take_S_r, Hlk | exact Es].
Qed.

(** [trimStr] leaves in [dest] the string of [src] without the white
    space before and after it, cut at [maxLen - 1] chars. *)
Lemma cstr_trimStr (dest src : list ascii) (maxLen : Z) :
  strlen src < 65536 -> 0 < maxLen < 65536 -> length dest = Z.to_nat maxLen ->
  exists pre core post : list ascii,
    cstr src = pre ++ core ++ post /\
    Forall (fun c => isspace c = true) pre /\
    Forall (fun c => isspace c = true) post /\
    (core = [] \/ exists c rest, core = c :: rest /\ isspace c = false) /\
    (core = [] \/ exists a c, core = a ++ [c] /\ isspace c = false) /\
    cstr (trimStr dest src maxLen) = take (Z.to_nat maxLen - 1) core.
Proof.
  intros Hsl Hmax Hdl.
  destruct (skipSpaces_spec src) as (pre & Hsrc & Hpre & Hhead).
  set (s := cstr (skipSpaces src)) in *.
  assert (Hls : (length s <= length (cstr src))%nat).
  { rewrite Hsrc, length_app. lia. }
  destruct (trimEnd_spec (skipSpaces src) (length s) (length s))
    as (n & Hrun & Hn & Hpost & Hlast); [reflexivity | reflexivity | |].
  { fold s. rewrite drop_all. constructor. }
  fold s in Hpost, Hlast.
  exists pre, (take n s), (drop n s).
  rewrite take_drop.
  split; [exact Hsrc |]. split; [exact Hpre |]. split; [exact Hpost |].
  split; [| split].
  - destruct Hhead as [He | (c & rest & He & Hc)].
    + left. rewrite He. apply take_nil.
    + destruct n as [| n]; [left; reflexivity |].
      right. exists c, (take n rest). rewrite He. split; [reflexivity | exact Hc].
  - destruct Hlast as [-> | Hl]; [left; reflexivity | right; exact Hl].
  - unfold trimStr. cbv zeta. fold s.
    assert (Hu : u16 (strlen (skipSpaces src)) = Z.of_nat (length s)).
    { unfold u16, strlen in *. fold s. apply Z.mod_small. lia. }
    rewrite Hu, Nat2Z.id, Hrun.
    set (len' := if Z.of_nat n >=? maxLen then u16 (maxLen - 1) else Z.of_nat n).
    assert (Hn' : Z.to_nat len' = Nat.min (Z.to_nat maxLen - 1) n).
    { unfold len', u16. rewrite Z.mod_small by lia.
      destruct (Z.geb_spec (Z.of_nat n) maxLen); lia. }
    rewrite Hn', take_take.
    set (n' := Nat.min (Z.to_nat maxLen - 1) n).
    assert (Hn'n : (n' <= n)%nat) by (unfold n'; lia).
    assert (Hn'm : (n' < Z.to_nat maxLen)%nat) by (unfold n'; lia).
    apply (cstr_take_NUL _ _ n').
    + rewrite take_insert_ge by lia. unfold strncpy.
      rewrite take_app_le by (rewrite length_take, length_app, length_replicate; lia).
      rewrite take_take, Nat.min_id. rewrite take_app_le by (fold s; lia). reflexivity.
    + apply list_lookup_insert_eq. unfold strncpy.
      rewrite length_app, length_take, length_app, length_replicate, length_drop. fold s. lia.
    + apply Forall_take, cstr_no_NUL.
Qed.

Lemma isspace_head_unique (pre0 s pre core post : list ascii) (c1 : ascii) (core' : list ascii) :
  pre0 ++ s = pre ++ core ++ post ->
  Forall (fun c => isspace c = true) pre0 ->
  Forall (fun c => isspace c = true) pre ->
  (s = [] \/ exists c rest, s = c :: rest /\ isspace c = false) ->
  core = c1 :: core' -> isspace c1 = false ->
  pre0 = pre /\ s = core ++ post.
Proof.
  intros Heq Hp0 Hp Hs -> Hc1. revert pre Heq Hp.
  induction pre0 as [| y pre0 IH]; intros pre Heq Hp.
  - destruct pre as [| x pre]; [split; [reflexivity | exact Heq] |].
    exfalso. cbn in Heq. pose proof (Forall_inv Hp) as Hx.
    destruct Hs as [-> | (c & rest & -> & Hc)]; [discriminate |].
    injection Heq as -> _. congruence.
  - pose proof (Forall_inv Hp0) as Hy.
    destruct pre as [| x pre].
    + exfalso. cbn in Heq. injection Heq as -> _. congruence.
    + cbn in Heq. injection Heq as -> Heq.
      destruct (IH (Forall_inv_tail Hp0) pre Heq (Forall_inv_tail Hp)) as [-> Hs'].
      split; [reflexivity | exact Hs'].
Qed.

(** A string has one core between white space only. *)
Lemma trim_unique (pre core post pre2 core2 post2 : list ascii) :
  pre ++ core ++ post = pre2 ++ core2 ++ post2 ->
  Forall (fun c => isspace c = true) pre ->
  Forall (fun c => isspace c = true) post ->
  Forall (fun c => isspace c = true) pre2 ->
  Forall (fun c => isspace c = true) post2 ->
  (core = [] \/ exists c rest, core = c :: rest /\ isspace c = false) ->
  (core = [] \/ exists a c, core = a ++ [c] /\ isspace c = false) ->
  (exists c rest, core2 = c :: rest /\ isspace c = false) ->
  (exists a c, core2 = a ++ [c] /\ isspace c = false) ->
  core = core2.
Proof.
  intros Heq Hpre Hpost Hpre2 Hpost2 Hhead Hlast (c1 & r2 & Hc2 & Hc1) (a2 & cl & Hc2' & Hcl).
  assert (Hne : core <> []).
  { intros ->. cbn [app] in Heq.
    assert (Hall : Forall (fun c => isspace c = true) (pre2 ++ core2 ++ post2)).
    { rewrite <- Heq. apply Forall_app. split; assumption. }
    rewrite Hc2 in Hall. apply Forall_app in Hall as [_ Hall].
    cbn in Hall. apply Forall_inv in Hall. congruence. }
  destruct Hhead as [-> | (c & rest & Hcore & Hc)]; [contradiction |].
  destruct Hlast as [-> | (a & c' & Hcore' & Hc')]; [contradiction |].
  destruct (isspace_head_unique pre (core ++ post) pre2 core2 post2 c1 r2)
    as [_ Htail]; try assumption.
  { right. exists c, (rest ++ post). rewrite Hcore. split; [reflexivity | exact Hc]. }
  apply (f_equal (@rev ascii)) in Htail. rewrite !rev_app_distr in Htail.
  destruct (isspace_head_unique (rev post) (rev core) (rev post2) (rev core2) [] cl (rev a2))
    as [_ Hrev].
  - rewrite app_nil_r. exact Htail.
  - apply Forall_rev. exact Hpost.
  - apply Forall_rev. exact Hpost2.
  - right. exists c', (rev a). rewrite Hcore', rev_app_distr. split; [reflexivity | exact Hc'].
  - rewrite Hc2', rev_app_distr. reflexivity.
  - exact Hcl.
  - rewrite app_nil_r in Hrev. apply (f_equal (@rev ascii)) in Hrev.
    rewrite !rev_involutive in Hrev. exact Hrev.
Qed.

(** The string that [parseCommand] compares with the command words. *)
Lemma lower_of_input (trimmed lower input : list ascii) :
  length trimmed = 64%nat -> length lower = 64%nat -> strlen input < 65536 ->
  exists pre core post : list ascii,
    cstr input = pre ++ core ++ post /\
    Forall (fun c => isspace c = true) pre /\
    Forall (fun c => isspace c = true) post /\
    (core = [] \/ exists c rest, core = c :: rest /\ isspace c = false) /\
    (core = [] \/ exists a c, core = a ++ [c] /\ isspace c = false) /\
    cstr (toLowerStr lower (trimStr trimmed input PARSE_BUFFER_SIZE) PARSE_BUFFER_SIZE)
    = map tolower (take 63 core).
Proof.
  intros Ht Hl Hlen.
  destruct (cstr_trimStr trimmed input PARSE_BUFFER_SIZE Hlen)
    as (pre & core & post & Hin & Hpre & Hpost & Hhead & Hlast & Htr);
    [unfold PARSE_BUFFER_SIZE; lia | exact Ht |].
  exists pre, core, post. repeat (split; [assumption |]).
  change (Z.to_nat PARSE_BUFFER_SIZE - 1)%nat with 63%nat in Htr.
  rewrite cstr_toLowerStr.
  - change (Z.to_nat (u16 (PARSE_BUFFER_SIZE - 1))) with 63%nat.
    rewrite Htr, take_take. reflexivity.
  - change (Z.to_nat (u16 (PARSE_BUFFER_SIZE - 1))) with 63%nat. rewrite Hl. lia.
Qed.

(** The lower-case core of the input is the word exactly if the input
    spells it. *)
Lemma core_is_word (input pre core post : list ascii) (word : string)
      (w1 wl : ascii) (wmid wfront : list ascii) :
  cstr input = pre ++ core ++ post ->
  Forall (fun c => isspace c = true) pre ->
  Forall (fun c => isspace c = true) post ->
  (core = [] \/ exists c rest, core = c :: rest /\ isspace c = false) ->
  (core = [] \/ exists a c, core = a ++ [c] /\ isspace c = false) ->
  list_ascii_of_string word = w1 :: wmid ->
  list_ascii_of_string word = wfront ++ [wl] ->
  isspace w1 = false -> isspace wl = false ->
  (length (list_ascii_of_string word) < 63)%nat ->
  map tolower (take 63 core) = list_ascii_of_string word <-> spells input word.
Proof.
  intros Hin Hpre Hpost Hhead Hlast Hw1 Hwl Hs1 Hsl Hlen. split.
  - intros Hm. exists pre, core, post. repeat (split; [assumption |]).
    assert (Hl : (length (take 63 core) < 63)%nat).
    { rewrite <- (length_map tolower), Hm. exact Hlen. }
    rewrite length_take in Hl. rewrite take_ge in Hm by lia. exact Hm.
  - intros (pre2 & core2 & post2 & Hin2 & Hpre2 & Hpost2 & Hm).
    assert (Hcore : core = core2).
    { apply (trim_unique pre core post pre2 core2 post2); try assumption.
      - rewrite <- Hin. exact Hin2.
      - rewrite Hw1 in Hm. destruct core2 as [| c r]; [discriminate |].
        cbn [map] in Hm. injection Hm as Hc _.
        exists c, r. split; [reflexivity |]. rewrite <- isspace_tolower, Hc. exact Hs1.
      - rewrite Hwl in Hm. apply map_eq_app in Hm as (a & b & -> & _ & Hb).
        destruct b as [| c [| ? ?]]; try discriminate. cbn [map] in Hb. injection Hb as Hc.
        exists a, c. split; [reflexivity |]. rewrite <- isspace_tolower, Hc. exact Hsl. }
    rewrite Hcore, take_ge; [exact Hm |].
    rewrite <- (length_map tolower), Hm. lia.
Qed.

Lemma parseCommand_cases (trimmed lower input : list ascii) :
  length trimmed = 64%nat -> length lower = 64%nat -> strlen input < 65536 ->
  (parseCommand trimmed lower input = CMD_LED_ON <-> spells input "led on") /\
  (parseCommand trimmed lower input = CMD_LED_OFF <-> spells input "led off") /\
  (parseCommand trimmed lower input = CMD_UNKNOWN <->
   ~ spells input "led on" /\ ~ spells input "led off").
Proof.
  intros Ht Hl Hlen.
  destruct (lower_of_input trimmed lower input Ht Hl Hlen)
    as (pre & core & post & Hin & Hpre & Hpost & Hhead & Hlast & Hlow).
  assert (Hon : map tolower (take 63 core) = list_ascii_of_string "led on"
                <-> spells input "led on").
  { apply (core_is_word input pre core post "led on" "l" "n"
             (list_ascii_of_string "ed on") (list_ascii_of_string "led o"));
      try assumption; try reflexivity. cbn. lia. }
  assert (Hoff : map tolower (take 63 core) = list_ascii_of_string "led off"
                 <-> spells input "led off").
  { apply (core_is_word input pre core post "led off" "l" "f"
             (list_ascii_of_string "ed off") (list_ascii_of_string "led of"));
      try assumption; try reflexivity. cbn. lia. }
  unfold parseCommand. cbv zeta.
  set (low := toLowerStr lower (trimStr trimmed input PARSE_BUFFER_SIZE) PARSE_BUFFER_SIZE)
    in *.
  assert (Hcmp : forall w : string,
             forallb (fun c => negb (Ascii.eqb c NUL)) (list_ascii_of_string w) = true ->
             strcmp_is_0 low (literal w) = true <->
             map tolower (take 63 core) = list_ascii_of_string w).
  { intros w Hw. rewrite strcmp_is_0_iff, text_is_string by exact Hw.
    rewrite Hlow. reflexivity. }
  pose proof (Hcmp "led on"%string eq_refl) as Con.
  pose proof (Hcmp "led off"%string eq_refl) as Coff.
  assert (Hex : ~ (spells input "led on" /\ spells input "led off")).
  { intros [H1 H2]. apply Hon in H1. apply Hoff in H2. rewrite H1 in H2. discriminate. }
  destruct (strcmp_is_0 low (literal "led on")) eqn:E1.
  - assert (S1 : spells input "led on") by (apply Hon, Con; reflexivity).
    split; [split; auto |]. split; split; try discriminate.
    + intros S2. exfalso. apply Hex. split; assumption.
    + intros [N1 _]. contradiction.
  - assert (N1 : ~ spells input "led on").
    { intros S1. apply Hon, Con in S1. discriminate. }
    destruct (strcmp_is_0 low (literal "led off")) eqn:E2.
    + assert (S2 : spells input "led off") by (apply Hoff, Coff; reflexivity).
      split; [split; [discriminate | intros S1; contradiction] |].
      split; [split; auto |]. split; [discriminate | intros [_ N2]; contradiction].
    + assert (N2 : ~ spells input "led off").
      { intros S2. apply Hoff, Coff in S2. discriminate. }
      split; [split; [discriminate | intros S1; contradiction] |].
      split; [split; [discriminate | intros S2; contradiction] |].
      split; auto.
Qed.

(** X21. What [parseCommand] recognises.  For an input of fewer than
    65536 chars the result is CMD_LED_ON exactly if the input is [led on]
    in upper or lower case with white space before and after it or not,
    CMD_LED_OFF exactly if it is [led off] in that sense, and CMD_UNKNOWN
    otherwise; no input is both; and the result does not depend on what
    the two local buffers hold on entry. *)
Theorem parseCommand_recognises (trimmed lower input : list ascii) :
  length trimmed = 64%nat -> length lower = 64%nat -> strlen input < 65536 ->
  (parseCommand trimmed lower input = CMD_LED_ON <-> spells input "led on") /\
  (parseCommand trimmed lower input = CMD_LED_OFF <-> spells input "led off") /\
  (parseCommand trimmed lower input = CMD_UNKNOWN <->
   ~ spells input "led on" /\ ~ spells input "led off") /\
  ~ (spells input "led on" /\ spells input "led off") /\
  forall trimmed' lower' : list ascii,
    length trimmed' = 64%nat -> length lower' = 64%nat ->
    parseCommand trimmed' lower' input = parseCommand trimmed lower input.
Proof.
  intros Ht Hl Hlen.
  destruct (parseCommand_cases trimmed lower input Ht Hl Hlen) as (Hon & Hoff & Hun).
  split; [exact Hon |]. split; [exact Hoff |]. split; [exact Hun |]. split.
  - intros [S1 S2]. apply Hon in S1. apply Hoff in S2. rewrite S1 in S2. discriminate.
  - intros trimmed' lower' Ht' Hl'.
    destruct (parseCommand_cases trimmed' lower' input Ht' Hl' Hlen)
      as (Hon' & Hoff' & Hun').
    destruct (parseCommand trimmed lower input) eqn:E.
    + apply Hun', Hun. reflexivity.
    + apply Hon', Hon. reflexivity.
    + apply Hoff', Hoff. reflexivity.
Qed.

(** The line [ LeD On] followed by carriage return and line feed. *)
Lemma parseCommand_recognises_witness :
  spells (list_ascii_of_string " LeD On" ++ ["013"; "010"; NUL]%char) "led on".
Proof.
  destruct (parseCommand_recognises
              (replicate 64 "x"%char) (replicate 64 "y"%char)
              (list_ascii_of_string " LeD On" ++ ["013"; "010"; NUL]%char))
    as ((H & _) & _); [reflexivity | reflexivity | vm_compute; reflexivity |].
  apply H. vm_compute. reflexivity.
Defined.

(** X22. [toLowerStr] converts and cuts.  For a destination of [maxLen]
    chars, [maxLen] between 1 and 65535, the destination keeps its size
    and ends up holding the string of the source in lower case, cut at
    [maxLen - 1] chars; in particular the result is NUL-terminated inside
    the destination. *)
Theorem toLowerStr_lowers_and_cuts (dest src : list ascii) (maxLen : Z) :
  0 < maxLen < 65536 -> length dest = Z.to_nat maxLen ->
  length (toLowerStr dest src maxLen) = length dest /\
  cstr (toLowerStr dest src maxLen)
  = map tolower (take (Z.to_nat maxLen - 1) (cstr src)) /\
  strlen (toLowerStr dest src maxLen) < maxLen.
Proof.
  intros Hmax Hd.
  assert (Hu : Z.to_nat (u16 (maxLen - 1)) = (Z.to_nat maxLen - 1)%nat).
  { unfold u16. rewrite Z.mod_small by lia. lia. }
  assert (Hc : cstr (toLowerStr dest src maxLen)
               = map tolower (take (Z.to_nat maxLen - 1) (cstr src))).
  { rewrite cstr_toLowerStr by (rewrite Hu; lia). rewrite Hu. reflexivity. }
  split; [| split; [exact Hc |]].
  - unfold toLowerStr.
    destruct (toLowerLoop_spec src maxLen (length dest) _ eq_refl
                ltac:(rewrite Hu; lia) (length src) 0 dest)
      as (dest' & Hrun & _ & Hl); [lia | | reflexivity | reflexivity |].
    { pose proof (length_cstr_le src). lia. }
    change (Z.of_nat 0) with 0 in Hrun. rewrite Hrun, length_insert. exact Hl.
  - unfold strlen. rewrite Hc, length_map, length_take. lia.
Qed.

Lemma toLowerStr_lowers_and_cuts_witness :
  cstr (toLowerStr (replicate 4 "x"%char) (list_ascii_of_string "LED On" ++ [NUL]) 4)
  = list_ascii_of_string "led".
Proof.
  destruct (toLowerStr_lowers_and_cuts (replicate 4 "x"%char)
              (list_ascii_of_string "LED On" ++ [NUL]) 4) as (_ & H & _);
    [lia | reflexivity |].
  rewrite H. reflexivity.
Defined.

(** X23. [trimStr] trims and cuts.  For a source of fewer than 65536
    chars and a destination of [maxLen] chars, [maxLen] between 1 and
    65535: the string of the source is white space, a core that neither
    starts nor ends with white space, and white space; the destination
    keeps its size and ends up holding that core cut at [maxLen - 1]
    chars, NUL-terminated inside the destination. *)
Theorem trimStr_trims_and_cuts (dest src : list ascii) (maxLen : Z) :
  strlen src < 65536 -> 0 < maxLen < 65536 -> length dest = Z.to_nat maxLen ->
  length (trimStr dest src maxLen) = length dest /\
  strlen (trimStr dest src maxLen) < maxLen /\
  exists pre core post : list ascii,
    cstr src = pre ++ core ++ post /\
    Forall (fun c => isspace c = true) pre /\
    Forall (fun c => isspace c = true) post /\
    (core = [] \/ exists c rest, core = c :: rest /\ isspace c = false) /\
    (core = [] \/ exists a c, core = a ++ [c] /\ isspace c = false) /\
    cstr (trimStr dest src maxLen) = take (Z.to_nat maxLen - 1) core.
Proof.
  intros Hsl Hmax Hd.
  destruct (cstr_trimStr dest src maxLen Hsl Hmax Hd)
    as (pre & core & post & Hin & Hpre & Hpost & Hhead & Hlast & Hc).
  split; [| split].
  - unfold trimStr. cbv zeta. rewrite length_insert. apply length_strncpy.
    rewrite Hd.
    destruct (Z.geb_spec
                (trimEnd (Z.to_nat (u16 (strlen (skipSpaces src))))
                         (u16 (strlen (skipSpaces src))) (skipSpaces src))
                maxLen) as [Hge | Hlt].
    + unfold u16. rewrite Z.mod_small by lia. lia.
    + lia.
  - unfold strlen at 1. rewrite Hc, length_take. lia.
  - exists pre, core, post. repeat (split; [assumption |]). exact Hc.
Qed.

Lemma trimStr_trims_and_cuts_witness :
  exists pre core post : list ascii,
    cstr (list_ascii_of_string "  a b  " ++ [NUL]) = pre ++ core ++ post /\
    cstr (trimStr (replicate 8 "x"%char) (list_ascii_of_string "  a b  " ++ [NUL]) 8)
    = take 7 core.
Proof.
  destruct (trimStr_trims_and_cuts (replicate 8 "x"%char)
              (list_ascii_of_string "  a b  " ++ [NUL]) 8)
    as (_ & _ & pre & core & post & H1 & _ & _ & _ & _ & H2);
    [vm_compute; reflexivity | lia | reflexivity |].
  exists pre, core, post. split; [exact H1 | exact H2].
Defined.

End CommandParserProps.

(** ** Lab 1.1 *)

Section Lab1_1Props.
Import CString CommandParser Lab1_1.

(** X24. A command line sets the LED.  One iteration of [lab1_1Loop] on
    a line read by [fgets], with the LED on pin [LED_PIN]: if the line
    spells [led on] the LED and its pin are on afterwards and the answer
    is the ON message; if it spells [led off] they are off and the answer
    is the OFF message; otherwise the LED and the pin are not touched and
    the answer is the error message.  If [fgets] returns NULL only the
    prompt is printed. *)
Theorem command_line_sets_the_led (buf trimmed lower : list ascii) (a : App) :
  length trimmed = 64%nat -> length lower = 64%nat -> strlen buf < 65536 ->
  LedDriver.ledPin (led a) = LED_PIN ->
  (spells buf "led on" ->
   LedDriver.isOn (led (lab1_1Loop (Some buf) trimmed lower a)) = true /\
   Lab2_1.levelIn LED_PIN (pinWrites (lab1_1Loop (Some buf) trimmed lower a)) = true /\
   stdout (lab1_1Loop (Some buf) trimmed lower a)
   = "[OK] LED is now ON.\r\n"%string :: "> "%string :: stdout a) /\
  (spells buf "led off" ->
   LedDriver.isOn (led (lab1_1Loop (Some buf) trimmed lower a)) = false /\
   Lab2_1.levelIn LED_PIN (pinWrites (lab1_1Loop (Some buf) trimmed lower a)) = false /\
   stdout (lab1_1Loop (Some buf) trimmed lower a)
   = "[OK] LED is now OFF.\r\n"%string :: "> "%string :: stdout a) /\
  (~ spells buf "led on" -> ~ spells buf "led off" ->
   led (lab1_1Loop (Some buf) trimmed lower a) = led a /\
   pinWrites (lab1_1Loop (Some buf) trimmed lower a) = pinWrites a /\
   stdout (lab1_1Loop (Some buf) trimmed lower a)
   = "Use 'led on' or 'led off'.\r\n"%string :: "[ERROR] Unknown command.\r\n"%string
     :: "> "%string :: stdout a) /\
  lab1_1Loop None trimmed lower a = printf "> " a.
Proof.
  intros Ht Hl Hlen Hpin.
  destruct (parseCommand_cases trimmed lower buf Ht Hl Hlen) as (Hon & Hoff & Hun).
  destruct a as [[pin st] ib w out]. cbn [led LedDriver.ledPin] in Hpin. subst pin.
  unfold lab1_1Loop.
  cbn [printf set_inputBuffer inputBuffer led pinWrites stdout].
  destruct (parseCommand trimmed lower buf) eqn:E.
  - split; [intros S; apply Hon in S; discriminate |].
    split; [intros S; apply Hoff in S; discriminate |].
    split; [| reflexivity]. intros _ _. repeat split.
  - split; [| split; [intros S; apply Hoff in S; discriminate |
                      split; [| reflexivity]]].
    + intros _. unfold Lab2_1.levelIn. cbn. repeat split.
    + intros N _. exfalso. apply N, Hon. reflexivity.
  - split; [intros S; apply Hon in S; discriminate |].
    split; [| split; [| reflexivity]].
    + intros _. unfold Lab2_1.levelIn. cbn. repeat split.
    + intros _ N. exfalso. apply N, Hoff. reflexivity.
Qed.

Lemma command_line_sets_the_led_witness :
  Lab2_1.levelIn LED_PIN
    (pinWrites (lab1_1Loop (Some (list_ascii_of_string "LED ON" ++ ["010"; NUL]%char))
                           (replicate 64 NUL) (replicate 64 NUL)
                           (lab1_1Setup constructed)))
  = true.
Proof.
  destruct (command_line_sets_the_led
              (list_ascii_of_string "LED ON" ++ ["010"; NUL]%char)
              (replicate 64 NUL) (replicate 64 NUL) (lab1_1Setup constructed))
    as (H & _); [reflexivity | reflexivity | vm_compute; reflexivity | reflexivity |].
  destruct H as (_ & Hp & _); [| exact Hp].
  exists [], (list_ascii_of_string "LED ON"), ["010"%char].
  repeat split; repeat constructor.
Defined.

End Lab1_1Props.
